(** * Object extraction operators of ilastik: a shallow embedding

    Source: [ilastik/applets/objectExtraction/opObjectExtraction.py].

    The operators are lazyflow [Operator]s.  Each one is modelled by the three
    methods lazyflow calls on it: [setupOutputs] (metadata), [execute]
    (on-demand computation for a region of interest) and [propagateDirty]
    (invalidation).  Python exceptions are values of an error monad; requests
    to input slots and dirty notices on output slots are events appended to a
    trace that is threaded through every method. *)

From stdpp Require Import base gmap list strings.
From Stdlib Require Import ZArith Lia.
Local Open Scope Z_scope.

(** ** Python: exceptions and the error monad *)

Module Py.

Inductive exn : Type :=
  | AssertionError
  | KeyError
  | IndexError
  | ValueError
  | ZeroDivisionError.

Inductive res (A : Type) : Type :=
  | Ok (a : A)
  | Raise (e : exn).
Arguments Ok {A} a.
Arguments Raise {A} e.

#[global] Instance res_ret : MRet res := λ A a, Ok a.
#[global] Instance res_bind : MBind res := λ A B f m,
  match m with
  | Ok a => f a
  | Raise e => Raise e
  end.

(** [assert b] *)
Definition assert_ (b : bool) : res () :=
  if b then Ok () else Raise AssertionError.

(** [l[i]] on a Python list or tuple: negative indices count from the end. *)
Definition list_getitem {A} (l : list A) (i : Z) : res A :=
  let n := Z.of_nat (length l) in
  let j := if bool_decide (i < 0) then i + n else i in
  if bool_decide (0 ≤ j < n) then
    match l !! Z.to_nat j with
    | Some x => Ok x
    | None => Raise IndexError
    end
  else Raise IndexError.

(** [l.index(x)]: position of the first occurrence, [ValueError] if absent. *)
Fixpoint list_index `{EqDecision A} (x : A) (l : list A) : res nat :=
  match l with
  | [] => Raise ValueError
  | y :: l' => if decide (x = y) then Ok 0%nat
               else n ← list_index x l'; Ok (S n)
  end.

(** [range(a, b)] *)
Definition range (a b : Z) : list Z := seqZ a (b - a).

(** [k in s] for strings: [k] occurs in [s] as a substring. *)
Definition str_in (k s : string) : bool :=
  match String.index 0 k s with
  | Some _ => true
  | None => false
  end.

End Py.
Export Py.

(** ** [collections.OrderedDict] with string keys

    An association list in insertion order without repeated keys: assigning
    to a key that is present replaces the value in place, assigning to a new
    key appends. *)

Module OrderedDict.

Definition t : Type := list (string * Z).

Fixpoint setitem (k : string) (v : Z) (d : t) : t :=
  match d with
  | [] => [(k, v)]
  | (k', v') :: d' =>
      if decide (k = k') then (k', v) :: d' else (k', v') :: setitem k v d'
  end.

(** [OrderedDict(pairs)] *)
Definition of_pairs (l : list (string * Z)) : t :=
  foldl (λ d kv, setitem kv.1 kv.2 d) [] l.

Definition keys (d : t) : list string := d.*1.
Definition values (d : t) : list Z := d.*2.

(** [k in d.keys()] *)
Definition contains (k : string) (d : t) : bool := bool_decide (k ∈ keys d).

(** [d[k]] *)
Fixpoint getitem (k : string) (d : t) : res Z :=
  match d with
  | [] => Raise KeyError
  | (k', v) :: d' => if decide (k = k') then Ok v else getitem k d'
  end.

(** [del d[k]] *)
Fixpoint delitem (k : string) (d : t) : res t :=
  match d with
  | [] => Raise KeyError
  | (k', v) :: d' =>
      if decide (k = k') then Ok d'
      else d'' ← delitem k d'; Ok ((k', v) :: d'')
  end.

(** The pairs of [d] whose key is not [k]. *)
Definition without (k : string) (d : t) : t :=
  List.filter (λ kv, negb (bool_decide (kv.1 = k))) d.

End OrderedDict.

(** ** numpy: n-dimensional arrays

    An array is its shape together with the element stored at every index
    tuple; only the elements at indices within the shape are meaningful. *)

Module Numpy.

Record ndarray (A : Type) : Type := NdArray {
  nd_shape : list Z;
  nd_item : list Z → A;
}.
Arguments NdArray {A} nd_shape nd_item.
Arguments nd_shape {A} _.
Arguments nd_item {A} _ _.

(** The index tuples of an array of shape [shp]. *)
Definition in_bounds (shp idx : list Z) : Prop :=
  Forall2 (λ n i, 0 ≤ i < n) shp idx.

(** Same shape and same element at every index: equality of arrays. *)
Definition same_array {A} (a b : ndarray A) : Prop :=
  nd_shape a = nd_shape b ∧
  ∀ idx, in_bounds (nd_shape a) idx → nd_item a idx = nd_item b idx.

(** One component of an index against an extent [n]: [-n .. -1] count from
    the end, anything outside [-n .. n-1] is an [IndexError]. *)
Definition norm_index (n i : Z) : res Z :=
  if bool_decide (0 ≤ i < n) then Ok i
  else if bool_decide (- n ≤ i < 0) then Ok (i + n)
  else Raise IndexError.

Fixpoint norm_key (shp key : list Z) : res (list Z) :=
  match key, shp with
  | [], _ => Ok []
  | i :: key', n :: shp' =>
      j ← norm_index n i; k ← norm_key shp' key'; Ok (j :: k)
  | _ :: _, [] => Raise IndexError
  end.

(** [a[tuple(key)] = v]; a key shorter than the rank addresses every element
    whose index starts with it. *)
Definition setitem {A} (a : ndarray A) (key : list Z) (v : A) : res (ndarray A) :=
  k ← norm_key (nd_shape a) key;
  Ok {| nd_shape := nd_shape a;
        nd_item := λ idx,
          if bool_decide (take (length k) idx = k) then v else nd_item a idx |}.

(** [a[:] = v] *)
Definition fill {A} (a : ndarray A) (v : A) : ndarray A :=
  {| nd_shape := nd_shape a; nd_item := λ _, v |}.

Definition wrap_int64 (z : Z) : Z := (z + 2 ^ 63) `mod` 2 ^ 64 - 2 ^ 63.

(** [numpy.prod] of a sequence of Python ints, where numpy's default integer
    is int64.  numpy first makes an array of the sequence and takes the
    element type from the values: int64 when every value fits it, uint64
    when the values are non-negative and fit 64 bits, and otherwise Python
    objects (a value fits neither) or float64 (a negative value next to one
    from 2^63 on).  Products of int64 and of uint64 values wrap around, the
    product of Python ints is exact.  For a float64 array [prod] stands for
    the exact product: that one is 0 or at least 2^63 in magnitude, and so
    is the float (if it is a number at all); the operators only compare the
    product with 1. *)
Definition prod (l : list Z) : Z :=
  if forallb (λ x, bool_decide (- 2 ^ 63 ≤ x < 2 ^ 63)) l then
    foldl (λ p x, wrap_int64 (p * x)) 1 l
  else if forallb (λ x, bool_decide (0 ≤ x < 2 ^ 64)) l then
    foldl (λ p x, (p * x) `mod` 2 ^ 64) 1 l
  else foldl Z.mul 1 l.

(** The rows of a nested sequence have one length. *)
Definition rectangular {A} (rows : list (list A)) : bool :=
  match rows with
  | [] => true
  | row :: rows' =>
      forallb (λ row', bool_decide (length row' = length row)) rows'
  end.

(** [numpy.asarray(rows, dtype=...)] on a sequence of rows, [cast] being the
    conversion of one element: a two-dimensional array, [ValueError] when
    the rows differ in length. *)
Definition asarray2 {A B} (cast : A → B) (rows : list (list A))
  : res (list (list B)) :=
  if rectangular rows then Ok (map (map cast) rows) else Raise ValueError.

(** [numpy.split(a, sections, axis)] with an integer [sections] *)
Definition split {A} (a : ndarray A) (sections : Z) (axis : nat)
  : res (list (ndarray A)) :=
  N ← match nd_shape a !! axis with
       | Some n => Ok n
       | None => Raise IndexError
       end;
  if bool_decide (sections = 0) then Raise ZeroDivisionError
  else if bool_decide (sections < 0) then Raise ValueError
  else if bool_decide (N `mod` sections ≠ 0) then Raise ValueError
  else
    let k := N / sections in
    Ok ((λ i, {| nd_shape := <[axis := k]> (nd_shape a);
                 nd_item := λ idx, nd_item a (alter (λ j, j + i * k) axis idx) |})
          <$> seqZ 0 sections).

(** [a.flat[0]]: the first element, [IndexError] on an array without
    elements. *)
Definition flat0 {A} (a : ndarray A) : res A :=
  if forallb (λ n, bool_decide (0 < n)) (nd_shape a)
  then Ok (nd_item a (const 0 <$> nd_shape a))
  else Raise IndexError.

(** Two outcomes of a computation that yields an array are the same when
    both raise the same exception or both yield the same array. *)
Definition same_outcome {A} (x y : res (ndarray A)) : Prop :=
  match x, y with
  | Ok a, Ok b => same_array a b
  | Raise e1, Raise e2 => e1 = e2
  | _, _ => False
  end.

End Numpy.
Export Numpy.

(** ** lazyflow: slot metadata, regions of interest, events *)

Module Lazyflow.

Inductive dtype : Type := object | uint8 | uint32 | float32.

(** [slot.meta]: the axis tags are represented by their keys, which is what
    [==] on [vigra.AxisTags] compares position by position. *)
Record meta : Type := Meta {
  shape : list Z;
  axistags : list string;
  dtype_of : dtype;
}.

(** [meta.getTaggedShape()] is [OrderedDict(zip(keys, shape))]. *)
Definition getTaggedShape (m : meta) : OrderedDict.t :=
  OrderedDict.of_pairs (zip (axistags m) (shape m)).

(** [vigra.defaultAxistags(keys)] *)
Definition defaultAxistags (keys : list string) : list string := keys.

(** A request addresses either a box ([rtype.SubRegion]) or an explicit list
    of indices ([rtype.List]). *)
Inductive roi : Type :=
  | SubRegion (start stop : list Z)
  | List (indices : list Z).

Record box : Type := Box { start : list Z; stop : list Z }.

(** The box meant by the slicing [slot[:]] or [slice(None)]: the whole extent. *)
Definition sliceToRoi_all (shp : list Z) : roi :=
  SubRegion (const 0 <$> shp) shp.

Inductive event : Type :=
  | Requested (slot : string) (r : roi)
  | SetDirty (slot : string) (r : roi).

Definition trace : Type := list event.

(** Computations of an operator method: they may raise, and they append to
    the trace of slot requests and dirty notices. *)
Definition M (A : Type) : Type := trace → res A * trace.

#[global] Instance M_ret : MRet M := λ A a tr, (Ok a, tr).
#[global] Instance M_bind : MBind M := λ A B f m tr,
  match m tr with
  | (Ok a, tr') => f a tr'
  | (Raise e, tr') => (Raise e, tr')
  end.

Definition lift {A} (r : res A) : M A := λ tr, (r, tr).
Definition emit (e : event) : M () := λ tr, (Ok (), tr ++ [e]).

(** A computation whose outcome does not depend on the requests and notices
    recorded before it. *)
Definition oblivious {A} (m : M A) : Prop :=
  ∀ tr1 tr2 : trace, (m tr1).1 = (m tr2).1.

(** [for x in l: s = body(s, x)] *)
Fixpoint for_ {S X} (l : list X) (body : S → X → M S) (s : S) : M S :=
  match l with
  | [] => mret s
  | x :: l' => s' ← body s x; for_ l' body s'
  end.

(** The same loop for code that requests nothing. *)
Fixpoint for_res {S X} (l : list X) (body : S → X → res S) (s : S) : res S :=
  match l with
  | [] => Ok s
  | x :: l' => s' ← body s x; for_res l' body s'
  end.

(** A box is well formed for a slot of shape [shp] when it has the slot's
    rank and [0 <= start[i] <= stop[i] <= shp[i]]. *)
Definition valid_box (shp start stop : list Z) : bool :=
  bool_decide (length start = length shp) &&
  bool_decide (length stop = length shp) &&
  forallb (λ p, bool_decide (0 ≤ p.1.1 ∧ p.1.1 ≤ p.1.2 ∧ p.1.2 ≤ p.2))
          (zip (zip start stop) shp).

(** Modelled from the spec: lazyflow's [slot(start, stop).wait()] on an input
    slot that carries the array [data].  Section 4.1 ([request]): the answer
    is exactly the sub-array covering the box; section 3: a box is the
    half-open hyper-rectangle [start, stop) with [start[i] <= stop[i]].  A box
    that is not well formed for the slot is refused. *)
Definition slot_call {A} (name : string) (data : ndarray A)
    (start stop : list Z) : M (ndarray A) :=
  _ ← emit (Requested name (SubRegion start stop));
  if valid_box (nd_shape data) start stop then
    mret {| nd_shape := zip_with Z.sub stop start;
            nd_item := λ idx, nd_item data (zip_with Z.add idx start) |}
  else lift (Raise ValueError).

End Lazyflow.
Export Lazyflow.

(** ** vigra

    The feature extractor and the array views belong to vigra; the operators
    only pass data through them. *)

Class Vigra : Type := {
  (** voxel arrays as an input slot hands them out *)
  Vol : Type;
  (** [VigraArray] views restricted to the spatial axes *)
  Vol3 : Type;
  (** [vigra.analysis.RegionFeatureAccumulator] *)
  Features : Type;
  (** [a.view(VigraArray)] with [a.axistags = tags], then [a.withAxes( *axes)] *)
  withAxes : list string → list string → Vol → Vol3;
  (** [numpy.asarray(a, dtype=...)] *)
  asarray : dtype → Vol3 → Vol3;
  (** [vigra.analysis.extractRegionFeatures(image, labels, features, ignoreLabel)];
      it raises when it is asked for a feature name it does not know *)
  extractRegionFeatures : Vol3 → Vol3 → list string → Z → res Features;
}.

(** ** OpRegionFeatures3d *)

Module OpRegionFeatures3d.

Inductive slot_id : Type := RawVolume | LabelVolume | Output.

#[global] Instance slot_id_eq_dec : EqDecision slot_id.
Proof. solve_decision. Defined.

(** [setupOutputs]: [raw] and [label] are [self.RawVolume.meta] and
    [self.LabelVolume.meta]; the value is the metadata published on
    [self.Output]. *)
Definition setupOutputs (raw label : meta) : res meta :=
  _ ← assert_ (bool_decide (shape label = shape raw));
  _ ← assert_ (bool_decide (axistags label = axistags raw));
  let taggedOutputShape := getTaggedShape label in
  _ ← (if OrderedDict.contains "t" taggedOutputShape then
         v ← OrderedDict.getitem "t" taggedOutputShape;
         assert_ (bool_decide (v = 1))
       else Ok ());
  _ ← (if OrderedDict.contains "c" taggedOutputShape then
         v ← OrderedDict.getitem "c" taggedOutputShape;
         assert_ (bool_decide (v = 1))
       else Ok ());
  _ ← assert_ (bool_decide
         ((list_to_set (OrderedDict.keys taggedOutputShape) : gset string)
            ∖ list_to_set ["t"; "c"]
          = list_to_set ["x"; "y"; "z"]));
  (* Remove the spatial dims (keep t and c, if present) *)
  d ← OrderedDict.delitem "x" taggedOutputShape;
  d ← OrderedDict.delitem "y" d;
  d ← OrderedDict.delitem "z" d;
  Ok {| shape := OrderedDict.values d;
        axistags := defaultAxistags (OrderedDict.keys d);
        dtype_of := object |}.

Section Operator.
Context `{Vigra}.

Record input_slot : Type := InputSlot {
  in_meta : meta;
  in_data : Vol;
}.

(** The operator object: its feature names, its two connected inputs and the
    metadata published on its output. *)
Record operator : Type := Operator {
  featureNames : list string;
  raw : input_slot;
  label : input_slot;
  output_meta : meta;
}.

(** [slot[:].wait()]: a request for the whole extent of the slot. *)
Definition slot_getitem_all (name : string) (s : input_slot) : M Vol :=
  _ ← emit (Requested name (sliceToRoi_all (shape (in_meta s))));
  mret (in_data s).

Definition _extract (self : operator) (image labels : Vol3) : res Features :=
  let image := asarray float32 image in
  let labels := asarray uint32 labels in
  extractRegionFeatures image labels (featureNames self) 0.

Definition execute (self : operator) (slot : slot_id) (subindex : list Z)
    (r : box) (result : ndarray Features) : M (ndarray Features) :=
  _ ← lift (assert_ (bool_decide (length (start r) = length (stop r)) &&
                     bool_decide (length (stop r)
                                  = length (shape (output_meta self)))));
  _ ← lift (assert_ (bool_decide (slot = Output)));
  (* Process ENTIRE volume *)
  rawVolume ← slot_getitem_all "RawVolume" (raw self);
  labelVolume ← slot_getitem_all "LabelVolume" (label self);
  (* Convert to 3D (preserve axis order) *)
  let spatialAxes := OrderedDict.keys (getTaggedShape (in_meta (raw self))) in
  let spatialAxes := List.filter (λ k, str_in k "xyz") spatialAxes in
  let rawVolume3d := withAxes (axistags (in_meta (raw self))) spatialAxes rawVolume in
  let labelVolume3d :=
    withAxes (axistags (in_meta (label self))) spatialAxes labelVolume in
  _ ← lift (assert_ (bool_decide
         (Numpy.prod (zip_with Z.sub (stop r) (start r)) = 1)));
  acc ← lift (_extract self rawVolume3d labelVolume3d);
  result ← lift (Numpy.setitem result (start r) acc);
  mret result.

Definition propagateDirty (self : operator) (slot : slot_id)
    (subindex : list Z) (r : box) : M () :=
  let axes := OrderedDict.keys (getTaggedShape (in_meta (raw self))) in
  let dirtyStart := OrderedDict.of_pairs (zip axes (start r)) in
  let dirtyStop := OrderedDict.of_pairs (zip axes (stop r)) in
  (* Remove the spatial dims (keep t and c, if present) *)
  dirtyStart ← lift (OrderedDict.delitem "x" dirtyStart);
  dirtyStart ← lift (OrderedDict.delitem "y" dirtyStart);
  dirtyStart ← lift (OrderedDict.delitem "z" dirtyStart);
  dirtyStop ← lift (OrderedDict.delitem "x" dirtyStop);
  dirtyStop ← lift (OrderedDict.delitem "y" dirtyStop);
  dirtyStop ← lift (OrderedDict.delitem "z" dirtyStop);
  emit (SetDirty "Output"
          (SubRegion (OrderedDict.values dirtyStart)
                     (OrderedDict.values dirtyStop))).

End Operator.

End OpRegionFeatures3d.

(** ** OpRegionFeatures *)

Module OpRegionFeatures.

Inductive slot_id : Type := RawImage | LabelImage | Output.

(** [assert False, "Shouldn't get here."] *)
Definition execute {D} (slot : slot_id) (subindex : list Z) (r : roi)
    (destination : D) : M () :=
  lift (assert_ false).

Definition propagateDirty (slot : slot_id) (subindex : list Z) (r : roi)
  : M () := mret ().

End OpRegionFeatures.

(** ** OpCachedRegionFeatures *)

Module OpCachedRegionFeatures.

Inductive slot_id : Type := RawImage | LabelImage | Output.

(** [setupOutputs]: [raw] and [label] are [self.RawImage.meta] and
    [self.LabelImage.meta], [inner] is
    [self._opRegionFeatures.Output.meta.shape]; the value is the block shape
    set on [self._opCache.blockShape]. *)
Definition setupOutputs (raw label : meta) (inner : list Z) : res (list Z) :=
  _ ← assert_ (bool_decide (shape label = shape raw));
  _ ← assert_ (bool_decide (axistags label = axistags raw));
  (* Every value in the regionfeatures output is cached as its own block *)
  let blockshape := replicate (length inner) 1 in
  Ok blockshape.

Definition execute {D} (slot : slot_id) (subindex : list Z) (r : roi)
    (destination : D) : M () :=
  lift (assert_ false).

Definition propagateDirty (slot : slot_id) (subindex : list Z) (r : roi)
  : M () := mret ().

End OpCachedRegionFeatures.

(** ** OpAdaptTimeListRoi *)

Module OpAdaptTimeListRoi.

Inductive slot_id : Type := Input | Output.

#[global] Instance slot_id_eq_dec : EqDecision slot_id.
Proof. solve_decision. Defined.

Section Operator.
Context {A : Type}.

(** The operator object: the metadata of its input and the (t,c)-indexed
    array of feature records the input carries. *)
Record operator : Type := Operator {
  input_meta : meta;
  input_data : ndarray A;
}.

Definition setupOutputs (self : operator) : res Z :=
  (* Number of time steps *)
  OrderedDict.getitem "t" (getTaggedShape (input_meta self)).

(** One turn of [for t in roi]. *)
Definition execute_time (self : operator) (taggedShape : OrderedDict.t)
    (numChannels : Z) (channelIndex timeIndex : nat)
    (result : gmap Z (list A)) (t : Z) : M (gmap Z (list A)) :=
  let result := <[t := []]> result in
  let start := replicate (length taggedShape) 0 in
  let stop := OrderedDict.values taggedShape in
  let start := <[timeIndex := t]> start in
  let stop := <[timeIndex := 1]> stop in
  a ← slot_call "Input" (input_data self) start stop;
  (* Result is provided as a list of arrays by channel *)
  channelResults ← lift (Numpy.split a numChannels channelIndex);
  for_ channelResults
    (λ result channelResult,
       (* Extract from 1x1 ndarray *)
       x ← lift (flat0 channelResult);
       mret (alter (λ l, l ++ [x]) t result))
    result.

Definition execute {D} (self : operator) (slot : slot_id) (subindex : list Z)
    (r : list Z) (destination : D) : M (gmap Z (list A)) :=
  _ ← lift (assert_ (bool_decide (slot = Output)));
  let taggedShape := getTaggedShape (input_meta self) in
  numChannels ← lift (OrderedDict.getitem "c" taggedShape);
  channelIndex ← lift (list_index "c" (OrderedDict.keys taggedShape));
  (* Special case: An empty roi list means "request everything" *)
  r ← (if bool_decide (length r = 0%nat) then
         T ← lift (OrderedDict.getitem "t" taggedShape);
         mret (range 0 T)
       else mret r);
  let taggedShape := OrderedDict.setitem "t" 1 taggedShape in
  timeIndex ← lift (list_index "t" (OrderedDict.keys taggedShape));
  for_ r (execute_time self taggedShape numChannels channelIndex timeIndex) ∅.

End Operator.
Arguments operator A : clear implicits.

(** An adapter whose input has the axes (t, c) with extents [T] and [C], as
    the stacked output of the feature pipeline has, and the tagged shape
    [execute] works with after it has set the extent of t to 1. *)
Definition tc_operator {A} (T C : Z) (dt : dtype) (data : ndarray A)
  : operator A :=
  Operator (Meta [T; C] ["t"; "c"] dt) data.

Definition tc_tagged (C : Z) : OrderedDict.t := [("t", 1); ("c", C)].

(** [axistags.index(key)] of vigra's AxisTags: the position of the first axis
    with that key, the number of axes when there is none. *)
Definition axistags_index (key : string) (tags : list string) : nat :=
  match list_find (λ k, k = key) tags with
  | Some (i, _) => i
  | None => length tags
  end.

Definition propagateDirty {A} (self : operator A) (slot : slot_id)
    (subindex : list Z) (r : box) : M () :=
  _ ← lift (assert_ (bool_decide (slot = Input)));
  let timeIndex := axistags_index "t" (axistags (input_meta self)) in
  a ← lift (list_getitem (start r) (Z.of_nat timeIndex));
  b ← lift (list_getitem (stop r) (Z.of_nat timeIndex));
  emit (SetDirty "Output" (List (range a b))).

End OpAdaptTimeListRoi.

(** ** OpObjectCenterImage *)

Module OpObjectCenterImage.

Inductive slot_id : Type := BinaryImage | RegionCenters | Output.

#[global] Instance slot_id_eq_dec : EqDecision slot_id.
Proof. solve_decision. Defined.

Definition setupOutputs (binaryImage : meta) : meta := binaryImage.

(** One turn of the loop of [__contained_in_subregion]:
    [b = b and (roi.start[i] <= coords[i] and coords[i] < roi.stop[i])];
    [and] does not look at the box once [b] is false. *)
Definition contained_step (r : box) (coords : list Z) (b : bool) (i : nat)
  : res bool :=
  if b then
    lo ← list_getitem (start r) (Z.of_nat i);
    x ← list_getitem coords (Z.of_nat i);
    if bool_decide (lo ≤ x) then
      x ← list_getitem coords (Z.of_nat i);
      hi ← list_getitem (stop r) (Z.of_nat i);
      Ok (bool_decide (x < hi))
    else Ok false
  else Ok false.

(** [__contained_in_subregion] *)
Definition contained_in_subregion (r : box) (coords : list Z) : res bool :=
  for_res (seq 0 (length coords)) (contained_step r coords) true.

(** [__make_key] *)
Fixpoint make_key_from (r : box) (coords : list Z) (idxs : list nat)
  : res (list Z) :=
  match idxs with
  | [] => Ok []
  | i :: is' =>
      x ← list_getitem coords (Z.of_nat i);
      lo ← list_getitem (start r) (Z.of_nat i);
      key ← make_key_from r coords is';
      Ok ((x - lo) :: key)
  end.

Definition make_key (r : box) (coords : list Z) : res (list Z) :=
  make_key_from r coords (seq 0 (length (start r))).

Section Operator.
(** [F] is the element type of the feature tables, [to_uint32] what
    [numpy.asarray(..., dtype=numpy.uint32)] makes of an element. *)
Context {F : Type} (to_uint32 : F → Z).

(** A feature record: feature name to table, a table being a list of rows. *)
Definition record : Type := gmap string (list (list F)).

(** The operator object: the metadata of [BinaryImage] and what the
    [RegionCenters] slot answers to a request for a list of times. *)
Record operator : Type := Operator {
  binaryImage_meta : meta;
  regionCenters : list Z → res (gmap Z (list record));
}.

(** [self.RegionCenters(times).wait()] *)
Definition RegionCenters_call (self : operator) (times : list Z)
  : M (gmap Z (list record)) :=
  _ ← emit (Requested "RegionCenters" (List times));
  lift (regionCenters self times).

(** The Python variable [centers] holds the dict answered by the slot until
    the body of the channel loop rebinds it to a uint32 array. *)
Inductive centers_value : Type :=
  | FromSlot (d : gmap Z (list record))
  | Array (a : list (list Z)).

(** [centers[t][ch]['RegionCenter']]: on an array, [centers[t]] is a row,
    [centers[t][ch]] a numpy scalar, and indexing a scalar is an
    [IndexError]. *)
Definition centers_lookup (centers : centers_value) (t ch : Z)
  : res (list (list F)) :=
  match centers with
  | FromSlot d =>
      recs ← match d !! t with Some recs => Ok recs | None => Raise KeyError end;
      rec ← list_getitem recs ch;
      match rec !! "RegionCenter" with
      | Some table => Ok table
      | None => Raise KeyError
      end
  | Array a =>
      row ← list_getitem a t;
      _ ← list_getitem row ch;
      Raise IndexError
  end.

(** [if self.__contained_in_subregion(roi, c): result[self.__make_key(roi, c)] = 255] *)
Definition paint_voxel (r : box) (result : ndarray Z) (c : list Z)
  : res (ndarray Z) :=
  b ← contained_in_subregion r c;
  if b : bool then
    key ← make_key r c;
    Numpy.setitem result key 255
  else Ok result.

(** The two inner loops [for dim in (1, 2, 3): for offset in (-1, 0, 1)].
    A uint32 scalar plus a Python int is an int64 in numpy, so the sums do
    not wrap. *)
Definition paint_center (r : box) (t ch : Z) (x y z : Z)
    (result : ndarray Z) : res (ndarray Z) :=
  for_res [1; 2; 3]%nat
    (λ result dim,
       for_res [-1; 0; 1]
         (λ result offset,
            let c := [t; x; y; z; ch] in
            let c := alter (λ v, v + offset) dim c in
            paint_voxel r result c)
         result)
    result.

(** The body of [for center in centers]: [x, y, z = center[0:3]] needs
    exactly three values. *)
Definition paint_row (r : box) (t ch : Z) (result : ndarray Z)
    (center : list Z) : res (ndarray Z) :=
  match take 3 center with
  | [x; y; z] => paint_center r t ch x y z result
  | _ => Raise ValueError
  end.

(** The body of [for ch in range(roi.start[-1], roi.stop[-1])]; the state is
    the variable [centers] and the array [result]. *)
Definition execute_channel (r : box) (t : Z)
    (st : centers_value * ndarray Z) (ch : Z)
  : res (centers_value * ndarray Z) :=
  let '(centers, result) := st in
  centers ← centers_lookup centers t ch;
  centers ← Numpy.asarray2 to_uint32 centers;
  let centers := if bool_decide (length (concat centers) ≠ 0%nat)
                 then drop 1 centers else centers in
  result ← for_res centers (paint_row r t ch) result;
  Ok (Array centers, result).

(** The body of [for t in range(roi.start[0], roi.stop[0])]. *)
Definition execute_time (self : operator) (r : box) (result : ndarray Z)
    (t : Z) : M (ndarray Z) :=
  centers ← RegionCenters_call self [t];
  c0 ← lift (list_getitem (start r) (-1));
  c1 ← lift (list_getitem (stop r) (-1));
  st ← lift (for_res (range c0 c1) (execute_channel r t)
               (FromSlot centers, result));
  mret st.2.

Definition execute (self : operator) (slot : slot_id) (subindex : list Z)
    (r : box) (result : ndarray Z) : M (ndarray Z) :=
  _ ← lift (assert_ (bool_decide (slot = Output)));
  let result := Numpy.fill result 0 in
  t0 ← lift (list_getitem (start r) 0);
  t1 ← lift (list_getitem (stop r) 0);
  for_ (range t0 t1) (execute_time self r) result.

Definition propagateDirty (self : operator) (slot : slot_id)
    (subindex : list Z) (r : roi) : M () :=
  if bool_decide (slot = RegionCenters) then
    emit (SetDirty "Output"
            (sliceToRoi_all (shape (setupOutputs (binaryImage_meta self)))))
  else mret ().

End Operator.
Arguments operator F : clear implicits.
Arguments record F : clear implicits.

End OpObjectCenterImage.

(** ** OpObjectExtraction *)

Module OpObjectExtraction.

Inductive slot_id : Type :=
  | RawImage | BinaryImage | BackgroundLabels
  | LabelImage | ObjectCenterImage | RegionFeatures.

(** [assert False, "Shouldn't get here."] *)
Definition execute {D} (slot : slot_id) (subindex : list Z) (r : roi)
    (result : D) : M () :=
  lift (assert_ false).

Definition propagateDirty (inputSlot : slot_id) (subindex : list Z) (r : roi)
  : M () := mret ().

(** these features are needed by classification applet. *)
Definition default_features : list string :=
  ["RegionCenter"; "Coord<Minimum>"; "Coord<Maximum>"].

(** [list(set(config.vigra_features).union(set(self.default_features)))],
    the feature names [__init__] hands to OpCachedRegionFeatures;
    [vigra_features] is the list configured in the applet's [config] module.
    Python leaves the order of the list unspecified, [elements] fixes one. *)
Definition features (vigra_features : list string) : list string :=
  elements ((list_to_set vigra_features : gset string)
              ∪ list_to_set default_features).

End OpObjectExtraction.

(** ** The specification's notions

    These definitions follow the words of the specification, to be compared
    with what the operators compute.  [drop_spatial axes v]: the components
    of [v] that belong to the axes x, y and z are deleted, the others are
    kept in their order. *)

Module Spec.

Definition is_spatial (k : string) : bool := bool_decide (k ∈ ["x"; "y"; "z"]).

Definition not_spatial (kv : string * Z) : bool := negb (is_spatial kv.1).

Definition drop_spatial (axes : list string) (v : list Z) : list Z :=
  (List.filter not_spatial (zip axes v)).*2.

Section whole_volume.
Context `{Vigra}.
Import OpRegionFeatures3d.

(** The feature record [execute] computes, or the exception of the
    extractor: it is a function of the complete contents of both input slots
    and of nothing else. *)
Definition whole_volume_features (self : OpRegionFeatures3d.operator)
  : res Features :=
  let spatialAxes :=
    List.filter (λ k, str_in k "xyz")
      (OrderedDict.keys (getTaggedShape (in_meta (raw self)))) in
  extractRegionFeatures
    (asarray float32
       (withAxes (axistags (in_meta (raw self))) spatialAxes
          (in_data (raw self))))
    (asarray uint32
       (withAxes (axistags (in_meta (label self))) spatialAxes
          (in_data (label self))))
    (featureNames self) 0.

(** The two requests [execute] sends upstream: the whole extent of each
    input. *)
Definition whole_volume_requests (self : OpRegionFeatures3d.operator) : trace :=
  [Requested "RawVolume" (sliceToRoi_all (shape (in_meta (raw self))));
   Requested "LabelVolume" (sliceToRoi_all (shape (in_meta (label self))))].

End whole_volume.

(** The coordinate [c] lies in the half-open box [r]. *)
Definition inbox (r : box) (c : list Z) : bool :=
  forallb (λ p, bool_decide (p.1.1 ≤ p.2) && bool_decide (p.2 < p.1.2))
          (zip (zip (start r) (stop r)) c).

(** The seven voxels of the marker of an object centred at (x,y,z) in time
    step [t] and channel [ch]: the centre and its six neighbours at distance
    one along a single spatial axis. *)
Definition cross (t x y z ch : Z) : list (list Z) :=
  [[t; x; y; z; ch];
   [t; x - 1; y; z; ch]; [t; x + 1; y; z; ch];
   [t; x; y - 1; z; ch]; [t; x; y + 1; z; ch];
   [t; x; y; z - 1; ch]; [t; x; y; z + 1; ch]].

End Spec.

(** ** The marker loops as pure functions

    Under the conditions of a request (a box of five axes and a destination
    of the box's shape) the painting loops of OpObjectCenterImage cannot
    raise; these are their values. *)

Module Marker.

(** [__make_key]: the index of coordinate [c] in the destination. *)
Definition key_of (r : box) (c : list Z) : list Z := zip_with Z.sub c (start r).

(** One conditional assignment of 255. *)
Definition stamp (r : box) (a : ndarray Z) (c : list Z) : ndarray Z :=
  if Spec.inbox r c then
    {| nd_shape := nd_shape a;
       nd_item := λ idx,
         if bool_decide (take (length (key_of r c)) idx = key_of r c)
         then 255 else nd_item a idx |}
  else a.

(** The assignment for coordinate [c] writes the element at index [idx]. *)
Definition hit (r : box) (idx c : list Z) : bool :=
  Spec.inbox r c && bool_decide (idx = key_of r c).

(** The coordinates the two inner loops visit, in order. *)
Definition visited (t ch x y z : Z) : list (list Z) :=
  dim ← [1; 2; 3]%nat; offset ← [-1; 0; 1];
  [alter (λ v, v + offset) dim [t; x; y; z; ch]].

(** The requests to RegionCenters of a run over the time steps [ts]. *)
Definition requests_for (ts : list Z) : trace :=
  (λ t, Requested "RegionCenters" (List [t])) <$> ts.

(** [x, y, z = center[0:3]] *)
Definition row_center (row : list Z) : option (Z * Z * Z) :=
  match take 3 row with
  | [x; y; z] => Some (x, y, z)
  | _ => None
  end.

Definition has_center (row : list Z) : bool :=
  match row_center row with Some _ => true | None => false end.

Definition row_voxels (t ch : Z) (row : list Z) : list (list Z) :=
  match row_center row with
  | Some (x, y, z) => visited t ch x y z
  | None => []
  end.

Section tables.
Context {F : Type} (to_uint32 : F → Z).

(** The rows of a table that are painted: all rows after the cast to uint32,
    without row 0 unless the table has no element. *)
Definition kept (table : list (list F)) : list (list Z) :=
  let centers := map (map to_uint32) table in
  if bool_decide (length (concat centers) ≠ 0%nat) then drop 1 centers
  else centers.

(** The RegionCenter table of time [t] and channel [ch] as the slot
    provides it. *)
Definition fetch (self : OpObjectCenterImage.operator F) (t ch : Z)
  : res (list (list F)) :=
  d ← OpObjectCenterImage.regionCenters self [t];
  OpObjectCenterImage.centers_lookup (OpObjectCenterImage.FromSlot d) t ch.

(** The coordinates visited for time step [t] when the channel loop runs
    over [chs]: nothing for no channel, the voxels of the kept rows of a
    rectangular table for one channel; with more channels the second turn of
    the loop raises. *)
Definition time_voxels (self : OpObjectCenterImage.operator F) (chs : list Z)
    (t : Z) : res (list (list Z)) :=
  d ← OpObjectCenterImage.regionCenters self [t];
  match chs with
  | [] => Ok []
  | ch :: chs' =>
      table ← OpObjectCenterImage.centers_lookup
                 (OpObjectCenterImage.FromSlot d) t ch;
      if negb (rectangular table) then Raise ValueError
      else if forallb has_center (kept table) then
        match chs' with
        | [] => Ok (kept table ≫= row_voxels t ch)
        | _ :: _ => Raise IndexError
        end
      else Raise ValueError
  end.

(** The coordinates visited over the time steps [ts], in order. *)
Fixpoint times_voxels (self : OpObjectCenterImage.operator F) (chs : list Z)
    (ts : list Z) : res (list (list Z)) :=
  match ts with
  | [] => Ok []
  | t :: ts' =>
      cs ← time_voxels self chs t;
      rest ← times_voxels self chs ts';
      Ok (cs ++ rest)
  end.

End tables.

End Marker.

(** ** Concrete operators used in the examples *)

Module Examples.

(** The feature names the stand-in for vigra knows. *)
Definition known_features : list string :=
  ["RegionCenter"; "Coord<Minimum>"; "Coord<Maximum>"; "Count"].

(** A stand-in for vigra: volumes are arrays of integers, views and casts do
    nothing, and the feature record is the pair of the two corner voxels; a
    feature name that is not known is refused. *)
Definition toy_vigra : Vigra := {|
  Vol := ndarray Z;
  Vol3 := ndarray Z;
  Features := Z * Z;
  withAxes := λ _ _ v, v;
  asarray := λ _ v, v;
  extractRegionFeatures := λ image labels features _,
    if forallb (λ name, bool_decide (name ∈ known_features)) features
    then Ok (nd_item image [0; 0; 0; 0; 0], nd_item labels [0; 0; 0; 0; 0])
    else Raise ValueError;
|}.

Definition volume_meta (dt : dtype) : meta :=
  Meta [1; 4; 4; 4; 1] ["t"; "x"; "y"; "z"; "c"] dt.

Definition raw_volume : ndarray Z :=
  NdArray [1; 4; 4; 4; 1] (λ idx, 100 + foldr Z.add 0 idx).

Definition label_volume : ndarray Z :=
  NdArray [1; 4; 4; 4; 1] (λ idx, if bool_decide (idx = [0; 1; 1; 1; 0]) then 1 else 0).

(** OpRegionFeatures3d on one (t,c) slab of 4x4x4 voxels. *)
Definition slab_features : @OpRegionFeatures3d.operator toy_vigra :=
  @OpRegionFeatures3d.Operator toy_vigra ["RegionCenter"]
    (@OpRegionFeatures3d.InputSlot toy_vigra (volume_meta float32) raw_volume)
    (@OpRegionFeatures3d.InputSlot toy_vigra (volume_meta uint32) label_volume)
    (Meta [1; 1] ["t"; "c"] object).

(** A (t,c)-indexed array of records; the record at (t,c) is [10 t + c]. *)
Definition cells (T C : Z) : ndarray Z :=
  NdArray [T; C] (λ idx, match idx with [t; c] => 10 * t + c | _ => -1 end).

(** OpAdaptTimeListRoi on [T] time steps and [C] channels. *)
Definition adapter (T C : Z) : OpAdaptTimeListRoi.operator Z :=
  OpAdaptTimeListRoi.Operator (Meta [T; C] ["t"; "c"] object) (cells T C).

(** A feature record with the background row and one object centred at
    voxel (5,5,5). *)
Definition one_object : OpObjectCenterImage.record Z :=
  {[ "RegionCenter" := [[0; 0; 0]; [5; 5; 5]] ]}.

(** What numpy makes of an integral value when it casts to uint32. *)
Definition cast_uint32 (v : Z) : Z := v `mod` 2 ^ 32.

(** OpObjectCenterImage over a 20x20x20 volume with [C] channels, every
    channel holding [one_object]. *)
Definition center_image (C : Z) : OpObjectCenterImage.operator Z :=
  OpObjectCenterImage.Operator
    (Meta [1; 20; 20; 20; C] ["t"; "x"; "y"; "z"; "c"] uint8)
    (λ times,
       Ok (list_to_map ((λ t, (t, replicate (Z.to_nat C) one_object)) <$> times))).

(** An uninitialised destination of the given shape. *)
Definition destination (shp : list Z) : ndarray Z := NdArray shp (λ _, 77).

(** The request for the whole single-channel volume, and its outcome. *)
Definition whole_image_request : res (ndarray Z) * trace :=
  OpObjectCenterImage.execute cast_uint32 (center_image 1)
    OpObjectCenterImage.Output []
    (Box [0; 0; 0; 0; 0] [1; 20; 20; 20; 1])
    (destination [1; 20; 20; 20; 1]) [].

Definition marked_image : ndarray Z :=
  match whole_image_request.1 with
  | Ok a => a
  | Raise _ => destination []
  end.

(** All index tuples of an array of shape [shp], in row-major order. *)
Fixpoint indices (shp : list Z) : list (list Z) :=
  match shp with
  | [] => [[]]
  | n :: shp' => i ← seqZ 0 n; idx ← indices shp'; [i :: idx]
  end.

(** The indices at which an image is not zero. *)
Definition marked_indices (a : ndarray Z) : list (list Z) :=
  List.filter (λ idx, negb (nd_item a idx =? 0)) (indices (nd_shape a)).

(** The outcome of a request as the list of marked indices. *)
Definition marked_by (out : res (ndarray Z) * trace) : res (list (list Z)) :=
  match out.1 with
  | Ok a => Ok (marked_indices a)
  | Raise e => Raise e
  end.

(** A slot that answers every time step with a record whose RegionCenter
    table is [table]. *)
Definition center_image_of (table : list (list Z))
  : OpObjectCenterImage.operator Z :=
  OpObjectCenterImage.Operator
    (Meta [1; 20; 20; 20; 1] ["t"; "x"; "y"; "z"; "c"] uint8)
    (λ times, Ok (list_to_map ((λ t, (t, [{[ "RegionCenter" := table ]}])) <$> times))).

(** Destinations for the one cell of [slab_features]. *)
Definition feature_cell (junk : Z * Z)
  : ndarray (@Features toy_vigra) := NdArray [1; 1] (λ _, junk).

End Examples.

(** ** ChaingraphTrackingWorkflow

    Source: [ilastik/workflows/tracking/chaingraph/chaingraphTrackingWorkflow.py].
    The part of the workflow that decides which applets the shell enables. *)

Module ChaingraphTrackingWorkflow.

Inductive applet : Type :=
  | dataSelectionApplet
  | thresholdTwoLevelsApplet
  | objectExtractionApplet
  | trackingApplet
  | dataExportApplet.

#[global] Instance applet_eq_dec : EqDecision applet.
Proof. solve_decision. Defined.

(** [self._applets] as [__init__] fills it. *)
Definition applets : list applet :=
  [dataSelectionApplet; thresholdTwoLevelsApplet; objectExtractionApplet;
   trackingApplet; dataExportApplet].

(** What the workflow reads from its applets and their operators:
    [ImageGroup] holds, for every lane, the [ready()] flag of each of the
    lane's sub-slots; the lengths are those of the multi-slots. *)
Record state : Type := State {
  ImageGroup : list (list bool);
  dataSelection_busy : bool;
  dataExport_busy : bool;
  tracking_busy : bool;
  CachedOutput_len : nat;
  ComputedFeatureNames_len : nat;
  EventsVector_len : nat;
  EventsVector_ready : bool;
  Output_ready : bool;
}.

(** The calls the workflow makes on the shell. *)
Inductive shell_call : Type :=
  | enableProjectChanges (enabled : bool)
  | setAppletEnabled (a : applet) (enabled : bool).

(** [[sub[i].ready() for i in range(nRoles)]] *)
Fixpoint ready_flags (sub : list bool) (roles : list Z) : res (list bool) :=
  match roles with
  | [] => Ok []
  | i :: roles' =>
      flag ← list_getitem sub i;
      flags ← ready_flags sub roles';
      Ok (flag :: flags)
  end.

(** [_inputReady]: [input_ready and all(...)] does not look at a lane once
    [input_ready] is false. *)
Definition _inputReady (st : state) (nRoles : Z) : res bool :=
  let slot := ImageGroup st in
  if bool_decide (0 < length slot)%nat then
    for_res slot
      (λ (input_ready : bool) sub,
         if input_ready then
           flags ← ready_flags sub (range 0 nRoles);
           Ok (forallb id flags)
         else Ok false)
      true
  else Ok false.

Definition handleAppletStateUpdateRequested (st : state)
  : res (list shell_call) :=
  (* If no data, nothing else is ready. *)
  ready ← _inputReady st 2;
  let input_ready := ready && negb (dataSelection_busy st) in
  let thresholding_ready :=
    input_ready && bool_decide (0 < CachedOutput_len st)%nat in
  let features_ready :=
    thresholding_ready && bool_decide (0 < ComputedFeatureNames_len st)%nat in
  let tracking_ready :=
    features_ready && bool_decide (0 < EventsVector_len st)%nat &&
    EventsVector_ready st && Output_ready st in
  let busy := false in
  let busy := busy || dataSelection_busy st in
  let busy := busy || dataExport_busy st in
  let busy := busy || tracking_busy st in
  Ok [enableProjectChanges (negb busy);
      setAppletEnabled dataSelectionApplet (negb busy);
      setAppletEnabled thresholdTwoLevelsApplet (input_ready && negb busy);
      setAppletEnabled objectExtractionApplet (thresholding_ready && negb busy);
      setAppletEnabled trackingApplet (features_ready && negb busy);
      setAppletEnabled dataExportApplet (tracking_ready && negb busy)].

(** The last value the shell was given for an applet. *)
Definition enabled (calls : list shell_call) (a : applet) : option bool :=
  foldl (λ acc call,
           match call with
           | setAppletEnabled a' b => if decide (a' = a) then Some b else acc
           | enableProjectChanges _ => acc
           end) None calls.

End ChaingraphTrackingWorkflow.

(** ** The gurobi wrapper package

    Source: [ilastik/applets/counting/cwrapper/gurobi/__init__.py].  The
    module body looks for the wrapper library when the package is imported. *)

Module Gurobi.

Definition libraryname : string := "libgurobiwrapper.so".
Definition dllname : string := "gurobiwrapper.dll".

Section import.
(** [LoadLibrary file] is [ctypes.cdll.LoadLibrary(file)]: the loaded library,
    or [None] when the call raises. *)
Context {Lib : Type} (LoadLibrary : string → option Lib).

(** The module globals the loop assigns, and the files it has tried. *)
Record globals : Type := Globals {
  HAS_GUROBI : bool;
  extlib : option Lib;
  tried : list string;
}.

(** [try: extlib = ctypes.cdll.LoadLibrary(file); HAS_GUROBI = True]
    [except: pass] *)
Definition try_load (g : globals) (file : string) : globals :=
  match LoadLibrary file with
  | Some lib =>
      {| HAS_GUROBI := true; extlib := Some lib; tried := tried g ++ [file] |}
  | None =>
      {| HAS_GUROBI := HAS_GUROBI g; extlib := extlib g;
         tried := tried g ++ [file] |}
  end.

Inductive outcome : Type :=
  | Imported (g : globals)
  | RuntimeError.

(** The body of the module; [here] is
    [os.path.dirname(os.path.abspath(__file__)) + os.path.sep]. *)
Definition import_module (here : string) : outcome :=
  let g := {| HAS_GUROBI := false; extlib := None; tried := [] |} in
  let paths := [here; ""] in
  let g :=
    foldl (λ g path,
             let g := try_load g (path +:+ libraryname) in
             try_load g (path +:+ dllname))
          g paths in
  if HAS_GUROBI g then Imported g else RuntimeError.

(** The files the loop tries, in order. *)
Definition candidates (here : string) : list string :=
  [here +:+ libraryname; here +:+ dllname; "" +:+ libraryname; "" +:+ dllname].

End import.

End Gurobi.

(** * Properties *)

(** ** The error monad *)

Lemma assert_ok b u : assert_ b = Ok u → b = true.
Proof. by destruct b. Qed.

Lemma assert_true b : b = true → assert_ b = Ok ().
Proof. by intros ->. Qed.

Lemma assert_false b : b = false → assert_ b = Raise AssertionError.
Proof. by intros ->. Qed.

Lemma bind_ok {A B} (m : res A) (f : A → res B) b :
  (m ≫= f) = Ok b → ∃ a, m = Ok a ∧ f a = Ok b.
Proof. destruct m as [a|e]; [by exists a | done]. Qed.

(** ** Composite operators never execute *)

(** C9: a direct [execute] call on the routing operators OpObjectExtraction,
    OpRegionFeatures and OpCachedRegionFeatures fails with an assertion error
    for every slot, subindex, region and destination, and leaves the trace of
    requests untouched. *)
Theorem composite_execute_unreachable {D} (subindex : list Z) (r : roi)
    (destination : D) (tr : trace) :
  (∀ slot, OpObjectExtraction.execute slot subindex r destination tr
           = (Raise AssertionError, tr)) ∧
  (∀ slot, OpRegionFeatures.execute slot subindex r destination tr
           = (Raise AssertionError, tr)) ∧
  (∀ slot, OpCachedRegionFeatures.execute slot subindex r destination tr
           = (Raise AssertionError, tr)).
Proof. repeat split; intros slot; reflexivity. Qed.

(** ** Dirty propagation of the center image *)

(** C10: a dirty notice on RegionCenters marks the whole extent of Output
    dirty, whatever region was notified; a dirty notice on BinaryImage
    propagates nothing. *)
Theorem center_image_propagateDirty {F} (self : OpObjectCenterImage.operator F)
    (subindex : list Z) (r : roi) (tr : trace) :
  OpObjectCenterImage.propagateDirty self OpObjectCenterImage.RegionCenters
      subindex r tr
  = (Ok (), tr ++ [SetDirty "Output"
                     (SubRegion
                        (const 0 <$> shape (OpObjectCenterImage.binaryImage_meta self))
                        (shape (OpObjectCenterImage.binaryImage_meta self)))]) ∧
  OpObjectCenterImage.propagateDirty self OpObjectCenterImage.BinaryImage
      subindex r tr
  = (Ok (), tr).
Proof. split; reflexivity. Qed.

(** ** Metadata setup *)

Lemma setupOutputs3d_inv raw label out :
  OpRegionFeatures3d.setupOutputs raw label = Ok out →
  shape label = shape raw ∧ axistags label = axistags raw.
Proof.
  unfold OpRegionFeatures3d.setupOutputs. intros H.
  apply bind_ok in H as ([] & H1 & H).
  apply bind_ok in H as ([] & H2 & _).
  apply assert_ok, bool_decide_eq_true in H1, H2. done.
Qed.

Lemma setupOutputsCached_inv raw label inner bs :
  OpCachedRegionFeatures.setupOutputs raw label inner = Ok bs →
  shape label = shape raw ∧ axistags label = axistags raw.
Proof.
  unfold OpCachedRegionFeatures.setupOutputs. intros H.
  apply bind_ok in H as ([] & H1 & H).
  apply bind_ok in H as ([] & H2 & _).
  apply assert_ok, bool_decide_eq_true in H1, H2. done.
Qed.

(** C3: when the raw and label inputs differ in shape or in axis tags, both
    [OpRegionFeatures3d.setupOutputs] and [OpCachedRegionFeatures.setupOutputs]
    fail with an assertion error; whenever either of them succeeds, the two
    inputs have the same shape and the same axis tags. *)
Theorem setupOutputs_requires_matching_inputs (raw label : meta) (inner : list Z) :
  (shape label ≠ shape raw ∨ axistags label ≠ axistags raw →
   OpRegionFeatures3d.setupOutputs raw label = Raise AssertionError ∧
   OpCachedRegionFeatures.setupOutputs raw label inner = Raise AssertionError) ∧
  (∀ out, OpRegionFeatures3d.setupOutputs raw label = Ok out →
          shape label = shape raw ∧ axistags label = axistags raw) ∧
  (∀ bs, OpCachedRegionFeatures.setupOutputs raw label inner = Ok bs →
         shape label = shape raw ∧ axistags label = axistags raw).
Proof.
  split; [|split; eauto using setupOutputs3d_inv, setupOutputsCached_inv].
  unfold OpRegionFeatures3d.setupOutputs, OpCachedRegionFeatures.setupOutputs.
  intros [Hs | Ht].
  - rewrite (assert_false (bool_decide (shape label = shape raw)))
      by by apply bool_decide_eq_false.
    done.
  - destruct (assert_ (bool_decide (shape label = shape raw))) as [[]|e] eqn:E.
    + rewrite (assert_false (bool_decide (axistags label = axistags raw)))
        by by apply bool_decide_eq_false.
      done.
    + destruct (bool_decide (shape label = shape raw)); simplify_eq/=. done.
Qed.

(** A mismatch in shape, a mismatch in axis tags, and a matching pair. *)
Lemma setupOutputs_requires_matching_inputs_witness :
  let raw := Meta [1; 4; 4; 4; 1] ["t"; "x"; "y"; "z"; "c"] float32 in
  let label := Meta [1; 4; 4; 5; 1] ["t"; "x"; "y"; "z"; "c"] uint32 in
  let label' := Meta [1; 4; 4; 4; 1] ["t"; "y"; "x"; "z"; "c"] uint32 in
  let label'' := Meta [1; 4; 4; 4; 1] ["t"; "x"; "y"; "z"; "c"] uint32 in
  (OpRegionFeatures3d.setupOutputs raw label = Raise AssertionError ∧
   OpCachedRegionFeatures.setupOutputs raw label [1; 1] = Raise AssertionError) ∧
  (OpRegionFeatures3d.setupOutputs raw label' = Raise AssertionError ∧
   OpCachedRegionFeatures.setupOutputs raw label' [1; 1] = Raise AssertionError) ∧
  (shape label'' = shape raw ∧ axistags label'' = axistags raw).
Proof.
  intros raw label label' label''. split; [|split].
  - apply (proj1 (setupOutputs_requires_matching_inputs raw label [1; 1])).
    left. vm_compute. discriminate.
  - apply (proj1 (setupOutputs_requires_matching_inputs raw label' [1; 1])).
    right. vm_compute. discriminate.
  - apply (proj1 (proj2 (setupOutputs_requires_matching_inputs raw label'' [1; 1]))
             (Meta [1; 1] ["t"; "c"] object)).
    vm_compute. reflexivity.
Defined.

(** ** Ordered dictionaries *)

Section ordered_dict.
Implicit Types (d : OrderedDict.t) (k : string) (v : Z).

Lemma od_setitem_fresh k v d :
  k ∉ OrderedDict.keys d → OrderedDict.setitem k v d = d ++ [(k, v)].
Proof.
  unfold OrderedDict.keys. induction d as [|[k' v'] d IH]; csimpl; [done|].
  intros Hk. apply not_elem_of_cons in Hk as [Hne Hk].
  rewrite decide_False by done. by rewrite IH.
Qed.

Lemma od_setitem_keys k v d :
  OrderedDict.keys (OrderedDict.setitem k v d)
  = if decide (k ∈ OrderedDict.keys d) then OrderedDict.keys d
    else OrderedDict.keys d ++ [k].
Proof.
  unfold OrderedDict.keys. induction d as [|[k' v'] d IH]; csimpl.
  - done.
  - destruct (decide (k = k')) as [->|Hne]; csimpl.
    + by rewrite decide_True by left.
    + rewrite IH. destruct (decide (k ∈ d.*1)).
      * by rewrite decide_True by by right.
      * rewrite decide_False; [done|].
        intros [?|?]%elem_of_cons; done.
Qed.

Lemma od_foldl_keys_NoDup (l : list (string * Z)) d :
  NoDup (OrderedDict.keys d) →
  NoDup (OrderedDict.keys (foldl (λ d kv, OrderedDict.setitem kv.1 kv.2 d) d l)).
Proof.
  revert d. induction l as [|[k v] l IH]; intros d Hd; csimpl; [done|].
  apply IH. rewrite od_setitem_keys. case_decide; [done|].
  apply NoDup_app. split_and!; [done| |apply NoDup_singleton].
  intros x Hx ->%list_elem_of_singleton. done.
Qed.

(** The keys of a dictionary built from pairs are pairwise distinct. *)
Lemma od_of_pairs_NoDup l : NoDup (OrderedDict.keys (OrderedDict.of_pairs l)).
Proof. apply od_foldl_keys_NoDup. constructor. Qed.

Lemma od_foldl_fresh (l : list (string * Z)) d :
  NoDup (OrderedDict.keys d ++ l.*1) →
  foldl (λ d kv, OrderedDict.setitem kv.1 kv.2 d) d l = d ++ l.
Proof.
  revert d. induction l as [|[k v] l IH]; intros d Hd; csimpl.
  - by rewrite app_nil_r.
  - csimpl in Hd. rewrite od_setitem_fresh.
    + rewrite IH; [by rewrite <-app_assoc|].
      unfold OrderedDict.keys in *. rewrite fmap_app, <-app_assoc. done.
    + apply NoDup_app in Hd as (_ & Hd & _). intros Hk.
      apply (Hd k Hk). left.
Qed.

(** Pairs with distinct keys are stored as they come. *)
Lemma od_of_pairs_distinct l : NoDup l.*1 → OrderedDict.of_pairs l = l.
Proof. intros Hl. unfold OrderedDict.of_pairs. by rewrite od_foldl_fresh. Qed.

Lemma od_without_absent k d : k ∉ OrderedDict.keys d → OrderedDict.without k d = d.
Proof.
  unfold OrderedDict.keys, OrderedDict.without.
  induction d as [|[k' v'] d IH]; csimpl; [done|].
  intros [Hne Hk]%not_elem_of_cons.
  rewrite bool_decide_eq_false_2 by done. csimpl. by rewrite IH.
Qed.

Lemma od_delitem_present k d :
  NoDup (OrderedDict.keys d) → k ∈ OrderedDict.keys d →
  OrderedDict.delitem k d = Ok (OrderedDict.without k d).
Proof.
  unfold OrderedDict.keys.
  induction d as [|[k' v'] d IH]; csimpl; intros Hnd Hk.
  - by apply elem_of_nil in Hk.
  - apply NoDup_cons in Hnd as [Hk' Hnd].
    destruct (decide (k = k')) as [->|Hne].
    + rewrite bool_decide_eq_true_2 by done. csimpl.
      by rewrite (od_without_absent k' d).
    + rewrite bool_decide_eq_false_2 by done. csimpl.
      apply elem_of_cons in Hk as [?|Hk]; [done|].
      unfold OrderedDict.without in IH. by rewrite IH.
Qed.

Lemma od_delitem_ok k d d' :
  OrderedDict.delitem k d = Ok d' → k ∈ OrderedDict.keys d.
Proof.
  unfold OrderedDict.keys. revert d'.
  induction d as [|[k' v'] d IH]; csimpl; intros d' H; [done|].
  destruct (decide (k = k')) as [->|Hne]; [left|].
  apply bind_ok in H as (d'' & H & _). right. eauto.
Qed.

Lemma od_without_keys k k' d :
  k' ∈ OrderedDict.keys (OrderedDict.without k d) ↔ k' ∈ OrderedDict.keys d ∧ k' ≠ k.
Proof.
  unfold OrderedDict.keys, OrderedDict.without.
  induction d as [|[k0 v0] d IH]; csimpl.
  - rewrite elem_of_nil. tauto.
  - destruct (decide (k0 = k)) as [->|Hne].
    + rewrite bool_decide_eq_true_2 by done. csimpl.
      rewrite IH, elem_of_cons. intuition congruence.
    + rewrite bool_decide_eq_false_2 by done. csimpl.
      rewrite !elem_of_cons, IH. intuition congruence.
Qed.

Lemma od_without_NoDup k d :
  NoDup (OrderedDict.keys d) → NoDup (OrderedDict.keys (OrderedDict.without k d)).
Proof.
  unfold OrderedDict.keys.
  induction d as [|[k0 v0] d IH]; csimpl; [done|].
  intros [Hk0 Hnd]%NoDup_cons.
  destruct (bool_decide (k0 = k)); csimpl; [by apply IH|].
  apply NoDup_cons. split; [|by apply IH].
  intros Hin. apply (od_without_keys k k0 d) in Hin as [? _]. done.
Qed.

Lemma is_spatial_xyz k :
  Spec.is_spatial k
  = bool_decide (k = "x") || bool_decide (k = "y") || bool_decide (k = "z").
Proof.
  unfold Spec.is_spatial.
  rewrite <-!bool_decide_or. apply bool_decide_ext.
  rewrite !elem_of_cons, elem_of_nil. tauto.
Qed.

Lemma filter_filter {A} (f g : A → bool) (l : list A) :
  List.filter f (List.filter g l) = List.filter (λ x, g x && f x) l.
Proof.
  induction l as [|a l IH]; [done|].
  cbn [List.filter]. destruct (g a); cbn [andb List.filter]; [|exact IH].
  destruct (f a); by rewrite IH.
Qed.

(** Deleting x, y and z one after the other keeps exactly the pairs whose
    key is not spatial. *)
Lemma od_without_xyz d :
  OrderedDict.without "z" (OrderedDict.without "y" (OrderedDict.without "x" d))
  = List.filter Spec.not_spatial d.
Proof.
  unfold OrderedDict.without. rewrite !filter_filter.
  apply List.filter_ext. intros [k v]. unfold Spec.not_spatial.
  rewrite is_spatial_xyz. cbn [fst].
  by destruct (bool_decide (k = "x")), (bool_decide (k = "y")),
       (bool_decide (k = "z")).
Qed.

Lemma od_delete_xyz d d1 d2 d3 :
  NoDup (OrderedDict.keys d) →
  OrderedDict.delitem "x" d = Ok d1 →
  OrderedDict.delitem "y" d1 = Ok d2 →
  OrderedDict.delitem "z" d2 = Ok d3 →
  d3 = List.filter Spec.not_spatial d ∧
  "x" ∈ OrderedDict.keys d ∧ "y" ∈ OrderedDict.keys d ∧ "z" ∈ OrderedDict.keys d.
Proof.
  intros Hnd H1 H2 H3.
  pose proof (od_delitem_ok _ _ _ H1) as Hx.
  rewrite (od_delitem_present _ _ Hnd Hx) in H1. injection H1 as <-.
  pose proof (od_without_NoDup "x" _ Hnd) as Hnd1.
  pose proof (od_delitem_ok _ _ _ H2) as Hy.
  rewrite (od_delitem_present _ _ Hnd1 Hy) in H2. injection H2 as <-.
  pose proof (od_without_NoDup "y" _ Hnd1) as Hnd2.
  pose proof (od_delitem_ok _ _ _ H3) as Hz.
  rewrite (od_delitem_present _ _ Hnd2 Hz) in H3. injection H3 as <-.
  split; [apply od_without_xyz|].
  apply od_without_keys in Hy as [Hy _].
  apply od_without_keys in Hz as [Hz _]. apply od_without_keys in Hz as [Hz _].
  auto.
Qed.

Lemma od_delete_xyz_present d :
  NoDup (OrderedDict.keys d) →
  "x" ∈ OrderedDict.keys d → "y" ∈ OrderedDict.keys d → "z" ∈ OrderedDict.keys d →
  (d1 ← OrderedDict.delitem "x" d;
   d2 ← OrderedDict.delitem "y" d1;
   OrderedDict.delitem "z" d2)
  = Ok (List.filter Spec.not_spatial d).
Proof.
  intros Hnd Hx Hy Hz.
  pose proof (od_without_NoDup "x" _ Hnd) as Hnd1.
  pose proof (od_without_NoDup "y" _ Hnd1) as Hnd2.
  assert ("y" ∈ OrderedDict.keys (OrderedDict.without "x" d)) as Hy1.
  { apply od_without_keys. split; [exact Hy|discriminate]. }
  assert ("z" ∈ OrderedDict.keys (OrderedDict.without "y" (OrderedDict.without "x" d))) as Hz2.
  { apply od_without_keys. split; [|discriminate].
    apply od_without_keys. split; [exact Hz|discriminate]. }
  rewrite (od_delitem_present _ _ Hnd Hx). cbn [mbind res_bind].
  rewrite (od_delitem_present _ _ Hnd1 Hy1). cbn [mbind res_bind].
  rewrite (od_delitem_present _ _ Hnd2 Hz2).
  by rewrite od_without_xyz.
Qed.

End ordered_dict.

(** ** What a successful [setupOutputs] of OpRegionFeatures3d establishes *)

Lemma od_getitem_elem (k : string) (v : Z) (d : OrderedDict.t) :
  NoDup (OrderedDict.keys d) → (k, v) ∈ d → OrderedDict.getitem k d = Ok v.
Proof.
  unfold OrderedDict.keys.
  induction d as [|[k' v'] d IH]; csimpl; intros Hnd Hin.
  - by apply elem_of_nil in Hin.
  - apply NoDup_cons in Hnd as [Hk' Hnd].
    apply elem_of_cons in Hin as [Heq|Hin].
    + injection Heq as <- <-. by rewrite decide_True.
    + rewrite decide_False; [by apply IH|].
      intros <-. apply Hk'. apply list_elem_of_fmap. by exists (k, v).
Qed.

Lemma tagged_shape_distinct (m : meta) :
  NoDup (axistags m) → length (shape m) = length (axistags m) →
  getTaggedShape m = zip (axistags m) (shape m) ∧
  OrderedDict.keys (getTaggedShape m) = axistags m.
Proof.
  intros Hnd Hlen. unfold getTaggedShape.
  assert ((zip (axistags m) (shape m)).*1 = axistags m) as Hfst
    by (apply fst_zip; lia).
  rewrite od_of_pairs_distinct by by rewrite Hfst.
  done.
Qed.

Lemma setupOutputs3d_ok raw label out :
  OpRegionFeatures3d.setupOutputs raw label = Ok out →
  let d := getTaggedShape label in
  shape label = shape raw ∧ axistags label = axistags raw ∧
  ("x" ∈ OrderedDict.keys d ∧ "y" ∈ OrderedDict.keys d ∧ "z" ∈ OrderedDict.keys d) ∧
  shape out = OrderedDict.values (List.filter Spec.not_spatial d) ∧
  axistags out = OrderedDict.keys (List.filter Spec.not_spatial d) ∧
  Forall (λ v, v = 1) (shape out).
Proof.
  intros H d.
  destruct (setupOutputs3d_inv _ _ _ H) as [Hs Ha].
  unfold OpRegionFeatures3d.setupOutputs in H.
  apply bind_ok in H as ([] & _ & H). apply bind_ok in H as ([] & _ & H).
  fold d in H.
  apply bind_ok in H as ([] & Ht & H). apply bind_ok in H as ([] & Hc & H).
  apply bind_ok in H as ([] & Hset & H).
  apply bind_ok in H as (d1 & H1 & H). apply bind_ok in H as (d2 & H2 & H).
  apply bind_ok in H as (d3 & H3 & H). injection H as <-.
  pose proof (od_of_pairs_NoDup (zip (axistags label) (shape label))) as Hnd.
  fold (getTaggedShape label) in Hnd. fold d in Hnd.
  destruct (od_delete_xyz _ _ _ _ Hnd H1 H2 H3) as (-> & Hx & Hy & Hz).
  split_and!; try done.
  cbn [shape]. unfold OrderedDict.values.
  apply Forall_fmap, Forall_forall. intros [k v] Hin. cbn [snd].
  apply list_elem_of_In, List.filter_In in Hin as [Hin Hk].
  apply list_elem_of_In in Hin. unfold Spec.not_spatial in Hk. cbn [fst] in Hk.
  apply negb_true_iff in Hk. rewrite is_spatial_xyz in Hk.
  apply orb_false_iff in Hk as [Hk Hkz]. apply orb_false_iff in Hk as [Hkx Hky].
  apply bool_decide_eq_false in Hkx, Hky, Hkz.
  assert (k ∈ OrderedDict.keys d) as Hkd.
  { apply list_elem_of_fmap. by exists (k, v). }
  apply assert_ok, bool_decide_eq_true in Hset.
  assert (k = "t" ∨ k = "c") as Htc.
  { destruct (decide (k = "t")) as [|Hnt]; [by left|].
    destruct (decide (k = "c")) as [|Hnc]; [by right|]. exfalso.
    assert (k ∈ (list_to_set ["x"; "y"; "z"] : gset string)) as Hin'.
    { rewrite <-Hset. apply elem_of_difference. split.
      - by apply elem_of_list_to_set.
      - rewrite elem_of_list_to_set, !elem_of_cons, elem_of_nil. tauto. }
    rewrite elem_of_list_to_set, !elem_of_cons, elem_of_nil in Hin'. tauto. }
  pose proof (od_getitem_elem _ _ _ Hnd Hin) as Hget.
  destruct Htc as [-> | ->].
  - unfold OrderedDict.contains in Ht.
    rewrite bool_decide_eq_true_2 in Ht by exact Hkd.
    rewrite Hget in Ht. by apply assert_ok, bool_decide_eq_true in Ht.
  - unfold OrderedDict.contains in Hc.
    rewrite bool_decide_eq_true_2 in Hc by exact Hkd.
    rewrite Hget in Hc. by apply assert_ok, bool_decide_eq_true in Hc.
Qed.

(** ** Dirty propagation of OpRegionFeatures3d *)

Lemma zip_keys_distinct (axes : list string) (v : list Z) :
  NoDup axes → length v = length axes →
  OrderedDict.of_pairs (zip axes v) = zip axes v ∧
  OrderedDict.keys (zip axes v) = axes.
Proof.
  intros Hnd Hlen.
  assert ((zip axes v).*1 = axes) as Hfst by (apply fst_zip; lia).
  rewrite od_of_pairs_distinct by by rewrite Hfst. done.
Qed.

Lemma drop_spatial_length (axes : list string) (v w : list Z) :
  length v = length axes → length w = length axes →
  length (Spec.drop_spatial axes v) = length (Spec.drop_spatial axes w).
Proof.
  unfold Spec.drop_spatial. rewrite !length_fmap.
  revert v w. induction axes as [|k axes IH]; intros [|x v] [|y w]; try done.
  csimpl. intros Hv Hw.
  change (Spec.not_spatial (k, y)) with (Spec.not_spatial (k, x)).
  destruct (Spec.not_spatial (k, x)); csimpl; auto.
Qed.

(** C4: for an operator whose setup succeeded (the axis keys being pairwise
    distinct, as the keys of vigra's AxisTags are, and one extent per axis),
    a dirty notice with box (start, stop) over the input's axes marks Output
    dirty over exactly the box whose start and stop are the given ones with
    the x, y and z components deleted and the others kept in order; that box
    has the rank of the output. *)
Theorem propagateDirty_drops_spatial `{Vigra}
    (self : OpRegionFeatures3d.operator) (slot : OpRegionFeatures3d.slot_id)
    (subindex : list Z) (r : box) (tr : trace) :
  let m := OpRegionFeatures3d.in_meta (OpRegionFeatures3d.raw self) in
  let l := OpRegionFeatures3d.in_meta (OpRegionFeatures3d.label self) in
  NoDup (axistags m) →
  length (shape m) = length (axistags m) →
  OpRegionFeatures3d.setupOutputs m l = Ok (OpRegionFeatures3d.output_meta self) →
  length (start r) = length (axistags m) →
  length (stop r) = length (axistags m) →
  OpRegionFeatures3d.propagateDirty self slot subindex r tr
  = (Ok (), tr ++ [SetDirty "Output"
                     (SubRegion (Spec.drop_spatial (axistags m) (start r))
                                (Spec.drop_spatial (axistags m) (stop r)))]) ∧
  length (Spec.drop_spatial (axistags m) (start r))
  = length (shape (OpRegionFeatures3d.output_meta self)) ∧
  length (Spec.drop_spatial (axistags m) (stop r))
  = length (shape (OpRegionFeatures3d.output_meta self)).
Proof.
  intros m l Hnd Hlen Hsetup Hstart Hstop.
  destruct (setupOutputs3d_ok _ _ _ Hsetup) as (Hs & Ha & (Hx & Hy & Hz) & Hout & _).
  fold l in Hs, Ha, Hx, Hy, Hz, Hout. fold m in Hs, Ha.
  assert (NoDup (axistags l)) as Hndl by by rewrite Ha.
  assert (length (shape l) = length (axistags l)) as Hlenl
    by by rewrite Hs, Ha.
  destruct (tagged_shape_distinct m Hnd Hlen) as [_ Hkeys].
  destruct (tagged_shape_distinct l Hndl Hlenl) as [Htl Hkeysl].
  rewrite Hkeysl, Ha in Hx, Hy, Hz.
  split_and!.
  - unfold OpRegionFeatures3d.propagateDirty. fold m. rewrite Hkeys.
    destruct (zip_keys_distinct (axistags m) (start r) Hnd Hstart) as [-> Hk1].
    destruct (zip_keys_distinct (axistags m) (stop r) Hnd Hstop) as [-> Hk2].
    pose proof (od_delete_xyz_present (zip (axistags m) (start r))) as E1.
    pose proof (od_delete_xyz_present (zip (axistags m) (stop r))) as E2.
    rewrite Hk1 in E1. rewrite Hk2 in E2.
    specialize (E1 Hnd Hx Hy Hz). specialize (E2 Hnd Hx Hy Hz).
    apply bind_ok in E1 as (a1 & A1 & E1). apply bind_ok in E1 as (a2 & A2 & E1).
    apply bind_ok in E2 as (b1 & B1 & E2). apply bind_ok in E2 as (b2 & B2 & E2).
    unfold mbind, M_bind, lift, emit. rewrite A1, A2, E1, B1, B2, E2.
    reflexivity.
  - rewrite Hout, Htl, Ha, Hs. unfold OrderedDict.values.
    rewrite length_fmap.
    rewrite (drop_spatial_length _ (start r) (shape m)) by done.
    unfold Spec.drop_spatial. by rewrite length_fmap.
  - rewrite Hout, Htl, Ha, Hs. unfold OrderedDict.values.
    rewrite length_fmap.
    rewrite (drop_spatial_length _ (stop r) (shape m)) by done.
    unfold Spec.drop_spatial. by rewrite length_fmap.
Qed.

(** ** Boxes inside a shape of ones *)

Lemma wrap_int64_small z : - 2 ^ 63 ≤ z < 2 ^ 63 → wrap_int64 z = z.
Proof. unfold wrap_int64. intros Hz. rewrite Z.mod_small by lia. lia. Qed.

Lemma valid_box_cons n shp a start b stop :
  valid_box (n :: shp) (a :: start) (b :: stop) = true ↔
  (0 ≤ a ∧ a ≤ b ∧ b ≤ n) ∧ valid_box shp start stop = true.
Proof.
  unfold valid_box. csimpl.
  rewrite !andb_true_iff, !bool_decide_eq_true. cbn [fst snd]. split.
  - intros [[Hs Ht] [Hb Hall]]. split_and!; try lia; done.
  - intros [Hb [[Hs Ht] Hall]]. split_and!; try lia; done.
Qed.

Lemma valid_box_inv shp start stop :
  valid_box shp start stop = true →
  length start = length shp ∧ length stop = length shp.
Proof.
  unfold valid_box. rewrite !andb_true_iff, !bool_decide_eq_true. tauto.
Qed.

Lemma unit_box shp start stop p :
  Forall (λ v, v = 1) shp → valid_box shp start stop = true →
  p = 0 ∨ p = 1 →
  foldl (λ p x, wrap_int64 (p * x)) p (zip_with Z.sub stop start) = 1 →
  p = 1 ∧ start = replicate (length shp) 0 ∧ stop = replicate (length shp) 1.
Proof.
  intros Hshp. revert start stop p.
  induction Hshp as [|n shp -> _ IH]; intros start stop p Hbox Hp Hprod.
  - apply valid_box_inv in Hbox as [Hs Ht].
    destruct start; [|done]. destruct stop; [|done]. csimpl in *. done.
  - pose proof (valid_box_inv _ _ _ Hbox) as [Hs Ht].
    destruct start as [|a start]; [done|]. destruct stop as [|b stop]; [done|].
    apply valid_box_cons in Hbox as [Hab Hbox]. csimpl in Hprod.
    assert (wrap_int64 (p * (b - a)) = p * (b - a)) as Hw
      by (apply wrap_int64_small; nia).
    rewrite Hw in Hprod.
    destruct (IH start stop (p * (b - a)) Hbox) as (Hp' & -> & ->);
      [nia|done|].
    csimpl. assert (p = 1 ∧ a = 0 ∧ b = 1) as (-> & -> & ->) by nia. done.
Qed.

Lemma norm_key_zeros n :
  norm_key (replicate n 1) (replicate n 0) = Ok (replicate n 0).
Proof. induction n as [|n IH]; csimpl; [done|]. by rewrite IH. Qed.

Lemma in_bounds_ones n idx :
  in_bounds (replicate n 1) idx → idx = replicate n 0.
Proof.
  unfold in_bounds. revert idx. induction n as [|n IH]; intros idx Hidx; csimpl in *.
  - by apply Forall2_nil_inv_l in Hidx.
  - apply Forall2_cons_inv_l in Hidx as (i & idx' & Hi & Hidx & ->).
    rewrite (IH idx' Hidx). f_equal. lia.
Qed.

Lemma in_bounds_zeros n : in_bounds (replicate n 1) (replicate n 0).
Proof.
  unfold in_bounds. induction n; csimpl; constructor; [lia|done].
Qed.

Lemma sub_ones_zeros n :
  zip_with Z.sub (replicate n 1) (replicate n 0) = replicate n 1.
Proof. induction n as [|n IH]; csimpl; [done|]. by rewrite IH. Qed.

(** *** The product of the extents of a box *)

Lemma prod_int64 (l : list Z) :
  Forall (λ x, - 2 ^ 63 ≤ x < 2 ^ 63) l →
  prod l = foldl (λ p x, wrap_int64 (p * x)) 1 l.
Proof.
  intros Hl. unfold prod.
  replace (forallb (λ x, bool_decide (- 2 ^ 63 ≤ x < 2 ^ 63)) l) with true;
    [done|].
  symmetry. apply forallb_forall. intros x Hx%list_elem_of_In.
  rewrite Forall_forall in Hl. by apply bool_decide_eq_true, Hl.
Qed.

Lemma valid_box_ones_extents shp start stop :
  Forall (λ v, v = 1) shp → valid_box shp start stop = true →
  Forall (λ e, 0 ≤ e ≤ 1) (zip_with Z.sub stop start).
Proof.
  intros Hshp. revert start stop.
  induction Hshp as [|n shp -> _ IH]; intros start stop Hbox.
  - apply valid_box_inv in Hbox as [Hs Ht].
    destruct start; [|done]. destruct stop; [|done]. constructor.
  - pose proof (valid_box_inv _ _ _ Hbox) as [Hs Ht].
    destruct start as [|a start]; [done|]. destruct stop as [|b stop]; [done|].
    apply valid_box_cons in Hbox as [Hab Hbox]. cbn [zip_with].
    constructor; [lia|by apply IH].
Qed.

Lemma unit_box_exact shp start stop :
  Forall (λ v, v = 1) shp → valid_box shp start stop = true →
  foldr Z.mul 1 (zip_with Z.sub stop start) = 1 →
  start = replicate (length shp) 0 ∧ stop = replicate (length shp) 1.
Proof.
  intros Hshp. revert start stop.
  induction Hshp as [|n shp -> _ IH]; intros start stop Hbox Hprod.
  - apply valid_box_inv in Hbox as [Hs Ht].
    destruct start; [|done]. by destruct stop.
  - pose proof (valid_box_inv _ _ _ Hbox) as [Hs Ht].
    destruct start as [|a start]; [done|]. destruct stop as [|b stop]; [done|].
    apply valid_box_cons in Hbox as [Hab Hbox].
    cbn [zip_with foldr] in Hprod.
    assert (b - a = 1 ∧ foldr Z.mul 1 (zip_with Z.sub stop start) = 1)
      as [Hba Hrest].
    { assert (b - a = 0 ∨ b - a = 1) as [H0|H1] by lia.
      - rewrite H0 in Hprod. lia.
      - rewrite H1 in Hprod. lia. }
    destruct (IH start stop Hbox Hrest) as [-> ->].
    cbn [length replicate]. split; f_equal; lia.
Qed.

Lemma prod_ones n : prod (replicate n 1) = 1.
Proof.
  rewrite prod_int64 by (apply Forall_replicate; lia).
  induction n as [|n IH]; [done|]. cbn [replicate foldl].
  by rewrite Z.mul_1_l, wrap_int64_small by lia.
Qed.

(** ** Execution of OpRegionFeatures3d *)

Section region_features_3d.
Context `{Vigra}.
Import OpRegionFeatures3d Spec.

Lemma execute_unfold (self : operator) slot subindex r result tr :
  execute self slot subindex r result tr
  = if bool_decide (length (start r) = length (stop r)) &&
       bool_decide (length (stop r) = length (shape (output_meta self)))
    then
      if bool_decide (slot = Output) then
        if bool_decide (Numpy.prod (zip_with Z.sub (stop r) (start r)) = 1)
        then
          match whole_volume_features self with
          | Ok acc =>
              match Numpy.setitem result (start r) acc with
              | Ok result' => (Ok result', tr ++ whole_volume_requests self)
              | Raise e => (Raise e, tr ++ whole_volume_requests self)
              end
          | Raise e => (Raise e, tr ++ whole_volume_requests self)
          end
        else (Raise AssertionError, tr ++ whole_volume_requests self)
      else (Raise AssertionError, tr)
    else (Raise AssertionError, tr).
Proof.
  unfold whole_volume_features, whole_volume_requests.
  cbv [execute mbind M_bind lift emit slot_getitem_all mret M_ret _extract].
  destruct (bool_decide (length (start r) = length (stop r)) &&
            bool_decide (length (stop r) = length (shape (output_meta self))));
    [|done].
  cbv [assert_]. destruct (bool_decide (slot = Output)); [|done].
  rewrite <-app_assoc. cbn [app].
  destruct (bool_decide (Numpy.prod (zip_with Z.sub (stop r) (start r)) = 1));
    [|done].
  destruct (extractRegionFeatures _ _ _ _) as [acc|e]; [|done].
  by destruct (setitem result (start r) acc).
Qed.

(** A request on the output of a configured operator that passes the
    product test addresses the one cell the output has. *)
Lemma one_cell_request (self : operator) (r : box) :
  setupOutputs (in_meta (raw self)) (in_meta (label self))
    = Ok (output_meta self) →
  valid_box (shape (output_meta self)) (start r) (stop r) = true →
  Numpy.prod (zip_with Z.sub (stop r) (start r)) = 1 →
  let n := length (shape (output_meta self)) in
  start r = replicate n 0 ∧ stop r = replicate n 1.
Proof.
  intros Hsetup Hbox Hprod n.
  destruct (setupOutputs3d_ok _ _ _ Hsetup) as (_ & _ & _ & _ & _ & Hones).
  rewrite prod_int64 in Hprod.
  - destruct (unit_box _ _ _ 1 Hones Hbox) as (_ & ? & ?); auto.
  - eapply Forall_impl; [by apply (valid_box_ones_extents _ _ _ Hones Hbox)|].
    intros e He. cbn beta in He. lia.
Qed.

(** Two requests for the same box on the same configured operator have the
    same outcome, whatever the destinations held and whatever was requested
    before. *)
Lemma execute3d_deterministic (self : operator) (slot : slot_id)
    (subindex : list Z) (r : box) (dest1 dest2 : ndarray Features)
    (tr1 tr2 : trace) :
  setupOutputs (in_meta (raw self)) (in_meta (label self))
    = Ok (output_meta self) →
  valid_box (shape (output_meta self)) (start r) (stop r) = true →
  nd_shape dest1 = zip_with Z.sub (stop r) (start r) →
  nd_shape dest2 = zip_with Z.sub (stop r) (start r) →
  same_outcome (execute self slot subindex r dest1 tr1).1
               (execute self slot subindex r dest2 tr2).1.
Proof.
  intros Hsetup Hbox Hs1 Hs2. rewrite !execute_unfold.
  destruct (_ && _); [|done].
  destruct (bool_decide (slot = Output)); [|done].
  destruct (bool_decide (prod _ = 1)) eqn:Hprod; [|done].
  apply bool_decide_eq_true in Hprod.
  destruct (one_cell_request self r Hsetup Hbox Hprod) as [Hstart Hstop].
  destruct (whole_volume_features self) as [acc|e]; [|done].
  unfold setitem. rewrite Hs1, Hs2, Hstart, Hstop, sub_ones_zeros, norm_key_zeros.
  cbn [mbind res_bind fst same_outcome]. split; [done|].
  cbn [nd_shape nd_item]. intros idx ->%in_bounds_ones.
  rewrite length_replicate, take_ge by by rewrite length_replicate.
  by rewrite bool_decide_eq_true_2.
Qed.

End region_features_3d.

(** ** Computations that do not look at the trace *)

Lemma oblivious_lift {A} (r : res A) : oblivious (lift r).
Proof. done. Qed.

Lemma oblivious_ret {A} (a : A) : oblivious (mret a).
Proof. done. Qed.

Lemma oblivious_emit (e : event) : oblivious (emit e).
Proof. done. Qed.

Lemma oblivious_bind {A B} (m : M A) (f : A → M B) :
  oblivious m → (∀ a, oblivious (f a)) → oblivious (m ≫= f).
Proof.
  intros Hm Hf tr1 tr2. unfold mbind, M_bind. specialize (Hm tr1 tr2).
  destruct (m tr1) as [[a1|e1] tr1'], (m tr2) as [[a2|e2] tr2'];
    simplify_eq/=; [apply Hf|done].
Qed.

Lemma oblivious_for {S X} (l : list X) (body : S → X → M S) (s : S) :
  (∀ s x, oblivious (body s x)) → oblivious (for_ l body s).
Proof.
  intros Hbody. revert s. induction l as [|x l IH]; intros s; csimpl.
  - apply oblivious_ret.
  - apply oblivious_bind; [apply Hbody|apply IH].
Qed.

Section center_image_determinism.
Context {F : Type} (to_uint32 : F → Z).
Import OpObjectCenterImage.

Lemma execute_center_oblivious (self : operator F) slot subindex r result :
  oblivious (execute to_uint32 self slot subindex r result).
Proof.
  unfold execute.
  apply oblivious_bind; [apply oblivious_lift|intros _].
  apply oblivious_bind; [apply oblivious_lift|intros t0].
  apply oblivious_bind; [apply oblivious_lift|intros t1].
  apply oblivious_for. intros res t.
  apply oblivious_bind; [|intros centers].
  { apply oblivious_bind; [apply oblivious_emit|intros _; apply oblivious_lift]. }
  apply oblivious_bind; [apply oblivious_lift|intros c0].
  apply oblivious_bind; [apply oblivious_lift|intros c1].
  apply oblivious_bind; [apply oblivious_lift|intros st; apply oblivious_ret].
Qed.

(** Two requests for the same box have the same outcome, whatever the
    destinations of equal shape held and whatever was requested before. *)
Lemma execute_center_deterministic (self : operator F) slot subindex r
    (dest1 dest2 : ndarray Z) (tr1 tr2 : trace) :
  nd_shape dest1 = nd_shape dest2 →
  (execute to_uint32 self slot subindex r dest1 tr1).1
  = (execute to_uint32 self slot subindex r dest2 tr2).1.
Proof.
  intros Hshape.
  rewrite (execute_center_oblivious self slot subindex r dest1 tr1 tr2).
  unfold execute, fill. by rewrite Hshape.
Qed.

End center_image_determinism.

Lemma same_outcome_refl {A} (x : res (ndarray A)) : same_outcome x x.
Proof. destruct x; [split|]; done. Qed.

(** C8: with the contents of the input slots fixed, two invocations of
    [execute] for the same box on OpRegionFeatures3d.Output, and likewise on
    OpObjectCenterImage.Output, have the same outcome: the same exception or
    the same array.  The outcome depends neither on the trace of earlier
    requests nor on what the destination array held before. *)
Theorem execute_deterministic `{Vigra} {F : Type} (to_uint32 : F → Z)
    (features : OpRegionFeatures3d.operator)
    (centers : OpObjectCenterImage.operator F)
    (subindex : list Z) (r r' : box)
    (dest1 dest2 : ndarray Features) (img1 img2 : ndarray Z)
    (tr1 tr2 : trace) :
  OpRegionFeatures3d.setupOutputs
      (OpRegionFeatures3d.in_meta (OpRegionFeatures3d.raw features))
      (OpRegionFeatures3d.in_meta (OpRegionFeatures3d.label features))
    = Ok (OpRegionFeatures3d.output_meta features) →
  valid_box (shape (OpRegionFeatures3d.output_meta features))
    (start r) (stop r) = true →
  nd_shape dest1 = zip_with Z.sub (stop r) (start r) →
  nd_shape dest2 = zip_with Z.sub (stop r) (start r) →
  nd_shape img1 = zip_with Z.sub (stop r') (start r') →
  nd_shape img2 = zip_with Z.sub (stop r') (start r') →
  same_outcome
    (OpRegionFeatures3d.execute features OpRegionFeatures3d.Output
       subindex r dest1 tr1).1
    (OpRegionFeatures3d.execute features OpRegionFeatures3d.Output
       subindex r dest2 tr2).1 ∧
  same_outcome
    (OpObjectCenterImage.execute to_uint32 centers OpObjectCenterImage.Output
       subindex r' img1 tr1).1
    (OpObjectCenterImage.execute to_uint32 centers OpObjectCenterImage.Output
       subindex r' img2 tr2).1.
Proof.
  intros Hsetup Hbox Hd1 Hd2 Hi1 Hi2. split.
  - by apply execute3d_deterministic.
  - rewrite (execute_center_deterministic to_uint32 centers _ subindex r'
               img1 img2 tr1 tr2) by congruence.
    apply same_outcome_refl.
Qed.


(** ** The theorems on OpRegionFeatures3d at a concrete slab *)

Lemma propagateDirty_drops_spatial_witness :
  @OpRegionFeatures3d.propagateDirty Examples.toy_vigra Examples.slab_features
    OpRegionFeatures3d.RawVolume [] (Box [0; 1; 2; 0; 0] [1; 3; 4; 2; 1]) []
  = (Ok (), [] ++ [SetDirty "Output" (SubRegion [0; 0] [1; 1])]) ∧
  length [0; 0] = 2%nat ∧ length [1; 1] = 2%nat.
Proof.
  apply (@propagateDirty_drops_spatial Examples.toy_vigra
           Examples.slab_features OpRegionFeatures3d.RawVolume []
           (Box [0; 1; 2; 0; 0] [1; 3; 4; 2; 1]) []);
    try (vm_compute; reflexivity).
  refine (@bool_decide_unpack _ (NoDup_dec _) _). vm_compute. exact I.
Defined.

Lemma execute_deterministic_witness :
  same_outcome
    (@OpRegionFeatures3d.execute Examples.toy_vigra Examples.slab_features
       OpRegionFeatures3d.Output [] (Box [0; 0] [1; 1])
       (Examples.feature_cell (0, 0)) []).1
    (@OpRegionFeatures3d.execute Examples.toy_vigra Examples.slab_features
       OpRegionFeatures3d.Output [] (Box [0; 0] [1; 1])
       (Examples.feature_cell (7, 7))
       [Requested "RawVolume" (SubRegion [] [])]).1 ∧
  same_outcome
    (OpObjectCenterImage.execute Examples.cast_uint32
       (Examples.center_image 1) OpObjectCenterImage.Output []
       (Box [0; 0; 0; 0; 0] [1; 20; 20; 20; 1])
       (Examples.destination [1; 20; 20; 20; 1]) []).1
    (OpObjectCenterImage.execute Examples.cast_uint32
       (Examples.center_image 1) OpObjectCenterImage.Output []
       (Box [0; 0; 0; 0; 0] [1; 20; 20; 20; 1])
       (NdArray [1; 20; 20; 20; 1] (λ _, 0))
       [Requested "RawVolume" (SubRegion [] [])]).1.
Proof.
  apply (@execute_deterministic Examples.toy_vigra Z Examples.cast_uint32
           Examples.slab_features (Examples.center_image 1) []
           (Box [0; 0] [1; 1]) (Box [0; 0; 0; 0; 0] [1; 20; 20; 20; 1]));
    vm_compute; reflexivity.
Defined.

(** ** The time-list adapter *)

(** C5 at the input T = 2, C = 1 with the empty time list: the box requested
    for t = 1 is [1,1) along time, the fetched array has no element, and
    [execute] raises instead of returning entries for 0 and 1. *)
Theorem adapter_empty_list_two_steps :
  OpAdaptTimeListRoi.execute (Examples.adapter 2 1) OpAdaptTimeListRoi.Output
    [] [] () []
  = (Raise IndexError,
     [Requested "Input" (SubRegion [0; 0] [1; 1]);
      Requested "Input" (SubRegion [1; 0] [1; 1])]).
Proof. vm_compute. reflexivity. Qed.

(** C6 at the input T = 2, C = 2 with the time list [1]: the fetched array is
    empty along time and [execute] raises instead of mapping 1 to the two
    records of that time step. *)
Theorem adapter_second_step_two_channels :
  OpAdaptTimeListRoi.execute (Examples.adapter 2 2) OpAdaptTimeListRoi.Output
    [] [1] () []
  = (Raise IndexError, [Requested "Input" (SubRegion [1; 0] [1; 2])]).
Proof. vm_compute. reflexivity. Qed.

(** ** The center image *)

(** C2 at a request that spans two channels: the second turn of the channel
    loop indexes the array left in [centers] by the first turn and raises;
    no image is returned. *)
Theorem center_image_two_channels :
  OpObjectCenterImage.execute Examples.cast_uint32 (Examples.center_image 2)
    OpObjectCenterImage.Output []
    (Box [0; 0; 0; 0; 0] [1; 20; 20; 20; 2])
    (Examples.destination [1; 20; 20; 20; 2]) []
  = (Raise IndexError, [Requested "RegionCenters" (List [0])]).
Proof. vm_compute. reflexivity. Qed.

(** *** Loops in the error monad *)

Lemma for_res_app {S X} (l1 l2 : list X) (body : S → X → res S) (s : S) :
  for_res (l1 ++ l2) body s = (s' ← for_res l1 body s; for_res l2 body s').
Proof.
  revert s. induction l1 as [|x l1 IH]; intros s; csimpl; [done|].
  destruct (body s x); csimpl; [apply IH|done].
Qed.

Lemma for_res_fmap {S X Y} (g : X → Y) (l : list X) (body : S → Y → res S) s :
  for_res (g <$> l) body s = for_res l (λ s x, body s (g x)) s.
Proof.
  revert s. induction l as [|x l IH]; intros s; csimpl; [done|].
  destruct (body s (g x)); csimpl; [apply IH|done].
Qed.

Lemma for_res_ext {S X} (l : list X) (body1 body2 : S → X → res S) s :
  (∀ s x, body1 s x = body2 s x) → for_res l body1 s = for_res l body2 s.
Proof.
  intros Hext. revert s. induction l as [|x l IH]; intros s; csimpl; [done|].
  rewrite Hext. destruct (body2 s x); csimpl; [apply IH|done].
Qed.

(** A loop whose body always succeeds is a left fold. *)
Lemma for_res_pure {S X} (l : list X) (body : S → X → res S) (f : S → X → S)
    (P : S → Prop) s :
  P s → (∀ s x, P s → x ∈ l → body s x = Ok (f s x) ∧ P (f s x)) →
  for_res l body s = Ok (foldl f s l) ∧ P (foldl f s l).
Proof.
  revert s. induction l as [|x l IH]; intros s Hs Hbody; csimpl; [done|].
  destruct (Hbody s x Hs) as [-> Hs']; [left|]. csimpl.
  apply IH; [done|]. intros s' y Hs'' Hy. apply Hbody; [done|by right].
Qed.

(** *** Indexing Python lists *)

Lemma list_getitem_cons_0 {A} (x : A) (l : list A) :
  list_getitem (x :: l) (Z.of_nat 0) = Ok x.
Proof.
  unfold list_getitem. by csimpl.
Qed.

Lemma list_getitem_cons_S {A} (x : A) (l : list A) (i : nat) :
  list_getitem (x :: l) (Z.of_nat (S i)) = list_getitem l (Z.of_nat i).
Proof.
  unfold list_getitem. cbn [length].
  rewrite (bool_decide_eq_false_2 (Z.of_nat (S i) < 0)) by lia.
  rewrite (bool_decide_eq_false_2 (Z.of_nat i < 0)) by lia.
  rewrite !Nat2Z.id. cbn [lookup list_lookup].
  destruct (decide (Z.of_nat i < Z.of_nat (length l))) as [Hlt|Hge].
  - by rewrite !bool_decide_eq_true_2 by lia.
  - by rewrite !bool_decide_eq_false_2 by lia.
Qed.

Lemma list_getitem_raises {A} (l : list A) (i : Z) e :
  list_getitem l i = Raise e → e = IndexError.
Proof.
  unfold list_getitem. repeat case_bool_decide; try congruence;
    destruct (l !! _); congruence.
Qed.

(** *** One conditional assignment *)

Section paint_voxel.
Import OpObjectCenterImage Marker.

Lemma inbox_cons s ss e es x cs :
  Spec.inbox (Box (s :: ss) (e :: es)) (x :: cs)
  = bool_decide (s ≤ x) && bool_decide (x < e) && Spec.inbox (Box ss es) cs.
Proof. reflexivity. Qed.

Lemma contained_step_0 s ss e es x cs b :
  contained_step (Box (s :: ss) (e :: es)) (x :: cs) b 0
  = Ok (b && (bool_decide (s ≤ x) && bool_decide (x < e))).
Proof.
  unfold contained_step. cbn [start stop]. destruct b; [|done].
  rewrite !list_getitem_cons_0. csimpl.
  by destruct (bool_decide (s ≤ x)).
Qed.

Lemma contained_step_S s ss e es x cs b i :
  contained_step (Box (s :: ss) (e :: es)) (x :: cs) b (S i)
  = contained_step (Box ss es) cs b i.
Proof.
  unfold contained_step. cbn [start stop]. by rewrite !list_getitem_cons_S.
Qed.

Lemma contained_steps ss es cs b :
  length ss = length cs → length es = length cs →
  for_res (seq 0 (length cs)) (contained_step (Box ss es) cs) b
  = Ok (b && Spec.inbox (Box ss es) cs).
Proof.
  revert ss es b. induction cs as [|x cs IH]; intros ss es b Hs He.
  - destruct ss; [|done]. destruct es; [|done]. csimpl.
    by rewrite andb_true_r.
  - destruct ss as [|s ss]; [done|]. destruct es as [|e es]; [done|].
    cbn [length seq for_res]. rewrite contained_step_0. csimpl.
    rewrite <-fmap_S_seq, for_res_fmap.
    rewrite (for_res_ext _ _ (contained_step (Box ss es) cs))
      by (intros; apply contained_step_S).
    rewrite IH by (csimpl in *; lia).
    rewrite inbox_cons. f_equal.
    by destruct b, (bool_decide (s ≤ x)), (bool_decide (x < e)).
Qed.

Lemma contained_in_subregion_spec (r : box) (c : list Z) :
  length (start r) = length c → length (stop r) = length c →
  contained_in_subregion r c = Ok (Spec.inbox r c).
Proof.
  destruct r as [ss es]. intros Hs He. unfold contained_in_subregion.
  by rewrite contained_steps.
Qed.

Lemma make_key_from_S s ss es x cs (l : list nat) :
  make_key_from (Box (s :: ss) es) (x :: cs) (S <$> l)
  = make_key_from (Box ss es) cs l.
Proof.
  induction l as [|i l IH]; csimpl; [done|].
  by rewrite !list_getitem_cons_S, IH.
Qed.

Lemma make_key_spec (r : box) (c : list Z) :
  length (start r) = length c → make_key r c = Ok (key_of r c).
Proof.
  destruct r as [ss es]. unfold make_key, key_of. cbn [start].
  revert c. induction ss as [|s ss IH]; intros [|x cs] Hlen; try done.
  cbn [length seq make_key_from]. rewrite !list_getitem_cons_0. csimpl.
  rewrite <-fmap_S_seq, make_key_from_S, IH by (csimpl in *; lia).
  done.
Qed.

Lemma norm_key_in_bounds (shp key : list Z) :
  in_bounds shp key → norm_key shp key = Ok key.
Proof.
  unfold in_bounds. induction 1 as [|n i shp key Hi _ IH]; csimpl; [done|].
  unfold norm_index. rewrite bool_decide_eq_true_2 by done. csimpl.
  by rewrite IH.
Qed.

Lemma inbox_in_bounds ss es cs :
  length ss = length cs → length es = length cs →
  Spec.inbox (Box ss es) cs = true →
  in_bounds (zip_with Z.sub es ss) (zip_with Z.sub cs ss).
Proof.
  unfold in_bounds.
  revert ss es. induction cs as [|x cs IH]; intros [|s ss] [|e es] Hs He;
    try done.
  rewrite inbox_cons. cbn [start stop zip_with].
  rewrite !andb_true_iff, !bool_decide_eq_true. intros [[Hlo Hhi] Hrest].
  constructor; [lia|]. apply IH; [csimpl in *; lia..|done].
Qed.

(** For a box and a coordinate of the same rank and a destination of the
    box's shape, the conditional assignment cannot raise. *)
Lemma paint_voxel_spec (r : box) (a : ndarray Z) (c : list Z) :
  length (start r) = length c → length (stop r) = length c →
  nd_shape a = zip_with Z.sub (stop r) (start r) →
  paint_voxel r a c = Ok (stamp r a c) ∧ nd_shape (stamp r a c) = nd_shape a.
Proof.
  intros Hs He Hshape. unfold paint_voxel, stamp.
  rewrite contained_in_subregion_spec by done. csimpl.
  destruct (Spec.inbox r c) eqn:Hin; [|done].
  rewrite make_key_spec by done. csimpl. unfold setitem.
  destruct r as [ss es]. cbn [start stop] in *.
  rewrite Hshape. unfold key_of. cbn [start].
  rewrite norm_key_in_bounds by by apply inbox_in_bounds. done.
Qed.

End paint_voxel.

(** *** The painting loops *)

Section paint_loops.
Import OpObjectCenterImage Marker.

Lemma stamp_shape r a c : nd_shape (stamp r a c) = nd_shape a.
Proof. unfold stamp. by destruct (Spec.inbox r c). Qed.

Lemma stamps_shape r cs a : nd_shape (foldl (stamp r) a cs) = nd_shape a.
Proof.
  revert a. induction cs as [|c cs IH]; intros a; csimpl; [done|].
  by rewrite IH, stamp_shape.
Qed.

Lemma stamp_item r a c idx :
  length (start r) = length c → length idx = length c →
  nd_item (stamp r a c) idx = if hit r idx c then 255 else nd_item a idx.
Proof.
  intros Hs Hi. unfold stamp, hit.
  destruct (Spec.inbox r c); [|done]. cbn [nd_item andb].
  rewrite take_ge; [done|]. unfold key_of. rewrite length_zip_with. lia.
Qed.

Lemma stamps_item r cs a idx :
  Forall (λ c, length c = length (start r)) cs → length idx = length (start r) →
  nd_item (foldl (stamp r) a cs) idx
  = if existsb (hit r idx) cs then 255 else nd_item a idx.
Proof.
  intros Hcs Hi. revert a.
  induction Hcs as [|c cs Hc _ IH]; intros a; csimpl; [done|].
  rewrite IH, stamp_item by congruence.
  by destruct (hit r idx c), (existsb (hit r idx) cs).
Qed.

(** A sequence of conditional assignments on a destination of the box's
    shape cannot raise. *)
Lemma paint_voxels_spec (r : box) (cs : list (list Z)) (a : ndarray Z) :
  length (start r) = length (stop r) →
  Forall (λ c, length c = length (start r)) cs →
  nd_shape a = zip_with Z.sub (stop r) (start r) →
  for_res cs (paint_voxel r) a = Ok (foldl (stamp r) a cs).
Proof.
  intros Hr Hcs Hshape.
  apply (for_res_pure cs (paint_voxel r) (stamp r)
           (λ a, nd_shape a = zip_with Z.sub (stop r) (start r))); [done|].
  intros a' c Ha' Hc. rewrite Forall_forall in Hcs. specialize (Hcs c Hc).
  destruct (paint_voxel_spec r a' c) as [-> Hsh]; [congruence..|].
  split; [done|congruence].
Qed.

Lemma visited_length t ch x y z :
  Forall (λ c, length c = 5%nat) (visited t ch x y z).
Proof. unfold visited. csimpl. repeat constructor. Qed.

Lemma for_res_nested {S X Y} (l1 : list X) (l2 : list Y)
    (body : S → X → Y → res S) (s : S) :
  for_res l1 (λ s x, for_res l2 (λ s y, body s x y) s) s
  = for_res (x ← l1; y ← l2; [(x, y)]) (λ s xy, body s xy.1 xy.2) s.
Proof.
  revert s. induction l1 as [|x l1 IH]; intros s; csimpl; [done|].
  rewrite for_res_app.
  replace (for_res (l2 ≫= λ y, [(x, y)]) (λ s xy, body s xy.1 xy.2) s)
    with (for_res l2 (λ s y, body s x y) s).
  - destruct (for_res l2 _ s); csimpl; [apply IH|done].
  - clear IH. revert s. induction l2 as [|y l2 IH2]; intros s; csimpl; [done|].
    destruct (body s x y); csimpl; [apply IH2|done].
Qed.

Lemma paint_center_visited r t ch x y z a :
  paint_center r t ch x y z a = for_res (visited t ch x y z) (paint_voxel r) a.
Proof.
  unfold paint_center, visited.
  rewrite (for_res_nested [1; 2; 3]%nat [-1; 0; 1]
             (λ a dim offset,
                paint_voxel r a (alter (λ v, v + offset) dim [t; x; y; z; ch]))).
  set (pairs := (dim ← [1; 2; 3]%nat; offset ← [-1; 0; 1]; [(dim, offset)])).
  replace ([1; 2; 3]%nat ≫= λ dim, [-1; 0; 1] ≫= λ offset,
             [alter (λ v, v + offset) dim [t; x; y; z; ch]])
    with ((λ xy : nat * Z, alter (λ v, v + xy.2) xy.1 [t; x; y; z; ch]) <$> pairs)
    by reflexivity.
  by rewrite for_res_fmap.
Qed.

Lemma paint_row_spec (r : box) (t ch : Z) (a : ndarray Z) (row : list Z) :
  length (start r) = 5%nat → length (stop r) = 5%nat →
  nd_shape a = zip_with Z.sub (stop r) (start r) →
  paint_row r t ch a row
  = if has_center row then Ok (foldl (stamp r) a (row_voxels t ch row))
    else Raise ValueError.
Proof.
  intros Hs He Hshape. unfold paint_row, has_center, row_voxels, row_center.
  destruct (take 3 row) as [|x [|y [|z [|]]]]; try done.
  rewrite paint_center_visited. apply paint_voxels_spec; [congruence| |done].
  rewrite Hs. apply visited_length.
Qed.

Lemma row_voxels_length t ch row :
  Forall (λ c, length c = 5%nat) (row_voxels t ch row).
Proof.
  unfold row_voxels. destruct (row_center row) as [[[x y] z]|].
  - apply visited_length.
  - constructor.
Qed.

(** The loop over the rows of a table: it raises exactly when some row has
    fewer than three values. *)
Lemma paint_rows_spec (r : box) (t ch : Z) (rows : list (list Z)) (a : ndarray Z) :
  length (start r) = 5%nat → length (stop r) = 5%nat →
  nd_shape a = zip_with Z.sub (stop r) (start r) →
  for_res rows (paint_row r t ch) a
  = if forallb has_center rows
    then Ok (foldl (stamp r) a (rows ≫= row_voxels t ch))
    else Raise ValueError.
Proof.
  intros Hs He. revert a. induction rows as [|row rows IH]; intros a Hshape;
    csimpl; [done|].
  rewrite paint_row_spec by done.
  destruct (has_center row); csimpl; [|done].
  rewrite IH by by rewrite stamps_shape.
  by rewrite foldl_app.
Qed.

End paint_loops.

(** *** The channel loop and the time loop *)

Section center_image_loops.
Context {F : Type} (to_uint32 : F → Z).
Import OpObjectCenterImage Marker.

(** Indexing the array that the first turn of the channel loop leaves in
    [centers] always raises. *)
Lemma centers_lookup_array (a : list (list Z)) (t ch : Z) :
  @centers_lookup F (Array a) t ch = Raise IndexError.
Proof.
  unfold centers_lookup.
  destruct (list_getitem a t) as [row|e] eqn:Hrow; csimpl.
  - destruct (list_getitem row ch) as [v|e] eqn:Hv; csimpl; [done|].
    by rewrite (list_getitem_raises _ _ _ Hv).
  - by rewrite (list_getitem_raises _ _ _ Hrow).
Qed.

Lemma execute_channel_array r t (arr : list (list Z)) a ch :
  execute_channel to_uint32 r t (@Array F arr, a) ch = Raise IndexError.
Proof. unfold execute_channel. by rewrite centers_lookup_array. Qed.

Lemma execute_channel_slot r t d a ch :
  length (start r) = 5%nat → length (stop r) = 5%nat →
  nd_shape a = zip_with Z.sub (stop r) (start r) →
  execute_channel to_uint32 r t (FromSlot d, a) ch
  = (table ← centers_lookup (FromSlot d) t ch;
     if negb (rectangular table) then Raise ValueError
     else if forallb has_center (kept to_uint32 table)
     then Ok (Array (kept to_uint32 table),
              foldl (stamp r) a (kept to_uint32 table ≫= row_voxels t ch))
     else Raise ValueError).
Proof.
  intros Hs He Hshape. unfold execute_channel, asarray2.
  destruct (centers_lookup (FromSlot d) t ch) as [table|e]; csimpl; [|done].
  destruct (rectangular table); csimpl; [|done].
  fold (kept to_uint32 table). rewrite paint_rows_spec by done.
  by destruct (forallb has_center (kept to_uint32 table)).
Qed.

(** The channel loop of one time step, started with the dict the slot
    answered. *)
Lemma channel_loop_spec (self : operator F) r t d a (chs : list Z) :
  length (start r) = 5%nat → length (stop r) = 5%nat →
  nd_shape a = zip_with Z.sub (stop r) (start r) →
  regionCenters self [t] = Ok d →
  match for_res chs (execute_channel to_uint32 r t) (FromSlot d, a) with
  | Ok st => ∃ cs, time_voxels to_uint32 self chs t = Ok cs ∧
                   st.2 = foldl (stamp r) a cs
  | Raise e => time_voxels to_uint32 self chs t = Raise e
  end.
Proof.
  intros Hs He Hshape Hd. unfold time_voxels. rewrite Hd.
  cbn [mbind res_bind].
  destruct chs as [|ch chs]; [by exists []|].
  cbn [for_res]. rewrite execute_channel_slot by done.
  destruct (centers_lookup (FromSlot d) t ch) as [table|e];
    cbn [mbind res_bind]; [|done].
  destruct (rectangular table); cbn [negb mbind res_bind]; [|done].
  destruct (forallb has_center (kept to_uint32 table));
    cbn [mbind res_bind]; [|done].
  destruct chs as [|ch' chs]; [by eexists|].
  cbn [for_res]. by rewrite execute_channel_array.
Qed.

Lemma execute_time_spec (self : operator F) t0 x0 y0 z0 c0 t1 x1 y1 z1 c1 a t tr :
  let r := Box [t0; x0; y0; z0; c0] [t1; x1; y1; z1; c1] in
  nd_shape a = zip_with Z.sub (stop r) (start r) →
  execute_time to_uint32 self r a t tr
  = (match time_voxels to_uint32 self (range c0 c1) t with
     | Ok cs => Ok (foldl (stamp r) a cs)
     | Raise e => Raise e
     end, tr ++ requests_for [t]).
Proof.
  intros r Hshape.
  unfold execute_time, RegionCenters_call, mbind at 1 2, M_bind, emit, lift.
  destruct (regionCenters self [t]) as [d|e] eqn:Hd.
  - change (list_getitem (start r) (-1)) with (Ok c0).
    change (list_getitem (stop r) (-1)) with (Ok c1).
    unfold mbind, M_bind, mret, M_ret.
    pose proof (channel_loop_spec self r t d a (range c0 c1)
                  eq_refl eq_refl Hshape Hd) as Hloop.
    destruct (for_res (range c0 c1) (execute_channel to_uint32 r t)
                (FromSlot d, a)) as [st|e].
    + destruct Hloop as (cs & -> & ->). done.
    + by rewrite Hloop.
  - unfold time_voxels. by rewrite Hd.
Qed.

(** The time loop: its value is determined by the visited coordinates, and
    when it does not raise it has requested the region centers of every
    time step, one at a time. *)
Lemma time_loop_spec (self : operator F) t0 x0 y0 z0 c0 t1 x1 y1 z1 c1 ts a tr :
  let r := Box [t0; x0; y0; z0; c0] [t1; x1; y1; z1; c1] in
  nd_shape a = zip_with Z.sub (stop r) (start r) →
  ∃ tr',
    for_ ts (execute_time to_uint32 self r) a tr
    = (match times_voxels to_uint32 self (range c0 c1) ts with
       | Ok cs => Ok (foldl (stamp r) a cs)
       | Raise e => Raise e
       end, tr') ∧
    (∀ cs, times_voxels to_uint32 self (range c0 c1) ts = Ok cs →
           tr' = tr ++ requests_for ts).
Proof.
  intros r. revert a tr. induction ts as [|t ts IH]; intros a tr Hshape.
  - exists tr. split; [done|]. intros _ _. by rewrite app_nil_r.
  - cbn [for_ times_voxels]. unfold mbind at 1, M_bind.
    pose proof (execute_time_spec self t0 x0 y0 z0 c0 t1 x1 y1 z1 c1 a t tr
                  Hshape) as Ht.
    fold r in Ht. rewrite Ht. clear Ht.
    destruct (time_voxels to_uint32 self (range c0 c1) t) as [cs|e];
      cbn [mbind res_bind].
    + destruct (IH (foldl (stamp r) a cs) (tr ++ requests_for [t]))
        as (tr' & -> & Htr); [by rewrite stamps_shape|].
      exists tr'. split.
      * destruct (times_voxels to_uint32 self (range c0 c1) ts);
          cbn [mbind res_bind]; [by rewrite foldl_app|done].
      * intros cs' Hcs'.
        destruct (times_voxels to_uint32 self (range c0 c1) ts) as [rest|];
          [|done].
        rewrite (Htr rest eq_refl), <-app_assoc. done.
    + eexists. split; [done|]. intros cs' Hcs'. done.
Qed.

(** [execute] on a box of five axes with a destination of the box's shape. *)
Lemma execute_center_spec (self : operator F) subindex
    t0 x0 y0 z0 c0 t1 x1 y1 z1 c1 dest tr :
  let r := Box [t0; x0; y0; z0; c0] [t1; x1; y1; z1; c1] in
  nd_shape dest = zip_with Z.sub (stop r) (start r) →
  ∃ tr',
    execute to_uint32 self Output subindex r dest tr
    = (match times_voxels to_uint32 self (range c0 c1) (range t0 t1) with
       | Ok cs => Ok (foldl (stamp r) (fill dest 0) cs)
       | Raise e => Raise e
       end, tr') ∧
    (∀ cs, times_voxels to_uint32 self (range c0 c1) (range t0 t1) = Ok cs →
           tr' = tr ++ requests_for (range t0 t1)).
Proof.
  intros r Hshape.
  destruct (time_loop_spec self t0 x0 y0 z0 c0 t1 x1 y1 z1 c1 (range t0 t1)
              (fill dest 0) tr Hshape) as (tr' & Hloop & Htr).
  exists tr'. split; [|done].
  etransitivity; [|exact Hloop]. reflexivity.
Qed.

End center_image_loops.

(** *** Which voxels are marked *)

Section marked_voxels.
Context {F : Type} (to_uint32 : F → Z).
Import OpObjectCenterImage Marker.

Lemma existsb_hit r idx cs :
  existsb (hit r idx) cs = true ↔
  ∃ c, c ∈ cs ∧ Spec.inbox r c = true ∧ idx = key_of r c.
Proof.
  rewrite existsb_exists. unfold hit. split.
  - intros (c & Hc & Hhit). apply andb_true_iff in Hhit as [Hin Hkey].
    apply bool_decide_eq_true in Hkey. exists c.
    by rewrite list_elem_of_In.
  - intros (c & Hc & Hin & Hkey). exists c. rewrite <-list_elem_of_In.
    split; [done|]. rewrite Hin. by apply bool_decide_eq_true.
Qed.

Lemma visited_cross t ch x y z c :
  c ∈ visited t ch x y z ↔ c ∈ Spec.cross t x y z ch.
Proof.
  unfold visited, Spec.cross. csimpl.
  replace (x + -1) with (x - 1) by lia. replace (x + 0) with x by lia.
  replace (y + -1) with (y - 1) by lia. replace (y + 0) with y by lia.
  replace (z + -1) with (z - 1) by lia. replace (z + 0) with z by lia.
  rewrite !elem_of_cons, !elem_of_nil. tauto.
Qed.

Lemma row_voxels_elem t ch row c :
  c ∈ row_voxels t ch row ↔
  ∃ x y z, row_center row = Some (x, y, z) ∧ c ∈ Spec.cross t x y z ch.
Proof.
  unfold row_voxels. destruct (row_center row) as [[[x y] z]|].
  - rewrite visited_cross. split.
    + intros Hc. by exists x, y, z.
    + intros (x' & y' & z' & Heq & Hc). by simplify_eq.
  - rewrite elem_of_nil. split; [done|]. by intros (x & y & z & Heq & _).
Qed.

Lemma concat_empty_rows {A} (l : list (list A)) row :
  length (concat l) = 0%nat → row ∈ l → row = [].
Proof.
  induction l as [|r0 l IH]; csimpl.
  - by intros _ ?%elem_of_nil.
  - rewrite length_app. intros Hlen [->|Hrow]%elem_of_cons.
    + apply nil_length_inv. lia.
    + apply IH; [lia|done].
Qed.

(** A painted row is a row of the table after row 0. *)
Lemma kept_row_index (table : list (list F)) row :
  row ∈ kept to_uint32 table → has_center row = true →
  ∃ i, (1 ≤ i)%nat ∧ map (map to_uint32) table !! i = Some row.
Proof.
  unfold kept. intros Hrow Hcenter. case_bool_decide as Hsize.
  - apply list_elem_of_lookup in Hrow as [i Hi].
    rewrite lookup_drop in Hi. exists (1 + i)%nat. split; [lia|done].
  - assert (row = []) as ->; [|done].
    apply (concat_empty_rows (map (map to_uint32) table)); [|done].
    destruct (decide (length (concat (map (map to_uint32) table)) = 0%nat));
      [done|]. by destruct Hsize.
Qed.

Lemma time_voxels_single (self : operator F) t ch table :
  fetch self t ch = Ok table →
  rectangular table = true →
  forallb has_center (kept to_uint32 table) = true →
  time_voxels to_uint32 self [ch] t
  = Ok (kept to_uint32 table ≫= row_voxels t ch).
Proof.
  unfold fetch, time_voxels. intros Hfetch Hrect Hrows.
  destruct (regionCenters self [t]) as [d|e]; [|done].
  cbn [mbind res_bind] in *. rewrite Hfetch. cbn [mbind res_bind].
  by rewrite Hrect, Hrows.
Qed.

Lemma time_voxels_inv (self : operator F) chs t cs c :
  time_voxels to_uint32 self chs t = Ok cs → c ∈ cs →
  ∃ ch table row,
    chs = [ch] ∧ fetch self t ch = Ok table ∧
    row ∈ kept to_uint32 table ∧ c ∈ row_voxels t ch row.
Proof.
  unfold time_voxels, fetch. intros Hcs Hc.
  destruct (regionCenters self [t]) as [d|e]; [|done].
  cbn [mbind res_bind] in *.
  destruct chs as [|ch chs].
  { injection Hcs as <-. by apply elem_of_nil in Hc. }
  destruct (centers_lookup (FromSlot d) t ch) as [table|e] eqn:Hlook; [|done].
  cbn [mbind res_bind] in *.
  destruct (rectangular table); cbn [negb] in Hcs; [|done].
  destruct (forallb has_center (kept to_uint32 table)); [|done].
  destruct chs as [|ch' chs]; [|done]. injection Hcs as <-.
  apply list_elem_of_bind in Hc as (row & Hc & Hrow).
  by exists ch, table, row.
Qed.

Lemma times_voxels_inv (self : operator F) chs ts cs c :
  times_voxels to_uint32 self chs ts = Ok cs → c ∈ cs →
  ∃ t cs_t, t ∈ ts ∧ time_voxels to_uint32 self chs t = Ok cs_t ∧ c ∈ cs_t.
Proof.
  revert cs. induction ts as [|t ts IH]; intros cs Hcs Hc; cbn [times_voxels] in Hcs.
  - injection Hcs as <-. by apply elem_of_nil in Hc.
  - apply bind_ok in Hcs as (cs_t & Ht & Hcs).
    apply bind_ok in Hcs as (rest & Hrest & Hcs). injection Hcs as <-.
    apply elem_of_app in Hc as [Hc|Hc].
    + exists t, cs_t. split; [left|done].
    + destruct (IH rest Hrest Hc) as (t' & cs' & Ht' & Hcs' & Hc').
      exists t', cs'. split; [by right|done].
Qed.

Lemma times_voxels_single (self : operator F) ch ts (tables : Z → list (list F)) :
  (∀ t, t ∈ ts → fetch self t ch = Ok (tables t) ∧
                 rectangular (tables t) = true ∧
                 forallb has_center (kept to_uint32 (tables t)) = true) →
  times_voxels to_uint32 self [ch] ts
  = Ok (ts ≫= λ t, kept to_uint32 (tables t) ≫= row_voxels t ch).
Proof.
  induction ts as [|t ts IH]; intros Hts; cbn [times_voxels]; [done|].
  destruct (Hts t) as (Hfetch & Hrect & Hrows); [left|].
  rewrite (time_voxels_single self t ch (tables t)) by done.
  cbn [mbind res_bind]. rewrite IH; [done|].
  intros t' Ht'. apply Hts. by right.
Qed.

End marked_voxels.

Section center_image_results.
Context {F : Type} (to_uint32 : F → Z).
Import OpObjectCenterImage Marker.

Lemma times_voxels_length (self : operator F) chs ts cs :
  times_voxels to_uint32 self chs ts = Ok cs →
  Forall (λ c, length c = 5%nat) cs.
Proof.
  intros Hcs. apply Forall_forall. intros c Hc.
  destruct (times_voxels_inv to_uint32 self chs ts cs c Hcs Hc)
    as (t & cs_t & _ & Ht & Hct).
  destruct (time_voxels_inv to_uint32 self chs t cs_t c Ht Hct)
    as (ch & table & row & _ & _ & _ & Hrow).
  pose proof (row_voxels_length t ch row) as Hlen.
  rewrite Forall_forall in Hlen. by apply Hlen.
Qed.

Lemma range_singleton (a b x : Z) : range a b = [x] → x = a.
Proof.
  unfold range, seqZ. destruct (Z.to_nat (b - a)) as [|n]; csimpl; [done|].
  intros Heq. injection Heq as <- _. lia.
Qed.

Lemma range_succ (a : Z) : range a (a + 1) = [a].
Proof.
  unfold range. replace (a + 1 - a) with 1 by lia. unfold seqZ. csimpl.
  f_equal.
Qed.

Lemma elem_of_range (a b x : Z) : x ∈ range a b ↔ a ≤ x < b.
Proof. unfold range. rewrite elem_of_seqZ. lia. Qed.

(** What [execute] returns, when it returns: the destination's shape, 255
    at the indices hit by a visited coordinate inside the box, 0
    elsewhere. *)
Lemma execute_center_result (self : operator F) subindex
    t0 x0 y0 z0 c0 t1 x1 y1 z1 c1 dest tr res tr' :
  let r := Box [t0; x0; y0; z0; c0] [t1; x1; y1; z1; c1] in
  nd_shape dest = zip_with Z.sub (stop r) (start r) →
  execute to_uint32 self Output subindex r dest tr = (Ok res, tr') →
  ∃ cs,
    times_voxels to_uint32 self (range c0 c1) (range t0 t1) = Ok cs ∧
    tr' = tr ++ requests_for (range t0 t1) ∧
    nd_shape res = nd_shape dest ∧
    ∀ idx, in_bounds (nd_shape res) idx →
           nd_item res idx = if existsb (hit r idx) cs then 255 else 0.
Proof.
  intros r Hshape Hexec.
  destruct (execute_center_spec to_uint32 self subindex
              t0 x0 y0 z0 c0 t1 x1 y1 z1 c1 dest tr Hshape)
    as (tr'' & Hspec & Htr).
  fold r in Hspec. rewrite Hspec in Hexec.
  destruct (times_voxels to_uint32 self (range c0 c1) (range t0 t1))
    as [cs|e] eqn:Hcs; [|done].
  injection Hexec as <- <-. exists cs.
  split_and!; [done|by apply (Htr cs)|by rewrite stamps_shape|].
  intros idx Hidx. rewrite stamps_shape in Hidx. cbn [fill nd_shape] in Hidx.
  rewrite Hshape in Hidx. apply Forall2_length in Hidx.
  rewrite stamps_item; [done| |by rewrite <-Hidx].
  apply (times_voxels_length self _ _ _ Hcs).
Qed.

End center_image_results.

(** C7: in every image that [execute] returns for a box over the five axes
    and a destination of the box's shape, a voxel that is not zero is a
    voxel of the cross of some row [i >= 1] of the uint32 RegionCenter
    table fetched for its time step and channel: row 0, the background row,
    is dropped before anything is painted and contributes no marker. *)
Theorem background_row_excluded {F : Type} (to_uint32 : F → Z)
    (self : OpObjectCenterImage.operator F) (subindex : list Z)
    (t0 x0 y0 z0 c0 t1 x1 y1 z1 c1 : Z) (dest : ndarray Z) (tr : trace)
    (res : ndarray Z) (tr' : trace) :
  let r := Box [t0; x0; y0; z0; c0] [t1; x1; y1; z1; c1] in
  nd_shape dest = zip_with Z.sub (stop r) (start r) →
  OpObjectCenterImage.execute to_uint32 self OpObjectCenterImage.Output
    subindex r dest tr = (Ok res, tr') →
  ∀ idx, in_bounds (nd_shape res) idx → nd_item res idx ≠ 0 →
  ∃ t table i row x y z c,
    t0 ≤ t < t1 ∧
    Marker.fetch self t c0 = Ok table ∧
    (1 ≤ i)%nat ∧ map (map to_uint32) table !! i = Some row ∧
    Marker.row_center row = Some (x, y, z) ∧
    c ∈ Spec.cross t x y z c0 ∧
    Spec.inbox r c = true ∧ idx = Marker.key_of r c.
Proof.
  intros r Hshape Hexec idx Hidx Hitem.
  destruct (execute_center_result to_uint32 self subindex
              t0 x0 y0 z0 c0 t1 x1 y1 z1 c1 dest tr res tr' Hshape Hexec)
    as (cs & Hcs & _ & _ & Hitems).
  fold r in Hitems. rewrite (Hitems idx Hidx) in Hitem.
  destruct (existsb (Marker.hit r idx) cs) eqn:Hhit; [|done].
  apply existsb_hit in Hhit as (c & Hc & Hin & Hkey).
  destruct (times_voxels_inv to_uint32 self _ _ cs c Hcs Hc)
    as (t & cs_t & Ht & Hcs_t & Hct).
  destruct (time_voxels_inv to_uint32 self _ t cs_t c Hcs_t Hct)
    as (ch & table & row & Hch & Hfetch & Hrow & Hcrow).
  apply range_singleton in Hch as ->.
  apply row_voxels_elem in Hcrow as (x & y & z & Hcenter & Hcross).
  destruct (kept_row_index to_uint32 table row Hrow) as (i & Hi & Hlook).
  { unfold Marker.has_center. by rewrite Hcenter. }
  exists t, table, i, row, x, y, z, c.
  apply elem_of_range in Ht. split_and!; try done; lia.
Qed.

Lemma background_row_excluded_witness :
  ∃ t table i row x y z c,
    0 ≤ t < 1 ∧
    Marker.fetch (Examples.center_image 1) t 0 = Ok table ∧
    (1 ≤ i)%nat ∧ map (map Examples.cast_uint32) table !! i = Some row ∧
    Marker.row_center row = Some (x, y, z) ∧
    c ∈ Spec.cross t x y z 0 ∧
    Spec.inbox (Box [0; 0; 0; 0; 0] [1; 20; 20; 20; 1]) c = true ∧
    [0; 5; 5; 6; 0] = Marker.key_of (Box [0; 0; 0; 0; 0] [1; 20; 20; 20; 1]) c.
Proof.
  apply (background_row_excluded Examples.cast_uint32 (Examples.center_image 1)
           [] 0 0 0 0 0 1 20 20 20 1 (Examples.destination [1; 20; 20; 20; 1])
           [] Examples.marked_image Examples.whole_image_request.2).
  - reflexivity.
  - vm_compute. reflexivity.
  - vm_compute. repeat constructor; discriminate.
  - vm_compute. discriminate.
Defined.

Section center_image_geometry.
Context {F : Type} (to_uint32 : F → Z).
Import OpObjectCenterImage Marker.

Lemma rectangular_same_length {A} (rows : list (list A)) (n : nat) :
  Forall (λ row, length row = n) rows → rectangular rows = true.
Proof.
  intros Hrows. destruct Hrows as [|row rows Hrow Hrows]; [done|].
  cbn [rectangular]. apply forallb_forall. intros row' Hrow'%list_elem_of_In.
  rewrite Forall_forall in Hrows. apply bool_decide_eq_true.
  by rewrite Hrow, (Hrows _ Hrow').
Qed.

Lemma has_center_length (row : list Z) :
  (3 ≤ length row)%nat → has_center row = true.
Proof.
  destruct row as [|a [|b [|c row]]]; csimpl; intros Hlen; try lia. done.
Qed.

Lemma in_bounds_inbox ss es cs :
  length ss = length cs → length es = length cs →
  in_bounds (zip_with Z.sub es ss) (zip_with Z.sub cs ss) →
  Spec.inbox (Box ss es) cs = true.
Proof.
  unfold in_bounds.
  revert ss es. induction cs as [|x cs IH]; intros [|s ss] [|e es] Hs He;
    try done.
  cbn [zip_with]. intros [Hx Hrest]%Forall2_cons. rewrite inbox_cons.
  rewrite !andb_true_iff, !bool_decide_eq_true.
  split; [lia|]. apply IH; [csimpl in *; lia..|done].
Qed.

Lemma cross_length t x y z ch c : c ∈ Spec.cross t x y z ch → length c = 5%nat.
Proof.
  unfold Spec.cross. rewrite !elem_of_cons, elem_of_nil.
  intros [->|[->|[->|[->|[->|[->|[->|[]]]]]]]]; done.
Qed.

(** The image returned for a request that spans one channel: provided the
    slot answers every time step of the box with a table whose rows have one
    length and whose painted rows have at least three columns, [execute]
    returns, after one request per time step, an image of the destination's
    shape in which a voxel is 255 exactly when it is a voxel of the cross
    (the centre or one of its six axis neighbours) of a painted row, and 0
    otherwise. *)
Lemma center_image_single_channel (self : operator F) (subindex : list Z)
    (t0 x0 y0 z0 c0 t1 x1 y1 z1 : Z) (dest : ndarray Z) (tr : trace)
    (tables : Z → list (list F)) :
  let r := Box [t0; x0; y0; z0; c0] [t1; x1; y1; z1; c0 + 1] in
  nd_shape dest = zip_with Z.sub (stop r) (start r) →
  (∀ t, t0 ≤ t < t1 →
        fetch self t c0 = Ok (tables t) ∧
        (∃ n, Forall (λ row, length row = n) (tables t)) ∧
        Forall (λ row, (3 ≤ length row)%nat) (kept to_uint32 (tables t))) →
  ∃ res,
    execute to_uint32 self Output subindex r dest tr
    = (Ok res, tr ++ requests_for (range t0 t1)) ∧
    nd_shape res = nd_shape dest ∧
    ∀ idx, in_bounds (nd_shape res) idx →
      let marked :=
        ∃ t row x y z c,
          t0 ≤ t < t1 ∧ row ∈ kept to_uint32 (tables t) ∧
          row_center row = Some (x, y, z) ∧
          c ∈ Spec.cross t x y z c0 ∧ idx = key_of r c in
      (marked ∧ nd_item res idx = 255) ∨ (¬ marked ∧ nd_item res idx = 0).
Proof.
  intros r Hshape Htables.
  assert (times_voxels to_uint32 self (range c0 (c0 + 1)) (range t0 t1)
          = Ok (range t0 t1 ≫= λ t,
                  kept to_uint32 (tables t) ≫= row_voxels t c0)) as Hcs.
  { rewrite range_succ. apply times_voxels_single.
    intros t Ht%elem_of_range.
    destruct (Htables t Ht) as (Hfetch & [n Hrect] & Hrows).
    split_and!; [done|by apply (rectangular_same_length _ n)|].
    apply forallb_forall. intros row Hrow.
    apply has_center_length. rewrite Forall_forall in Hrows.
    by apply Hrows, list_elem_of_In. }
  destruct (execute_center_spec to_uint32 self subindex
              t0 x0 y0 z0 c0 t1 x1 y1 z1 (c0 + 1) dest tr Hshape)
    as (tr' & Hspec & Htr).
  fold r in Hspec. rewrite Hcs in Hspec.
  rewrite (Htr _ Hcs) in Hspec. clear Htr.
  eexists. split; [exact Hspec|]. split; [by rewrite stamps_shape|].
  intros idx Hidx marked. rewrite stamps_shape in Hidx.
  cbn [fill nd_shape] in Hidx. rewrite Hshape in Hidx.
  pose proof (Forall2_length _ _ _ Hidx) as Hlen.
  rewrite stamps_item;
    [|apply (times_voxels_length to_uint32 self _ _ _ Hcs)|by rewrite <-Hlen].
  cbn [fill nd_item].
  destruct (existsb (hit r idx) _) eqn:Hhit.
  - left. split; [|done].
    apply existsb_hit in Hhit as (c & Hc & Hin & Hkey).
    apply list_elem_of_bind in Hc as (t & Hc & Ht).
    apply list_elem_of_bind in Hc as (row & Hc & Hrow).
    apply row_voxels_elem in Hc as (x & y & z & Hcenter & Hcross).
    apply elem_of_range in Ht. by exists t, row, x, y, z, c.
  - right. split; [|done].
    intros (t & row & x & y & z & c & Ht & Hrow & Hcenter & Hcross & Hkey).
    apply not_true_iff_false in Hhit. apply Hhit, existsb_hit.
    exists c. split_and!; [|  |done].
    + apply list_elem_of_bind. exists t. split; [|by apply elem_of_range].
      apply list_elem_of_bind. exists row. split; [|done].
      apply row_voxels_elem. by exists x, y, z.
    + pose proof (cross_length _ _ _ _ _ _ Hcross) as Hc5.
      apply in_bounds_inbox; [done..|].
      rewrite Hkey in Hidx. exact Hidx.
Qed.

End center_image_geometry.

(** A request that spans two or more channels and at least one time step
    never returns an image. *)
Lemma center_image_multi_channel_raises {F : Type} (to_uint32 : F → Z)
    (self : OpObjectCenterImage.operator F) (subindex : list Z)
    (t0 x0 y0 z0 c0 t1 x1 y1 z1 c1 : Z) (dest : ndarray Z) (tr : trace) :
  let r := Box [t0; x0; y0; z0; c0] [t1; x1; y1; z1; c1] in
  nd_shape dest = zip_with Z.sub (stop r) (start r) →
  t0 < t1 → c0 + 2 ≤ c1 →
  ∃ e tr',
    OpObjectCenterImage.execute to_uint32 self OpObjectCenterImage.Output
      subindex r dest tr = (Raise e, tr').
Proof.
  intros r Hshape Ht Hc.
  destruct (execute_center_spec to_uint32 self subindex
              t0 x0 y0 z0 c0 t1 x1 y1 z1 c1 dest tr Hshape)
    as (tr' & Hspec & _).
  fold r in Hspec. rewrite Hspec. clear Hspec.
  assert (∃ t ts, range t0 t1 = t :: ts) as (t & ts & ->).
  { unfold range, seqZ. destruct (Z.to_nat (t1 - t0)) as [|n] eqn:Hn; [lia|].
    csimpl. by eexists _, _. }
  assert (∃ a b chs, range c0 c1 = a :: b :: chs) as (a & b & chs & ->).
  { unfold range, seqZ.
    destruct (Z.to_nat (c1 - c0)) as [|[|n]] eqn:Hn; [lia..|].
    csimpl. by eexists _, _, _. }
  cbn [Marker.times_voxels]. unfold Marker.time_voxels.
  destruct (OpObjectCenterImage.regionCenters self [t]) as [d|e];
    cbn [mbind res_bind]; [|by eexists _, _].
  destruct (OpObjectCenterImage.centers_lookup _ t a) as [table|e];
    cbn [mbind res_bind]; [|by eexists _, _].
  destruct (rectangular table); cbn [negb]; [|by eexists _, _].
  destruct (forallb Marker.has_center _); cbn [mbind res_bind];
    by eexists _, _.
Qed.

(** ** The time-list adapter: what holds for every input *)

Lemma M_bind_ok {A B} (m : M A) (f : A → M B) (tr tr' : trace) (a : A) :
  m tr = (Ok a, tr') → (m ≫= f) tr = f a tr'.
Proof. intros Hm. unfold mbind, M_bind. by rewrite Hm. Qed.

Lemma M_bind_raise {A B} (m : M A) (f : A → M B) (tr tr' : trace) (e : exn) :
  m tr = (Raise e, tr') → (m ≫= f) tr = (Raise e, tr').
Proof. intros Hm. unfold mbind, M_bind. by rewrite Hm. Qed.

Lemma lift_eq {A} (r : res A) (a : A) (tr : trace) :
  r = Ok a → lift r tr = (Ok a, tr).
Proof. by intros ->. Qed.

Lemma slot_call_ok {A} (name : string) (data : ndarray A)
    (start stop : list Z) (tr : trace) :
  valid_box (nd_shape data) start stop = true →
  slot_call name data start stop tr
  = (Ok {| nd_shape := zip_with Z.sub stop start;
           nd_item := λ idx, nd_item data (zip_with Z.add idx start) |},
     tr ++ [Requested name (SubRegion start stop)]).
Proof. intros Hbox. unfold slot_call, mbind, M_bind, emit. by rewrite Hbox. Qed.

Lemma slot_call_refused {A} (name : string) (data : ndarray A)
    (start stop : list Z) (tr : trace) :
  valid_box (nd_shape data) start stop = false →
  slot_call name data start stop tr
  = (Raise ValueError, tr ++ [Requested name (SubRegion start stop)]).
Proof. intros Hbox. unfold slot_call, mbind, M_bind, emit. by rewrite Hbox. Qed.

(** Splitting an axis of extent [n] into [n] sections gives sections of
    extent 1, section [i] starting at offset [i]. *)
Lemma split_sections {A} (a : ndarray A) (n : Z) (axis : nat) (N : Z) :
  nd_shape a !! axis = Some N → 1 ≤ n → N = n →
  split a n axis
  = Ok ((λ i, {| nd_shape := <[axis := 1]> (nd_shape a);
                 nd_item := λ idx,
                   nd_item a (alter (λ j, j + i * 1) axis idx) |})
          <$> seqZ 0 n).
Proof.
  intros Hshape Hn ->. unfold split. rewrite Hshape. cbn [mbind res_bind].
  rewrite (bool_decide_eq_false_2 (n = 0)) by lia.
  rewrite (bool_decide_eq_false_2 (n < 0)) by lia.
  rewrite (bool_decide_eq_false_2 (n `mod` n ≠ 0))
    by (rewrite Z_mod_same_full; tauto).
  by rewrite Z_div_same_full by lia.
Qed.

Lemma M_bind_ext_l {A B} (m1 m2 : M A) (f : A → M B) (tr : trace) :
  (∀ tr, m1 tr = m2 tr) → (m1 ≫= f) tr = (m2 ≫= f) tr.
Proof. intros Hm. unfold mbind, M_bind. by rewrite Hm. Qed.

Lemma M_bind_ext_r {A B} (m : M A) (f g : A → M B) (tr : trace) :
  (∀ a tr, f a tr = g a tr) → (m ≫= f) tr = (m ≫= g) tr.
Proof.
  intros Hfg. unfold mbind, M_bind. destruct (m tr) as [[a|e] tr']; [|done].
  apply Hfg.
Qed.

Section time_list_adapter.
Context {A : Type}.
Import OpAdaptTimeListRoi.

(** The empty time list is treated as the list of all time steps: both
    requests run the same computation. *)
Lemma execute_empty_list_is_full_range {D} (self : operator A) (slot : slot_id)
    (subindex : list Z) (destination : D) (T : Z) (tr : trace) :
  OrderedDict.getitem "t" (getTaggedShape (input_meta self)) = Ok T →
  execute self slot subindex [] destination tr
  = execute self slot subindex (range 0 T) destination tr.
Proof.
  intros HT. unfold execute.
  apply M_bind_ext_r. intros _ tr1.
  apply M_bind_ext_r. intros numChannels tr2.
  apply M_bind_ext_r. intros channelIndex tr3.
  apply M_bind_ext_l. intros tr4.
  rewrite (bool_decide_eq_true_2 (length (@nil Z) = 0%nat)) by done.
  unfold mbind, M_bind, lift, mret, M_ret. rewrite HT.
  by destruct (bool_decide (length (range 0 T) = 0%nat)).
Qed.

(** The loop that collects one record per channel section. *)
Lemma collect_channels (sections : list (ndarray A)) (vals : list A) (t : Z)
    (result : gmap Z (list A)) (acc : list A) (tr : trace) :
  Forall2 (λ section v, flat0 section = Ok v) sections vals →
  result !! t = Some acc →
  for_ sections
    (λ result channelResult,
       x ← lift (flat0 channelResult);
       mret (alter (λ l, l ++ [x]) t result))
    result tr
  = (Ok (<[t := acc ++ vals]> result), tr).
Proof.
  intros Hvals.
  set (body := λ (result : gmap Z (list A)) (channelResult : ndarray A),
         x ← lift (flat0 channelResult);
         mret (M := M) (alter (λ l, l ++ [x]) t result)).
  revert result acc.
  induction Hvals as [|section v sections vals Hv _ IH]; intros result acc Hacc.
  - cbn [for_]. rewrite app_nil_r, insert_id by done. done.
  - cbn [for_]. unfold mbind at 1, M_bind.
    assert (body result section tr
            = (Ok (alter (λ l, l ++ [v]) t result), tr)) as ->.
    { unfold body, mbind, M_bind, lift. by rewrite Hv. }
    rewrite (IH _ (acc ++ [v])) by by rewrite lookup_alter_eq, Hacc.
    f_equal. f_equal. rewrite <-app_assoc. cbn [app].
    apply map_eq. intros k. destruct (decide (k = t)) as [->|Hk].
    + by rewrite !lookup_insert_eq.
    + by rewrite !lookup_insert_ne, lookup_alter_ne.
Qed.

(** From here on the input has the axes (t, c), as the stacked output of the
    feature pipeline has. *)
Section tc_layout.
Variables (T C : Z) (dt : dtype) (data : ndarray A).
Hypothesis data_shape : nd_shape data = [T; C].
Hypothesis one_channel : 1 ≤ C.

Lemma execute_tc {D} (subindex : list Z) (t : Z) (ts : list Z)
    (destination : D) (tr : trace) :
  execute (tc_operator T C dt data) Output subindex (t :: ts) destination tr
  = for_ (t :: ts) (execute_time (tc_operator T C dt data) (tc_tagged C) C 1 0) ∅ tr.
Proof. reflexivity. Qed.

Lemma sections_nonempty {B} (f : Z → B) : ∃ l, f <$> seqZ 0 C = f 0 :: l.
Proof.
  unfold seqZ. destruct (Z.to_nat C) as [|n] eqn:Hn; [lia|].
  csimpl. by eexists.
Qed.

(** Time step 0: the fetched cell array is split into one record per
    channel, in channel order. *)
Lemma execute_time_first (result : gmap Z (list A)) (tr : trace) :
  1 ≤ T →
  execute_time (tc_operator T C dt data) (tc_tagged C) C 1 0 result 0 tr
  = (Ok (<[0 := (λ i, nd_item data [0; i]) <$> seqZ 0 C]> result),
     tr ++ [Requested "Input" (SubRegion [0; 0] [1; C])]).
Proof.
  intros HT. unfold execute_time.
  change (<[0%nat:=0]> (replicate (length (tc_tagged C)) 0)) with [0; 0].
  change (<[0%nat:=1]> (OrderedDict.values (tc_tagged C))) with [1; C].
  change (input_data (tc_operator T C dt data)) with data.
  assert (valid_box (nd_shape data) [0; 0] [1; C] = true) as Hbox.
  { rewrite data_shape. unfold valid_box. csimpl.
    rewrite !bool_decide_eq_true_2 by lia. done. }
  rewrite (M_bind_ok _ _ _ _ _ (slot_call_ok "Input" data [0; 0] [1; C] tr Hbox)).
  erewrite M_bind_ok;
    [|apply lift_eq, (split_sections _ C 1 (C - 0)); [done|lia|apply Z.sub_0_r]].
  rewrite (collect_channels _ ((λ i, nd_item data [0; i]) <$> seqZ 0 C) 0 _ []).
  - by rewrite insert_insert_eq.
  - apply Forall2_fmap, Forall_Forall2_diag, Forall_forall. intros i _.
    unfold flat0. cbn [nd_shape nd_item zip_with insert list_insert].
    replace (forallb (λ n, bool_decide (0 < n)) [1 - 0; 1]) with true
      by reflexivity.
    csimpl. replace (0 + i * 1 + 0) with i by lia. done.
  - by rewrite lookup_insert_eq.
Qed.

(** Any other time step: the requested box is [t, 1) along time, so either
    it is refused or the fetched array has no element. *)
Lemma execute_time_later (result : gmap Z (list A)) (t : Z) (tr : trace) :
  t ≠ 0 →
  ∃ e, execute_time (tc_operator T C dt data) (tc_tagged C) C 1 0 result t tr
       = (Raise e, tr ++ [Requested "Input" (SubRegion [t; 0] [1; C])]).
Proof.
  intros Ht. unfold execute_time.
  change (<[0%nat:=t]> (replicate (length (tc_tagged C)) 0)) with [t; 0].
  change (<[0%nat:=1]> (OrderedDict.values (tc_tagged C))) with [1; C].
  change (input_data (tc_operator T C dt data)) with data.
  destruct (valid_box (nd_shape data) [t; 0] [1; C]) eqn:Hbox.
  - rewrite (M_bind_ok _ _ _ _ _ (slot_call_ok "Input" data [t; 0] [1; C] tr Hbox)).
    rewrite data_shape in Hbox.
    assert (t = 1) as ->.
    { apply (valid_box_cons T [C] t [0] 1 [C]) in Hbox. lia. }
    erewrite M_bind_ok;
      [|apply lift_eq, (split_sections _ C 1 (C - 0)); [done|lia|apply Z.sub_0_r]].
    match goal with |- context [?f <$> seqZ 0 C] =>
      destruct (sections_nonempty f) as [l ->] end.
    cbn [for_]. exists IndexError.
    apply M_bind_raise, M_bind_raise. reflexivity.
  - exists ValueError.
    apply M_bind_raise. by apply slot_call_refused.
Qed.

(** A request for time step 0 maps 0 to the records of its channels, in
    channel order. *)
Lemma execute_first_step {D} (subindex : list Z) (destination : D) (tr : trace) :
  1 ≤ T →
  execute (tc_operator T C dt data) Output subindex [0] destination tr
  = (Ok {[0 := (λ i, nd_item data [0; i]) <$> seqZ 0 C]},
     tr ++ [Requested "Input" (SubRegion [0; 0] [1; C])]).
Proof.
  intros HT. rewrite execute_tc. cbn [for_]. unfold mbind, M_bind.
  by rewrite execute_time_first.
Qed.

(** A request for any other time step raises. *)
Lemma execute_later_step_raises {D} (subindex : list Z) (destination : D)
    (t : Z) (tr : trace) :
  t ≠ 0 → ∃ e tr', execute (tc_operator T C dt data) Output subindex [t] destination tr = (Raise e, tr').
Proof.
  intros Ht. rewrite execute_tc. cbn [for_]. unfold mbind, M_bind.
  destruct (execute_time_later ∅ t tr Ht) as [e ->]. by eexists _, _.
Qed.

(** With two or more time steps, the request for all of them raises. *)
Lemma execute_empty_list_raises {D} (subindex : list Z) (destination : D)
    (tr : trace) :
  2 ≤ T → ∃ e tr', execute (tc_operator T C dt data) Output subindex [] destination tr = (Raise e, tr').
Proof.
  intros HT.
  rewrite (execute_empty_list_is_full_range (tc_operator T C dt data) Output subindex destination T)
    by reflexivity.
  assert (∃ l, range 0 T = 0 :: 1 :: l) as [l ->].
  { unfold range, seqZ.
    destruct (Z.to_nat (T - 0)) as [|[|n]] eqn:Hn; [lia..|].
    csimpl. by eexists. }
  rewrite execute_tc. cbn [for_]. unfold mbind at 1, M_bind.
  rewrite execute_time_first by lia.
  unfold mbind at 1, M_bind.
  destruct (execute_time_later
              (<[0 := (λ i, nd_item data [0; i]) <$> seqZ 0 C]> ∅) 1
              (tr ++ [Requested "Input" (SubRegion [0; 0] [1; C])]))
    as [e ->]; [done|].
  by eexists _, _.
Qed.

End tc_layout.

End time_list_adapter.

(** ** The center image on the 20x20x20 volume with one object at (5,5,5) *)

(** The whole volume: the centre and its six axis neighbours, seven voxels. *)
Example one_object_whole_volume :
  Examples.marked_by Examples.whole_image_request
  = Ok [[0; 4; 5; 5; 0]; [0; 5; 4; 5; 0]; [0; 5; 5; 4; 0]; [0; 5; 5; 5; 0];
        [0; 5; 5; 6; 0]; [0; 5; 6; 5; 0]; [0; 6; 5; 5; 0]].
Proof. vm_compute. reflexivity. Qed.

(** The sub-box x, y, z in 0..5: only the voxels of the cross inside it. *)
Example one_object_sub_box :
  Examples.marked_by
    (OpObjectCenterImage.execute Examples.cast_uint32 (Examples.center_image 1)
       OpObjectCenterImage.Output [] (Box [0; 0; 0; 0; 0] [1; 6; 6; 6; 1])
       (Examples.destination [1; 6; 6; 6; 1]) [])
  = Ok [[0; 4; 5; 5; 0]; [0; 5; 4; 5; 0]; [0; 5; 5; 4; 0]; [0; 5; 5; 5; 0]].
Proof. vm_compute. reflexivity. Qed.

(** An empty table and a table with the background row only: all zero. *)
Example no_object_all_zero :
  Examples.marked_by
    (OpObjectCenterImage.execute Examples.cast_uint32
       (Examples.center_image_of []) OpObjectCenterImage.Output []
       (Box [0; 0; 0; 0; 0] [1; 20; 20; 20; 1])
       (Examples.destination [1; 20; 20; 20; 1]) []) = Ok [] ∧
  Examples.marked_by
    (OpObjectCenterImage.execute Examples.cast_uint32
       (Examples.center_image_of [[3; 3; 3]]) OpObjectCenterImage.Output []
       (Box [0; 0; 0; 0; 0] [1; 20; 20; 20; 1])
       (Examples.destination [1; 20; 20; 20; 1]) []) = Ok [].
Proof. split; vm_compute; reflexivity. Qed.

(** ** The time-list adapter on concrete inputs *)

(** One time step and three channels: the empty list yields the entry for
    time 0 with the three records in channel order. *)
Example adapter_one_step :
  (OpAdaptTimeListRoi.execute (Examples.adapter 1 3) OpAdaptTimeListRoi.Output
     [] [] () []).1
  = Ok {[0 := [0; 1; 2]]}.
Proof.
  rewrite (execute_empty_list_is_full_range _ _ _ _ 1) by reflexivity.
  change (range 0 1) with [0].
  unfold Examples.adapter.
  change (OpAdaptTimeListRoi.Operator (Meta [1; 3] ["t"; "c"] object)
            (Examples.cells 1 3))
    with (OpAdaptTimeListRoi.tc_operator 1 3 object (Examples.cells 1 3)).
  rewrite execute_first_step by (done || lia). reflexivity.
Qed.

(** * Further properties of the operators *)

(** ** [OpRegionFeatures3d.setupOutputs] *)

Section setup_3d.
Implicit Types (d : OrderedDict.t) (k : string).

Lemma od_getitem_present k d :
  k ∈ OrderedDict.keys d → ∃ v, OrderedDict.getitem k d = Ok v.
Proof.
  unfold OrderedDict.keys. induction d as [|[k' v'] d IH]; csimpl.
  - by intros ?%elem_of_nil.
  - intros [->|Hk]%elem_of_cons.
    + exists v'. by rewrite decide_True.
    + destruct (decide (k = k')); [by eexists|by apply IH].
Qed.

Lemma od_getitem_absent k d :
  k ∉ OrderedDict.keys d → OrderedDict.getitem k d = Raise KeyError.
Proof.
  unfold OrderedDict.keys. induction d as [|[k' v'] d IH]; csimpl; [done|].
  intros [Hne Hk]%not_elem_of_cons. rewrite decide_False by exact Hne.
  by apply IH.
Qed.

Lemma od_delitem_absent k d :
  k ∉ OrderedDict.keys d → OrderedDict.delitem k d = Raise KeyError.
Proof.
  unfold OrderedDict.keys. induction d as [|[k' v'] d IH]; csimpl; [done|].
  intros [Hne Hk]%not_elem_of_cons. rewrite decide_False by exact Hne.
  by rewrite IH.
Qed.

(** The test [set(keys) - set('tc') == set('xyz')] in words: x, y and z are
    axes, and there is no axis besides t, c, x, y and z. *)
Lemma spatial_axes_test (keys : list string) :
  (list_to_set keys : gset string) ∖ list_to_set ["t"; "c"]
    = list_to_set ["x"; "y"; "z"] ↔
  ("x" ∈ keys ∧ "y" ∈ keys ∧ "z" ∈ keys) ∧
  ∀ k, k ∈ keys → k ∈ ["t"; "c"; "x"; "y"; "z"].
Proof.
  split.
  - intros Heq.
    assert (∀ k, k ∈ ["x"; "y"; "z"] →
                 k ∈ keys ∧ k ∉ ["t"; "c"]) as Hxyz.
    { intros k Hk.
      assert (k ∈ (list_to_set ["x"; "y"; "z"] : gset string)) as Hk'
        by by apply elem_of_list_to_set.
      rewrite <-Heq, elem_of_difference, !elem_of_list_to_set in Hk'.
      exact Hk'. }
    split.
    + split_and!; apply Hxyz; rewrite !elem_of_cons; tauto.
    + intros k Hk. destruct (decide (k ∈ ["t"; "c"])) as [Htc|Htc].
      * rewrite !elem_of_cons in *. tauto.
      * assert (k ∈ (list_to_set ["x"; "y"; "z"] : gset string)) as Hk'.
        { rewrite <-Heq, elem_of_difference, !elem_of_list_to_set. tauto. }
        rewrite elem_of_list_to_set in Hk'. rewrite !elem_of_cons in *. tauto.
  - intros [(Hx & Hy & Hz) Hall]. apply set_eq. intros k.
    rewrite elem_of_difference, !elem_of_list_to_set. split.
    + intros [Hk Htc]. specialize (Hall k Hk).
      rewrite !elem_of_cons in *. tauto.
    + rewrite !elem_of_cons, elem_of_nil.
      intros [->|[->|[->|[]]]]; (split; [assumption|]);
        intros [Heq|[Heq|[]]]; discriminate Heq.
Qed.

(** [if k in d.keys(): assert d[k] == 1] either passes or fails the
    assertion; it passes exactly when the extent of [k], if there is one,
    is 1. *)
Lemma unit_extent_check k d :
  let check :=
    if OrderedDict.contains k d then
      v ← OrderedDict.getitem k d; assert_ (bool_decide (v = 1))
    else Ok () in
  (check = Ok () ∧ ∀ v, OrderedDict.getitem k d = Ok v → v = 1) ∨
  (check = Raise AssertionError ∧
   ∃ v, OrderedDict.getitem k d = Ok v ∧ v ≠ 1).
Proof.
  intros check. unfold check, OrderedDict.contains. case_bool_decide as Hk.
  - destruct (od_getitem_present k d Hk) as [v Hv]. rewrite Hv. csimpl.
    case_bool_decide as Hv1; csimpl.
    + left. split; [done|]. intros v' Hv'. congruence.
    + right. split; [done|]. by exists v.
  - left. split; [done|]. intros v Hv.
    rewrite (od_getitem_absent k d Hk) in Hv. discriminate Hv.
Qed.

End setup_3d.

(** [setupOutputs] accepts a pair of inputs exactly when they agree in shape
    and axis tags, the extents of t and c (where present) are 1, the axes x,
    y and z are all present and there is no axis besides t, c, x, y, z. *)
Theorem setupOutputs3d_accepts_iff (raw label : meta) :
  let d := getTaggedShape label in
  (∃ out, OpRegionFeatures3d.setupOutputs raw label = Ok out) ↔
  shape label = shape raw ∧ axistags label = axistags raw ∧
  (∀ v, OrderedDict.getitem "t" d = Ok v → v = 1) ∧
  (∀ v, OrderedDict.getitem "c" d = Ok v → v = 1) ∧
  ("x" ∈ OrderedDict.keys d ∧ "y" ∈ OrderedDict.keys d ∧
   "z" ∈ OrderedDict.keys d) ∧
  (∀ k, k ∈ OrderedDict.keys d → k ∈ ["t"; "c"; "x"; "y"; "z"]).
Proof.
  intros d. unfold OpRegionFeatures3d.setupOutputs. fold d.
  pose proof (od_of_pairs_NoDup (zip (axistags label) (shape label))) as Hnd.
  fold (getTaggedShape label) in Hnd. fold d in Hnd.
  split.
  - intros [out H].
    apply bind_ok in H as ([] & H1 & H). apply bind_ok in H as ([] & H2 & H).
    apply bind_ok in H as ([] & Ht & H). apply bind_ok in H as ([] & Hc & H).
    apply bind_ok in H as ([] & Hset & _).
    apply assert_ok, bool_decide_eq_true in H1, H2, Hset.
    apply spatial_axes_test in Hset as [(Hx & Hy & Hz) Hall].
    split_and!; try assumption.
    + destruct (unit_extent_check "t" d) as [[_ Hv]|[Hr _]]; [exact Hv|].
      rewrite Hr in Ht. discriminate Ht.
    + destruct (unit_extent_check "c" d) as [[_ Hv]|[Hr _]]; [exact Hv|].
      rewrite Hr in Hc. discriminate Hc.
  - intros (H1 & H2 & Ht & Hc & (Hx & Hy & Hz) & Hall).
    rewrite (assert_true (bool_decide (shape label = shape raw)))
      by by apply bool_decide_eq_true.
    cbn [mbind res_bind].
    rewrite (assert_true (bool_decide (axistags label = axistags raw)))
      by by apply bool_decide_eq_true.
    cbn [mbind res_bind].
    destruct (unit_extent_check "t" d) as [[-> _]|[_ (v & Hv & Hne)]];
      [|destruct Hne; by apply Ht].
    cbn [mbind res_bind].
    destruct (unit_extent_check "c" d) as [[-> _]|[_ (v & Hv & Hne)]];
      [|destruct Hne; by apply Hc].
    cbn [mbind res_bind].
    rewrite assert_true
      by (apply bool_decide_eq_true, spatial_axes_test; tauto).
    cbn [mbind res_bind].
    pose proof (od_delete_xyz_present d Hnd Hx Hy Hz) as Hdel.
    apply bind_ok in Hdel as (d1 & -> & Hdel).
    apply bind_ok in Hdel as (d2 & Hd2 & Hdel).
    cbn [mbind res_bind]. rewrite Hd2. cbn [mbind res_bind]. rewrite Hdel.
    cbn [mbind res_bind]. by eexists.
Qed.

(** [setupOutputs] never raises anything but an assertion error: whenever
    the assertions pass, the three [del] statements and the look-ups of t
    and c find their keys. *)
Theorem setupOutputs3d_only_asserts (raw label : meta) (e : exn) :
  OpRegionFeatures3d.setupOutputs raw label = Raise e → e = AssertionError.
Proof.
  unfold OpRegionFeatures3d.setupOutputs.
  set (d := getTaggedShape label).
  pose proof (od_of_pairs_NoDup (zip (axistags label) (shape label))) as Hnd.
  fold (getTaggedShape label) in Hnd. fold d in Hnd.
  destruct (bool_decide (shape label = shape raw)); cbn [assert_ mbind res_bind];
    [|congruence].
  destruct (bool_decide (axistags label = axistags raw));
    cbn [assert_ mbind res_bind]; [|congruence].
  destruct (unit_extent_check "t" d) as [[-> _]|[-> _]];
    cbn [mbind res_bind]; [|congruence].
  destruct (unit_extent_check "c" d) as [[-> _]|[-> _]];
    cbn [mbind res_bind]; [|congruence].
  case_bool_decide as Hset; cbn [assert_ mbind res_bind]; [|congruence].
  apply spatial_axes_test in Hset as [(Hx & Hy & Hz) _].
  pose proof (od_delete_xyz_present d Hnd Hx Hy Hz) as Hdel.
  apply bind_ok in Hdel as (d1 & -> & Hdel).
  apply bind_ok in Hdel as (d2 & Hd2 & Hdel).
  cbn [mbind res_bind]. rewrite Hd2. cbn [mbind res_bind]. rewrite Hdel.
  cbn [mbind res_bind]. congruence.
Qed.

Lemma filter_zip_keys (tags : list string) (shp : list Z) :
  length shp = length tags →
  OrderedDict.keys (List.filter Spec.not_spatial (zip tags shp))
  = List.filter (λ k, negb (Spec.is_spatial k)) tags.
Proof.
  unfold OrderedDict.keys. revert shp.
  induction tags as [|k tags IH]; intros [|v shp] Hlen; try done.
  csimpl. unfold Spec.not_spatial at 1. cbn [fst].
  destruct (Spec.is_spatial k); csimpl; rewrite IH by (csimpl in *; lia); done.
Qed.

Lemma all_ones (l : list Z) : Forall (λ v, v = 1) l → l = replicate (length l) 1.
Proof. induction 1 as [|v l -> _ IH]; csimpl; [done|]. by rewrite <-IH. Qed.

(** The metadata a successful [setupOutputs] publishes, for inputs with
    pairwise distinct axis keys and one extent per axis: the output keeps
    the axes other than x, y, z in their order, every extent is 1, and the
    element type is [object]. *)
Theorem setupOutputs3d_output (raw label out : meta) :
  NoDup (axistags label) →
  length (shape label) = length (axistags label) →
  OpRegionFeatures3d.setupOutputs raw label = Ok out →
  axistags out = List.filter (λ k, negb (Spec.is_spatial k)) (axistags label) ∧
  shape out = replicate (length (axistags out)) 1 ∧
  dtype_of out = object.
Proof.
  intros Hnd Hlen Hsetup.
  destruct (setupOutputs3d_ok _ _ _ Hsetup) as (_ & _ & _ & Hshape & Htags & Hones).
  destruct (tagged_shape_distinct label Hnd Hlen) as [Hd _].
  assert (length (shape out) = length (axistags out)) as Hl.
  { rewrite Hshape, Htags. unfold OrderedDict.values, OrderedDict.keys.
    by rewrite !length_fmap. }
  rewrite Hd in Htags. rewrite filter_zip_keys in Htags by done.
  split_and!.
  - exact Htags.
  - rewrite (all_ones _ Hones). by rewrite Hl.
  - unfold OpRegionFeatures3d.setupOutputs in Hsetup.
    repeat (apply bind_ok in Hsetup as (? & _ & Hsetup)).
    by injection Hsetup as <-.
Qed.

Lemma setupOutputs3d_accepts_iff_witness :
  ∃ out, OpRegionFeatures3d.setupOutputs (Examples.volume_meta float32)
           (Examples.volume_meta uint32) = Ok out.
Proof.
  apply (proj2 (setupOutputs3d_accepts_iff (Examples.volume_meta float32)
                  (Examples.volume_meta uint32))).
  split_and!; try (vm_compute; reflexivity).
  - vm_compute. intros v Hv. by injection Hv as <-.
  - vm_compute. intros v Hv. by injection Hv as <-.
  - right; left.
  - right; right; left.
  - right; right; right; left.
  - intros k. vm_compute OrderedDict.keys.
    rewrite !elem_of_cons, !elem_of_nil. tauto.
Defined.

Lemma setupOutputs3d_only_asserts_witness : AssertionError = AssertionError.
Proof.
  apply (setupOutputs3d_only_asserts
           (Meta [1; 4; 4; 4; 1] ["t"; "x"; "y"; "z"; "c"] float32)
           (Meta [2; 4; 4; 4; 1] ["t"; "x"; "y"; "z"; "c"] uint32)
           AssertionError).
  vm_compute. reflexivity.
Defined.

Lemma setupOutputs3d_output_witness :
  axistags (Meta [1; 1] ["t"; "c"] object)
  = List.filter (λ k, negb (Spec.is_spatial k))
      (axistags (Examples.volume_meta uint32)) ∧
  shape (Meta [1; 1] ["t"; "c"] object)
  = replicate (length (axistags (Meta [1; 1] ["t"; "c"] object))) 1 ∧
  dtype_of (Meta [1; 1] ["t"; "c"] object) = object.
Proof.
  apply (setupOutputs3d_output (Examples.volume_meta float32)
           (Examples.volume_meta uint32) (Meta [1; 1] ["t"; "c"] object)).
  - refine (@bool_decide_unpack _ (NoDup_dec _) _). vm_compute. exact I.
  - reflexivity.
  - vm_compute. reflexivity.
Defined.

(** ** [OpRegionFeatures3d.execute]: its checks and what it leaves alone *)

Lemma wrap_int64_mul (a x : Z) :
  wrap_int64 (wrap_int64 a * x) = wrap_int64 (a * x).
Proof.
  unfold wrap_int64. f_equal.
  rewrite (Z.mod_eq (a + 2 ^ 63) (2 ^ 64)) by lia.
  replace ((a + 2 ^ 63 - 2 ^ 64 * ((a + 2 ^ 63) / 2 ^ 64) - 2 ^ 63) * x
           + 2 ^ 63)
    with (a * x + 2 ^ 63 + (- ((a + 2 ^ 63) / 2 ^ 64) * x) * 2 ^ 64) by ring.
  apply Z_mod_plus_full.
Qed.

Lemma wrap_int64_one (z : Z) : wrap_int64 z = 1 ↔ z `mod` 2 ^ 64 = 1.
Proof.
  unfold wrap_int64.
  pose proof (Z.mod_pos_bound z (2 ^ 64)) as Hz.
  pose proof (Z.mod_pos_bound (z + 2 ^ 63) (2 ^ 64)) as Hw.
  pose proof (Z.mod_eq z (2 ^ 64)) as Ez.
  pose proof (Z.mod_eq (z + 2 ^ 63) (2 ^ 64)) as Ew.
  lia.
Qed.

Lemma wrapped_product (l : list Z) (p : Z) :
  foldl (λ p x, wrap_int64 (p * x)) (wrap_int64 p) l
  = wrap_int64 (p * foldr Z.mul 1 l).
Proof.
  revert p. induction l as [|x l IH]; intros p; cbn [foldl foldr].
  - by rewrite Z.mul_1_r.
  - rewrite wrap_int64_mul, IH. f_equal. ring.
Qed.

Lemma modular_product (l : list Z) (p : Z) :
  foldl (λ p x, (p * x) `mod` 2 ^ 64) (p `mod` 2 ^ 64) l
  = (p * foldr Z.mul 1 l) `mod` 2 ^ 64.
Proof.
  revert p. induction l as [|x l IH]; intros p; cbn [foldl foldr].
  - by rewrite Z.mul_1_r.
  - rewrite Z.mul_mod_idemp_l by lia. rewrite IH. f_equal. ring.
Qed.

Lemma exact_product (l : list Z) (p : Z) :
  foldl Z.mul p l = p * foldr Z.mul 1 l.
Proof.
  revert p. induction l as [|x l IH]; intros p; cbn [foldl foldr].
  - by rewrite Z.mul_1_r.
  - rewrite IH. ring.
Qed.

(** When numpy's product of a sequence is 1: the exact product is 1 modulo
    2^64, and it is 1 itself unless the values all fit int64 or all fit
    uint64. *)
Lemma prod_one (l : list Z) :
  prod l = 1 →
  foldr Z.mul 1 l `mod` 2 ^ 64 = 1 ∧
  (foldr Z.mul 1 l = 1 ∨
   Forall (λ x, - 2 ^ 63 ≤ x < 2 ^ 63) l ∨ Forall (λ x, 0 ≤ x < 2 ^ 64) l).
Proof.
  unfold prod.
  destruct (forallb (λ x, bool_decide (- 2 ^ 63 ≤ x < 2 ^ 63)) l) eqn:H1.
  { change 1 with (wrap_int64 1) at 1.
    rewrite wrapped_product, Z.mul_1_l, wrap_int64_one. intros Hone.
    split; [done|]. right. left. apply Forall_forall. intros x Hx.
    rewrite forallb_forall in H1.
    apply (bool_decide_eq_true_1 _). by apply H1, list_elem_of_In. }
  destruct (forallb (λ x, bool_decide (0 ≤ x < 2 ^ 64)) l) eqn:H2.
  { change 1 with (1 `mod` 2 ^ 64) at 1.
    rewrite modular_product, Z.mul_1_l. intros Hone.
    split; [done|]. right. right. apply Forall_forall. intros x Hx.
    rewrite forallb_forall in H2.
    apply (bool_decide_eq_true_1 _). by apply H2, list_elem_of_In. }
  rewrite exact_product, Z.mul_1_l. intros ->. split; [done|by left].
Qed.

Section execute_3d_edges.
Context `{Vigra}.
Import OpRegionFeatures3d Spec.

(** A request for a slot other than Output, or with a box whose start, stop
    and the output's shape do not all have the same length, is refused
    before any input is requested. *)
Theorem execute3d_refused_before_reading (self : operator) (slot : slot_id)
    (subindex : list Z) (r : box) (result : ndarray Features) (tr : trace) :
  slot ≠ Output ∨ length (start r) ≠ length (stop r) ∨
  length (stop r) ≠ length (shape (output_meta self)) →
  execute self slot subindex r result tr = (Raise AssertionError, tr).
Proof.
  intros Hbad. rewrite execute_unfold.
  case_bool_decide as H1; [|done].
  case_bool_decide as H2; [|done].
  cbn [andb]. case_bool_decide as H3; [|done].
  tauto.
Qed.

(** The test of the extent product comes after the reads: a box of the right
    rank whose extent product, as numpy computes it, is not 1 is refused
    only once the whole extent of RawVolume and of LabelVolume has been
    requested.  Where the extents all fit int64 or all fit uint64 numpy's
    product wraps around, so the test fails when the exact product is not 1
    modulo 2^64; for other extents the product is exact. *)
Theorem execute3d_product_checked_after_reading (self : operator)
    (subindex : list Z) (r : box) (result : ndarray Features) (tr : trace) :
  let extents := zip_with Z.sub (stop r) (start r) in
  let product := foldr Z.mul 1 extents in
  length (start r) = length (stop r) →
  length (stop r) = length (shape (output_meta self)) →
  product `mod` 2 ^ 64 ≠ 1 ∨
  (product ≠ 1 ∧
   ¬ Forall (λ e, - 2 ^ 63 ≤ e < 2 ^ 63) extents ∧
   ¬ Forall (λ e, 0 ≤ e < 2 ^ 64) extents) →
  execute self Output subindex r result tr
  = (Raise AssertionError,
     tr ++ [Requested "RawVolume"
              (SubRegion (const 0 <$> shape (in_meta (raw self)))
                         (shape (in_meta (raw self))));
            Requested "LabelVolume"
              (SubRegion (const 0 <$> shape (in_meta (label self)))
                         (shape (in_meta (label self))))]).
Proof.
  intros extents product H1 H2 Hprod. rewrite execute_unfold.
  rewrite (bool_decide_eq_true_2 _ H1), (bool_decide_eq_true_2 _ H2).
  rewrite (bool_decide_eq_true_2 (Output = Output)) by done. cbn [andb].
  rewrite bool_decide_eq_false_2; [reflexivity|].
  intros Hone. apply prod_one in Hone as [Hmod Hexact].
  fold extents in Hmod, Hexact. fold product in Hmod, Hexact.
  destruct Hprod as [Hne|(Hne & Hint & Huint)]; [done|].
  destruct Hexact as [?|[?|?]]; done.
Qed.

(** Whatever shape the destination has, a request that returns has changed
    it only at the cell (or, for a start shorter than the destination's
    rank, the cells) addressed by the box's start, where it holds the
    feature record of the whole volume; the shape is kept. *)
Theorem execute3d_frame (self : operator) (slot : slot_id) (subindex : list Z)
    (r : box) (result result' : ndarray Features) (tr tr' : trace) :
  execute self slot subindex r result tr = (Ok result', tr') →
  nd_shape result' = nd_shape result ∧
  ∃ key acc, norm_key (nd_shape result) (start r) = Ok key ∧
    whole_volume_features self = Ok acc ∧
    ∀ idx,
      nd_item result' idx
      = if bool_decide (take (length key) idx = key)
        then acc else nd_item result idx.
Proof.
  rewrite execute_unfold. intros Hexec.
  destruct (_ && _); [|done].
  destruct (bool_decide (slot = Output)); [|done].
  destruct (bool_decide (prod _ = 1)); [|done].
  destruct (whole_volume_features self) as [acc|e]; [|done].
  unfold setitem in Hexec.
  destruct (norm_key (nd_shape result) (start r)) as [key|e] eqn:Hkey;
    cbn [mbind res_bind] in Hexec; [|done].
  injection Hexec as <- _. split; [done|]. by exists key, acc.
Qed.

End execute_3d_edges.

Lemma execute3d_refused_before_reading_witness :
  @OpRegionFeatures3d.execute Examples.toy_vigra Examples.slab_features
    OpRegionFeatures3d.RawVolume [] (Box [0; 0] [1; 1])
    (Examples.feature_cell (0, 0)) []
  = (Raise AssertionError, []).
Proof.
  apply (@execute3d_refused_before_reading Examples.toy_vigra).
  left. discriminate.
Defined.

Lemma execute3d_product_checked_after_reading_witness :
  @OpRegionFeatures3d.execute Examples.toy_vigra Examples.slab_features
    OpRegionFeatures3d.Output [] (Box [0; 0] [2 ^ 64 + 1; 1])
    (Examples.feature_cell (0, 0)) []
  = (Raise AssertionError,
     [] ++ [Requested "RawVolume"
              (SubRegion [0; 0; 0; 0; 0] [1; 4; 4; 4; 1]);
            Requested "LabelVolume"
              (SubRegion [0; 0; 0; 0; 0] [1; 4; 4; 4; 1])]).
Proof.
  apply (@execute3d_product_checked_after_reading Examples.toy_vigra
           Examples.slab_features [] (Box [0; 0] [2 ^ 64 + 1; 1])
           (Examples.feature_cell (0, 0)) []); [reflexivity|reflexivity|].
  right. cbn [start stop zip_with foldr]. split_and!.
  - lia.
  - intros Hfit. apply Forall_cons in Hfit as [Hfit _]. lia.
  - intros Hfit. apply Forall_cons in Hfit as [Hfit _]. lia.
Defined.

Lemma execute3d_frame_witness :
  nd_shape (NdArray [1; 1]
              (λ idx, if bool_decide (take 2 idx = [0; 0])
                      then (100, 0) else (0, 0)))
  = nd_shape (Examples.feature_cell (0, 0)) ∧
  ∃ key acc,
    norm_key (nd_shape (Examples.feature_cell (0, 0))) [0; 0] = Ok key ∧
    Spec.whole_volume_features Examples.slab_features = Ok acc ∧
    ∀ idx,
      nd_item (NdArray [1; 1]
                 (λ idx, if bool_decide (take 2 idx = [0; 0])
                         then (100, 0) else (0, 0))) idx
      = if bool_decide (take (length key) idx = key)
        then acc else nd_item (Examples.feature_cell (0, 0)) idx.
Proof.
  apply (@execute3d_frame Examples.toy_vigra Examples.slab_features
           OpRegionFeatures3d.Output [] (Box [0; 0] [1; 1])
           (Examples.feature_cell (0, 0)) _ []
           ([] ++ Spec.whole_volume_requests Examples.slab_features)).
  reflexivity.
Defined.

(** ** [OpRegionFeatures3d.propagateDirty] without a spatial axis *)

Lemma od_delitem_raises (k : string) (d : OrderedDict.t) (e : exn) :
  OrderedDict.delitem k d = Raise e → e = KeyError.
Proof.
  induction d as [|[k' v'] d IH]; csimpl; [congruence|].
  destruct (decide (k = k')); [congruence|].
  destruct (OrderedDict.delitem k d); csimpl; [congruence|].
  intros Heq. apply IH. congruence.
Qed.

Lemma od_foldl_keys_subseteq (l : list (string * Z)) (d : OrderedDict.t) k :
  k ∈ OrderedDict.keys (foldl (λ d kv, OrderedDict.setitem kv.1 kv.2 d) d l) →
  k ∈ OrderedDict.keys d ∨ k ∈ l.*1.
Proof.
  revert d. induction l as [|[k' v'] l IH]; intros d; csimpl; [by left|].
  intros Hk. destruct (IH _ Hk) as [Hd|Hl]; [|right; by right].
  rewrite od_setitem_keys in Hd. case_decide; [by left|].
  apply elem_of_app in Hd as [Hd|Hd]; [by left|].
  apply list_elem_of_singleton in Hd as ->. right. left.
Qed.

Lemma od_of_zip_keys (axes : list string) (v : list Z) k :
  k ∈ OrderedDict.keys (OrderedDict.of_pairs (zip axes v)) → k ∈ axes.
Proof.
  intros Hk. apply od_foldl_keys_subseteq in Hk as [Hk|Hk].
  - by apply elem_of_nil in Hk.
  - apply list_elem_of_fmap in Hk as ([k' v'] & -> & Hk).
    by apply elem_of_zip_l in Hk.
Qed.

(** When x, y or z is not among the axes of the raw input, a dirty notice
    raises a [KeyError] and nothing is marked dirty on Output. *)
Theorem propagateDirty3d_missing_axis `{Vigra}
    (self : OpRegionFeatures3d.operator) (slot : OpRegionFeatures3d.slot_id)
    (subindex : list Z) (r : box) (tr : trace) :
  let axes :=
    axistags (OpRegionFeatures3d.in_meta (OpRegionFeatures3d.raw self)) in
  ¬ ("x" ∈ axes ∧ "y" ∈ axes ∧ "z" ∈ axes) →
  OpRegionFeatures3d.propagateDirty self slot subindex r tr
  = (Raise KeyError, tr).
Proof.
  intros axes Hmissing. unfold OpRegionFeatures3d.propagateDirty.
  set (keys := OrderedDict.keys
                 (getTaggedShape
                    (OpRegionFeatures3d.in_meta (OpRegionFeatures3d.raw self)))).
  assert (∀ k, k ∈ keys → k ∈ axes) as Hkeys.
  { intros k Hk. by apply od_of_zip_keys in Hk. }
  set (ds := OrderedDict.of_pairs (zip keys (start r))).
  set (dp := OrderedDict.of_pairs (zip keys (stop r))).
  pose proof (od_of_pairs_NoDup (zip keys (start r))) as Hnd. fold ds in Hnd.
  destruct (OrderedDict.delitem "x" ds) as [d1|e] eqn:H1.
  2:{ apply od_delitem_raises in H1 as ->. reflexivity. }
  rewrite (M_bind_ok _ _ tr tr d1) by reflexivity.
  destruct (OrderedDict.delitem "y" d1) as [d2|e] eqn:H2.
  2:{ apply od_delitem_raises in H2 as ->. reflexivity. }
  rewrite (M_bind_ok _ _ tr tr d2) by reflexivity.
  destruct (OrderedDict.delitem "z" d2) as [d3|e] eqn:H3.
  2:{ apply od_delitem_raises in H3 as ->. reflexivity. }
  destruct (od_delete_xyz ds d1 d2 d3 Hnd H1 H2 H3) as (_ & Hx & Hy & Hz).
  destruct Hmissing. split_and!; apply Hkeys; eapply od_of_zip_keys; eassumption.
Qed.

Lemma propagateDirty3d_missing_axis_witness :
  @OpRegionFeatures3d.propagateDirty Examples.toy_vigra
    (@OpRegionFeatures3d.Operator Examples.toy_vigra []
       (@OpRegionFeatures3d.InputSlot Examples.toy_vigra
          (Meta [1; 4; 4; 1] ["t"; "x"; "y"; "c"] float32) Examples.raw_volume)
       (@OpRegionFeatures3d.InputSlot Examples.toy_vigra
          (Meta [1; 4; 4; 1] ["t"; "x"; "y"; "c"] uint32) Examples.label_volume)
       (Meta [] [] object))
    OpRegionFeatures3d.RawVolume [] (Box [0; 0; 0; 0] [1; 2; 2; 1]) []
  = (Raise KeyError, []).
Proof.
  apply (@propagateDirty3d_missing_axis Examples.toy_vigra).
  cbn [OpRegionFeatures3d.raw OpRegionFeatures3d.in_meta axistags].
  intros (_ & _ & Hz). rewrite !elem_of_cons, elem_of_nil in Hz.
  destruct Hz as [Hz|[Hz|[Hz|[Hz|[]]]]]; discriminate Hz.
Defined.

(** ** [OpCachedRegionFeatures.setupOutputs]: one cache block per cell *)

(** [setupOutputs] succeeds exactly when the two inputs agree in shape and
    axis tags, and the block shape it sets on the cache then has the rank of
    the inner output and extent 1 along every axis. *)
Theorem setupOutputsCached_block_shape (raw label : meta) (inner bs : list Z) :
  OpCachedRegionFeatures.setupOutputs raw label inner = Ok bs ↔
  shape label = shape raw ∧ axistags label = axistags raw ∧
  length bs = length inner ∧ Forall (λ v, v = 1) bs.
Proof.
  unfold OpCachedRegionFeatures.setupOutputs. split.
  - intros H. apply bind_ok in H as ([] & H1 & H).
    apply bind_ok in H as ([] & H2 & H). injection H as <-.
    apply assert_ok, bool_decide_eq_true in H1, H2.
    split_and!; [done|done|by rewrite length_replicate|].
    apply Forall_replicate. reflexivity.
  - intros (H1 & H2 & Hlen & Hones).
    rewrite (assert_true (bool_decide (shape label = shape raw)))
      by by apply bool_decide_eq_true.
    cbn [mbind res_bind].
    rewrite (assert_true (bool_decide (axistags label = axistags raw)))
      by by apply bool_decide_eq_true.
    cbn [mbind res_bind]. by rewrite (all_ones _ Hones), Hlen.
Qed.

Lemma setupOutputsCached_block_shape_witness :
  OpCachedRegionFeatures.setupOutputs (Examples.volume_meta float32)
    (Examples.volume_meta float32) [3; 2] = Ok [1; 1].
Proof.
  apply (proj2 (setupOutputsCached_block_shape (Examples.volume_meta float32)
                  (Examples.volume_meta float32) [3; 2] [1; 1])).
  split_and!; try reflexivity. repeat constructor.
Defined.

(** ** [OpAdaptTimeListRoi]: metadata, guards and the layout of the result *)

Lemma od_getitem_raises (k : string) (d : OrderedDict.t) (e : exn) :
  OrderedDict.getitem k d = Raise e → e = KeyError.
Proof.
  induction d as [|[k' v'] d IH]; csimpl; [congruence|].
  destruct (decide (k = k')); [congruence|exact IH].
Qed.

Lemma od_getitem_ok_elem (k : string) (v : Z) (d : OrderedDict.t) :
  OrderedDict.getitem k d = Ok v → (k, v) ∈ d.
Proof.
  induction d as [|[k' v'] d IH]; csimpl; [congruence|].
  destruct (decide (k = k')) as [->|Hne].
  - intros [= ->]. left.
  - intros Hget. right. by apply IH.
Qed.

Lemma zip_fst_NoDup {A B} (l : list A) (k : list B) :
  NoDup l → NoDup (zip l k).*1.
Proof.
  revert k. induction l as [|a l IH]; intros [|b k] Hnd; csimpl;
    try constructor.
  - apply NoDup_cons in Hnd as [Ha _]. intros Hin. apply Ha.
    apply list_elem_of_fmap in Hin as ([a' b'] & -> & Hin).
    by apply elem_of_zip_l in Hin.
  - apply IH. by apply NoDup_cons in Hnd as [_ Hnd].
Qed.

Lemma M_bind_inv {A B} (m : M A) (f : A → M B) (tr tr' : trace) (b : B) :
  (m ≫= f) tr = (Ok b, tr') →
  ∃ a tr1, m tr = (Ok a, tr1) ∧ f a tr1 = (Ok b, tr').
Proof.
  unfold mbind, M_bind. destruct (m tr) as [[a|e] tr1]; [|congruence].
  intros Hf. by exists a, tr1.
Qed.

Lemma lift_inv {A} (r : res A) (a : A) (tr tr' : trace) :
  lift r tr = (Ok a, tr') → r = Ok a ∧ tr' = tr.
Proof. unfold lift. intros [= -> ->]. done. Qed.

Lemma slot_call_inv {A} (name : string) (data : ndarray A)
    (start stop : list Z) (tr tr' : trace) (a : ndarray A) :
  slot_call name data start stop tr = (Ok a, tr') →
  tr' = tr ++ [Requested name (SubRegion start stop)].
Proof.
  unfold slot_call, mbind, M_bind, emit, lift, mret, M_ret.
  destruct (valid_box _ _ _); congruence.
Qed.

Lemma split_length {A} (a : ndarray A) (n : Z) (axis : nat)
    (l : list (ndarray A)) :
  split a n axis = Ok l → Z.of_nat (length l) = n.
Proof.
  unfold split. destruct (nd_shape a !! axis); csimpl; [|congruence].
  repeat case_bool_decide; try congruence.
  intros [= <-]. rewrite length_fmap, length_seqZ. lia.
Qed.

Section time_list_adapter_layout.
Context {A : Type}.
Import OpAdaptTimeListRoi.

Lemma collect_channels_inv (sections : list (ndarray A)) (t : Z)
    (result result' : gmap Z (list A)) (acc : list A) (tr tr' : trace) :
  for_ sections
    (λ result channelResult,
       x ← lift (flat0 channelResult);
       mret (alter (λ l, l ++ [x]) t result))
    result tr
  = (Ok result', tr') →
  result !! t = Some acc →
  ∃ vals, length vals = length sections ∧
          result' = <[t := acc ++ vals]> result ∧ tr' = tr.
Proof.
  revert result acc tr.
  induction sections as [|section sections IH]; intros result acc tr.
  - cbn [for_]. intros [= <- <-] Hacc. exists [].
    by rewrite app_nil_r, insert_id.
  - cbn [for_]. intros Hrun Hacc.
    apply M_bind_inv in Hrun as (result1 & tr1 & Hstep & Hrun).
    apply M_bind_inv in Hstep as (x & tr2 & Hx & Hstep).
    apply lift_inv in Hx as [Hx ->].
    injection Hstep as <- <-.
    destruct (IH _ (acc ++ [x]) _ Hrun) as (vals & Hlen & -> & ->).
    { by rewrite lookup_alter_eq, Hacc. }
    exists (x :: vals). split_and!; [cbn [length]; by rewrite Hlen| |done].
    rewrite <-app_assoc. cbn [app].
    apply map_eq. intros k. destruct (decide (k = t)) as [->|Hk].
    + by rewrite !lookup_insert_eq.
    + by rewrite !lookup_insert_ne, lookup_alter_ne.
Qed.

Lemma execute_time_inv (self : operator A) (taggedShape : OrderedDict.t)
    (numChannels : Z) (channelIndex timeIndex : nat)
    (result result' : gmap Z (list A)) (t : Z) (tr tr' : trace) :
  execute_time self taggedShape numChannels channelIndex timeIndex result t tr
  = (Ok result', tr') →
  ∃ vals r,
    Z.of_nat (length vals) = numChannels ∧
    result' = <[t := vals]> result ∧ tr' = tr ++ [Requested "Input" r].
Proof.
  unfold execute_time. intros Hrun.
  apply M_bind_inv in Hrun as (a & tr1 & Hcall & Hrun).
  apply slot_call_inv in Hcall as ->.
  apply M_bind_inv in Hrun as (sections & tr2 & Hsplit & Hrun).
  apply lift_inv in Hsplit as [Hsplit ->].
  apply split_length in Hsplit.
  destruct (collect_channels_inv _ _ _ _ [] _ _ Hrun) as (vals & Hlen & -> & ->).
  { by rewrite lookup_insert_eq. }
  eexists vals, _. split_and!; [by rewrite Hlen| |done].
  cbn [app]. by rewrite insert_insert_eq.
Qed.

Lemma time_loop_inv (self : operator A) (taggedShape : OrderedDict.t)
    (numChannels : Z) (channelIndex timeIndex : nat) (ts : list Z)
    (result result' : gmap Z (list A)) (tr tr' : trace) :
  for_ ts (execute_time self taggedShape numChannels channelIndex timeIndex)
    result tr = (Ok result', tr') →
  (∃ rs, length rs = length ts ∧ tr' = tr ++ (Requested "Input" <$> rs)) ∧
  (∀ t, t ∈ ts →
        ∃ l, result' !! t = Some l ∧ Z.of_nat (length l) = numChannels) ∧
  (∀ t, t ∉ ts → result' !! t = result !! t).
Proof.
  revert result tr. induction ts as [|t ts IH]; intros result tr.
  - cbn [for_]. intros [= <- <-]. split_and!.
    + exists []. by rewrite app_nil_r.
    + by intros t ?%elem_of_nil.
    + done.
  - cbn [for_]. intros Hrun.
    apply M_bind_inv in Hrun as (result1 & tr1 & Hstep & Hrun).
    apply execute_time_inv in Hstep as (vals & r & Hlen & -> & ->).
    destruct (IH _ _ Hrun) as ((rs & Hrs & ->) & Hin & Hout).
    split_and!.
    + exists (r :: rs). split; [cbn [length]; by rewrite Hrs|].
      by rewrite <-app_assoc.
    + intros t' Ht'. destruct (decide (t' ∈ ts)) as [Hts|Hts]; [by apply Hin|].
      apply elem_of_cons in Ht' as [->|Ht']; [|done].
      exists vals. by rewrite (Hout _ Hts), lookup_insert_eq.
    + intros t' [Hne Hts]%not_elem_of_cons.
      by rewrite (Hout _ Hts), lookup_insert_ne.
Qed.

End time_list_adapter_layout.

(** [setupOutputs] sets the shape of Output to the extent of the t axis:
    with distinct axis tags, it yields [T] exactly when some position holds
    the tag t and the extent [T], and when it raises, it raises a
    [KeyError]. *)
Theorem adapter_setupOutputs_time_extent {A}
    (self : OpAdaptTimeListRoi.operator A) :
  let m := OpAdaptTimeListRoi.input_meta self in
  NoDup (axistags m) →
  (∀ T, OpAdaptTimeListRoi.setupOutputs self = Ok T ↔
        ∃ i, axistags m !! i = Some "t" ∧ shape m !! i = Some T) ∧
  (∀ e, OpAdaptTimeListRoi.setupOutputs self = Raise e → e = KeyError).
Proof.
  intros m Hnd. unfold OpAdaptTimeListRoi.setupOutputs, getTaggedShape.
  fold m. pose proof (zip_fst_NoDup _ (shape m) Hnd) as Hnd'.
  rewrite (od_of_pairs_distinct _ Hnd'). split.
  - intros T. split.
    + intros Hget%od_getitem_ok_elem.
      apply list_elem_of_lookup in Hget as [i Hi].
      apply lookup_zip_with_Some in Hi as (k & v & [= <- <-] & Hk & Hv).
      by exists i.
    + intros (i & Hk & Hv). apply od_getitem_elem; [exact Hnd'|].
      apply list_elem_of_lookup. exists i.
      apply lookup_zip_with_Some. by exists "t", T.
  - intros e. apply od_getitem_raises.
Qed.

Lemma adapter_setupOutputs_time_extent_witness :
  OpAdaptTimeListRoi.setupOutputs (Examples.adapter 7 3) = Ok 7.
Proof.
  apply (proj1 (adapter_setupOutputs_time_extent (Examples.adapter 7 3)
                  ltac:(refine (@bool_decide_unpack _ (NoDup_dec _) _);
                        vm_compute; exact I))).
  exists 0%nat. split; reflexivity.
Defined.

(** [execute] checks the slot and looks up the channel axis before it sends
    any request: on a slot other than Output it raises an
    [AssertionError], on an input without a c axis a [KeyError], and the
    trace is left as it was. *)
Theorem adapter_execute_guards {A D} (self : OpAdaptTimeListRoi.operator A)
    (slot : OpAdaptTimeListRoi.slot_id) (subindex : list Z) (r : list Z)
    (destination : D) (tr : trace) :
  slot ≠ OpAdaptTimeListRoi.Output ∨
    "c" ∉ axistags (OpAdaptTimeListRoi.input_meta self) →
  OpAdaptTimeListRoi.execute self slot subindex r destination tr
  = (Raise (if bool_decide (slot = OpAdaptTimeListRoi.Output)
            then KeyError else AssertionError), tr).
Proof.
  intros Hbad. unfold OpAdaptTimeListRoi.execute.
  destruct (decide (slot = OpAdaptTimeListRoi.Output)) as [Hslot|Hslot].
  2:{ rewrite !(bool_decide_eq_false_2 (slot = OpAdaptTimeListRoi.Output))
        by exact Hslot.
      reflexivity. }
  rewrite !(bool_decide_eq_true_2 (slot = OpAdaptTimeListRoi.Output))
    by exact Hslot.
  destruct Hbad as [Hbad|Hc]; [done|].
  rewrite (M_bind_ok _ _ tr tr ()) by reflexivity.
  apply M_bind_raise. unfold lift. f_equal.
  apply od_getitem_absent. intros Hin. apply Hc.
  by apply od_of_zip_keys in Hin.
Qed.

Lemma adapter_execute_guards_witness :
  OpAdaptTimeListRoi.execute
    (OpAdaptTimeListRoi.Operator (Meta [2] ["t"] object) (Examples.cells 2 1))
    OpAdaptTimeListRoi.Output [] [0] () []
  = (Raise KeyError, []).
Proof.
  apply (adapter_execute_guards
           (OpAdaptTimeListRoi.Operator (Meta [2] ["t"] object)
              (Examples.cells 2 1))
           OpAdaptTimeListRoi.Output [] [0] () []).
  right. cbn [OpAdaptTimeListRoi.input_meta axistags].
  rewrite list_elem_of_singleton. discriminate.
Defined.

(** The layout of what [execute] returns, whenever it returns: the slot was
    Output, the input has a c axis of some extent [C], the keys of the
    result are exactly the requested times (all times [0 .. T-1] for the
    empty list), every entry lists exactly [C] records, and exactly one
    request per time was sent to Input. *)
Theorem adapter_execute_layout {A D} (self : OpAdaptTimeListRoi.operator A)
    (slot : OpAdaptTimeListRoi.slot_id) (subindex : list Z) (r : list Z)
    (destination : D) (tr tr' : trace) (result : gmap Z (list A)) :
  OpAdaptTimeListRoi.execute self slot subindex r destination tr
  = (Ok result, tr') →
  let tagged := getTaggedShape (OpAdaptTimeListRoi.input_meta self) in
  ∃ C ts rs,
    slot = OpAdaptTimeListRoi.Output ∧
    OrderedDict.getitem "c" tagged = Ok C ∧
    (r ≠ [] ∧ ts = r ∨
     r = [] ∧ ∃ T, OrderedDict.getitem "t" tagged = Ok T ∧ ts = range 0 T) ∧
    (∀ t, is_Some (result !! t) ↔ t ∈ ts) ∧
    (∀ t l, result !! t = Some l → Z.of_nat (length l) = C) ∧
    length rs = length ts ∧ tr' = tr ++ (Requested "Input" <$> rs).
Proof.
  intros Hrun tagged. unfold OpAdaptTimeListRoi.execute in Hrun.
  fold tagged in Hrun.
  apply M_bind_inv in Hrun as ([] & tr1 & Hslot & Hrun).
  apply lift_inv in Hslot as [Hslot ->].
  apply assert_ok, bool_decide_eq_true in Hslot.
  apply M_bind_inv in Hrun as (C & tr1 & HC & Hrun).
  apply lift_inv in HC as [HC ->].
  apply M_bind_inv in Hrun as (ci & tr1 & Hci & Hrun).
  apply lift_inv in Hci as [_ ->].
  apply M_bind_inv in Hrun as (ts & tr2 & Hts & Hrun).
  apply M_bind_inv in Hrun as (ti & tr3 & Hti & Hrun).
  apply lift_inv in Hti as [_ ->].
  apply time_loop_inv in Hrun as ((rs & Hrs & Htr) & Hin & Hout).
  assert (tr2 = tr ∧
          (r ≠ [] ∧ ts = r ∨
           r = [] ∧ ∃ T, OrderedDict.getitem "t" tagged = Ok T ∧
                         ts = range 0 T)) as [-> Hcases].
  { destruct r as [|t r].
    - rewrite (bool_decide_eq_true_2 (length (@nil Z) = 0%nat)) in Hts by done.
      apply M_bind_inv in Hts as (T & tr4 & HT & Hts).
      apply lift_inv in HT as [HT ->]. injection Hts as <- <-.
      split; [done|]. right. split; [done|]. by exists T.
    - rewrite (bool_decide_eq_false_2 (length (t :: r) = 0%nat)) in Hts by done.
      injection Hts as <- <-. split; [done|by left]. }
  exists C, ts, rs. split_and!; try done.
  - intros t. split.
    + intros Hsome. destruct (decide (t ∈ ts)) as [|Hnot]; [done|].
      rewrite (Hout _ Hnot), lookup_empty in Hsome. by destruct Hsome.
    + intros Ht. destruct (Hin _ Ht) as (l & -> & _). by eexists.
  - intros t l Hl. destruct (decide (t ∈ ts)) as [Ht|Hnot].
    + destruct (Hin _ Ht) as (l' & Hl' & Hlen). congruence.
    + by rewrite (Hout _ Hnot), lookup_empty in Hl.
Qed.

Lemma adapter_execute_layout_witness :
  ∃ C ts rs,
    OpAdaptTimeListRoi.Output = OpAdaptTimeListRoi.Output ∧
    OrderedDict.getitem "c"
      (getTaggedShape
         (OpAdaptTimeListRoi.input_meta
            (OpAdaptTimeListRoi.tc_operator 1 3 object (Examples.cells 1 3))))
    = Ok C ∧
    ([0] ≠ [] ∧ ts = [0] ∨
     [0] = [] ∧
     ∃ T, OrderedDict.getitem "t"
            (getTaggedShape
               (OpAdaptTimeListRoi.input_meta
                  (OpAdaptTimeListRoi.tc_operator 1 3 object
                     (Examples.cells 1 3)))) = Ok T ∧
          ts = range 0 T) ∧
    (∀ t, is_Some
            (({[0 := (λ i, nd_item (Examples.cells 1 3) [0; i]) <$> seqZ 0 3]}
              : gmap Z (list Z)) !! t) ↔ t ∈ ts) ∧
    (∀ t l,
       ({[0 := (λ i, nd_item (Examples.cells 1 3) [0; i]) <$> seqZ 0 3]}
        : gmap Z (list Z)) !! t = Some l → Z.of_nat (length l) = C) ∧
    length rs = length ts ∧
    [] ++ [Requested "Input" (SubRegion [0; 0] [1; 3])]
    = [] ++ (Requested "Input" <$> rs).
Proof.
  apply (adapter_execute_layout
           (OpAdaptTimeListRoi.tc_operator 1 3 object (Examples.cells 1 3))
           OpAdaptTimeListRoi.Output [] [0] () []).
  apply (execute_first_step 1 3 object (Examples.cells 1 3)); [reflexivity|lia..].
Defined.

(** The empty time list stands for all time steps: whatever the input, the
    request for [[]] runs exactly the computation of the request for
    [range(T)], [T] being the extent of the t axis. *)
Theorem adapter_empty_list_means_all_steps {A D}
    (self : OpAdaptTimeListRoi.operator A) (slot : OpAdaptTimeListRoi.slot_id)
    (subindex : list Z) (destination : D) (T : Z) (tr : trace) :
  OrderedDict.getitem "t" (getTaggedShape (OpAdaptTimeListRoi.input_meta self))
  = Ok T →
  OpAdaptTimeListRoi.execute self slot subindex [] destination tr
  = OpAdaptTimeListRoi.execute self slot subindex (range 0 T) destination tr.
Proof.
  intros HT. unfold OpAdaptTimeListRoi.execute.
  (* the slot check and the look-ups of the channel axis do not see the roi *)
  do 3 (apply M_bind_ext_r; intros ? ?).
  apply M_bind_ext_l. intros tr'.
  rewrite (bool_decide_eq_true_2 (length (@nil Z) = 0%nat)) by done.
  rewrite (M_bind_ok _ _ tr' tr' T) by (unfold lift; by rewrite HT).
  (* [range(T)] is itself empty when [T <= 0], and then stands for itself *)
  destruct (range 0 T) as [|t ts] eqn:Hrange.
  - rewrite (bool_decide_eq_true_2 (length (@nil Z) = 0%nat)) by done.
    rewrite (M_bind_ok _ _ tr' tr' T) by (unfold lift; by rewrite HT).
    by rewrite Hrange.
  - by rewrite (bool_decide_eq_false_2 (length (t :: ts) = 0%nat)).
Qed.

Lemma adapter_empty_list_means_all_steps_witness :
  OpAdaptTimeListRoi.execute (Examples.adapter 2 3) OpAdaptTimeListRoi.Output
    [] [] () []
  = OpAdaptTimeListRoi.execute (Examples.adapter 2 3) OpAdaptTimeListRoi.Output
      [] (range 0 2) () [].
Proof.
  apply (adapter_empty_list_means_all_steps (Examples.adapter 2 3)
           OpAdaptTimeListRoi.Output [] () 2 []).
  reflexivity.
Defined.

(** On a (t,c) input, the request for time 0 (and, when there is one time
    step only, the request for the empty list) sends one request for the box
    [(0,0) .. (1,C)] and returns the one entry for time 0, which lists the
    records of the [C] channels in channel order. *)
Theorem adapter_first_time_step {A D} (T C : Z) (dt : dtype) (data : ndarray A)
    (subindex : list Z) (r : list Z) (destination : D) (tr : trace) :
  nd_shape data = [T; C] → 1 ≤ C → 1 ≤ T →
  r = [0] ∨ r = [] ∧ T = 1 →
  OpAdaptTimeListRoi.execute (OpAdaptTimeListRoi.tc_operator T C dt data)
    OpAdaptTimeListRoi.Output subindex r destination tr
  = (Ok {[0 := (λ i, nd_item data [0; i]) <$> seqZ 0 C]},
     tr ++ [Requested "Input" (SubRegion [0; 0] [1; C])]).
Proof.
  intros Hshape HC HT [->|[-> ->]].
  - by apply execute_first_step.
  - rewrite (execute_empty_list_is_full_range _ _ _ _ 1) by reflexivity.
    change (range 0 1) with [0]. by apply execute_first_step.
Qed.

Lemma adapter_first_time_step_witness :
  OpAdaptTimeListRoi.execute
    (OpAdaptTimeListRoi.tc_operator 1 3 object (Examples.cells 1 3))
    OpAdaptTimeListRoi.Output [] [] () []
  = (Ok {[0 := (λ i, nd_item (Examples.cells 1 3) [0; i]) <$> seqZ 0 3]},
     [] ++ [Requested "Input" (SubRegion [0; 0] [1; 3])]).
Proof.
  apply (adapter_first_time_step 1 3 object (Examples.cells 1 3) [] [] () []);
    [reflexivity|lia|lia|].
  right. split; reflexivity.
Defined.

(** ** [OpAdaptTimeListRoi.propagateDirty] *)

Lemma list_getitem_lookup {A} (l : list A) (i : nat) (x : A) :
  l !! i = Some x → list_getitem l (Z.of_nat i) = Ok x.
Proof.
  intros Hx. pose proof (lookup_lt_Some _ _ _ Hx) as Hlt.
  unfold list_getitem.
  rewrite (bool_decide_eq_false_2 (Z.of_nat i < 0)) by lia.
  rewrite bool_decide_eq_true_2 by lia.
  by rewrite Nat2Z.id, Hx.
Qed.

Lemma axistags_index_lookup (key : string) (tags : list string) (i : nat) :
  NoDup tags → tags !! i = Some key →
  OpAdaptTimeListRoi.axistags_index key tags = i.
Proof.
  intros Hnd Hi. unfold OpAdaptTimeListRoi.axistags_index.
  destruct (list_find (λ k, k = key) tags) as [[j y]|] eqn:Hfind.
  - apply list_find_Some in Hfind as (Hj & -> & _).
    by apply (NoDup_lookup tags j i key).
  - apply list_find_None in Hfind. rewrite Forall_forall in Hfind.
    destruct (Hfind key); [|done]. by apply (list_elem_of_lookup_2 _ i).
Qed.

(** A dirty box on Input marks dirty, on Output, the list of the times the
    box spans along the t axis, [range(start[t], stop[t])]; a notice for any
    other slot is an [AssertionError] and marks nothing. *)
Theorem adapter_propagateDirty_time_range {A}
    (self : OpAdaptTimeListRoi.operator A) (slot : OpAdaptTimeListRoi.slot_id)
    (subindex : list Z) (r : box) (i : nat) (a b : Z) (tr : trace) :
  NoDup (axistags (OpAdaptTimeListRoi.input_meta self)) →
  axistags (OpAdaptTimeListRoi.input_meta self) !! i = Some "t" →
  start r !! i = Some a → stop r !! i = Some b →
  OpAdaptTimeListRoi.propagateDirty self slot subindex r tr
  = if bool_decide (slot = OpAdaptTimeListRoi.Input)
    then (Ok (), tr ++ [SetDirty "Output" (List (range a b))])
    else (Raise AssertionError, tr).
Proof.
  intros Hnd Hi Ha Hb. unfold OpAdaptTimeListRoi.propagateDirty.
  rewrite (axistags_index_lookup _ _ i Hnd Hi).
  destruct (decide (slot = OpAdaptTimeListRoi.Input)) as [Hslot|Hslot].
  2:{ rewrite !(bool_decide_eq_false_2 (slot = OpAdaptTimeListRoi.Input))
        by exact Hslot.
      reflexivity. }
  rewrite !(bool_decide_eq_true_2 (slot = OpAdaptTimeListRoi.Input))
    by exact Hslot.
  rewrite (M_bind_ok _ _ tr tr ()) by reflexivity.
  rewrite (M_bind_ok _ _ tr tr a)
    by (unfold lift; by rewrite (list_getitem_lookup _ _ _ Ha)).
  rewrite (M_bind_ok _ _ tr tr b)
    by (unfold lift; by rewrite (list_getitem_lookup _ _ _ Hb)).
  reflexivity.
Qed.

Lemma adapter_propagateDirty_time_range_witness :
  OpAdaptTimeListRoi.propagateDirty (Examples.adapter 7 3)
    OpAdaptTimeListRoi.Input [] (Box [2; 0] [5; 3]) []
  = (Ok (), [] ++ [SetDirty "Output" (List (range 2 5))]).
Proof.
  apply (adapter_propagateDirty_time_range (Examples.adapter 7 3)
           OpAdaptTimeListRoi.Input [] (Box [2; 0] [5; 3]) 0 2 5 []);
    [|reflexivity..].
  refine (@bool_decide_unpack _ (NoDup_dec _) _). vm_compute. exact I.
Defined.

(** ** [OpObjectCenterImage]: the two helpers for every rank *)

Lemma for_res_raises {S X} (l : list X) (body : S → X → res S) (s : S)
    (e E : exn) :
  (∀ s x e, body s x = Raise e → e = E) →
  for_res l body s = Raise e → e = E.
Proof.
  intros Hbody. revert s. induction l as [|x l IH]; intros s; cbn [for_res].
  - congruence.
  - destruct (body s x) as [s'|e'] eqn:Hstep; cbn [mbind res_bind].
    + apply IH.
    + intros [= <-]. by apply (Hbody s x).
Qed.

Section center_image_helpers.
Import OpObjectCenterImage.

Lemma contained_false (r : box) (c : list Z) (l : list nat) :
  for_res l (contained_step r c) false = Ok false.
Proof. induction l as [|i l IH]; cbn [for_res contained_step]; done. Qed.

Lemma contained_step_raises (r : box) (c : list Z) (b : bool) (i : nat) e :
  contained_step r c b i = Raise e → e = IndexError.
Proof.
  unfold contained_step. destruct b; [|congruence].
  destruct (list_getitem (start r) _) as [lo|e1] eqn:H1; cbn [mbind res_bind].
  2:{ intros [= <-]. by apply list_getitem_raises in H1. }
  destruct (list_getitem c _) as [x|e2] eqn:H2; cbn [mbind res_bind].
  2:{ intros [= <-]. by apply list_getitem_raises in H2. }
  destruct (bool_decide (lo ≤ x)); [|congruence].
  cbn [mbind res_bind].
  destruct (list_getitem (stop r) _) as [hi|e3] eqn:H3; cbn [mbind res_bind].
  2:{ intros [= <-]. by apply list_getitem_raises in H3. }
  congruence.
Qed.

Lemma contained_steps_true (ss es cs : list Z) (b : bool) :
  for_res (seq 0 (length cs)) (contained_step (Box ss es) cs) b = Ok true ↔
  b = true ∧
  ∀ (i : nat) x, cs !! i = Some x →
    ∃ lo hi, ss !! i = Some lo ∧ es !! i = Some hi ∧ lo ≤ x < hi.
Proof.
  revert ss es b. induction cs as [|x cs IH]; intros ss es b.
  - cbn [length seq for_res]. split.
    + intros [= ->]. split; [done|]. intros i x Hx. by destruct i.
    + by intros [-> _].
  - cbn [length seq for_res].
    destruct b.
    2:{ cbn [contained_step mbind res_bind]. rewrite contained_false.
        split; [congruence|]. by intros [? _]. }
    destruct ss as [|s ss].
    { split; [done|]. intros [_ Hall].
      destruct (Hall 0%nat x eq_refl) as (lo & hi & Hlo & _). done. }
    destruct es as [|e es].
    { split.
      - unfold contained_step at 2. cbn [start stop].
        rewrite !list_getitem_cons_0. cbn [mbind res_bind].
        destruct (bool_decide (s ≤ x)); cbn [mbind res_bind]; [done|].
        rewrite contained_false. congruence.
      - intros [_ Hall].
        destruct (Hall 0%nat x eq_refl) as (lo & hi & _ & Hhi & _). done. }
    rewrite contained_step_0. cbn [mbind res_bind andb].
    rewrite <-fmap_S_seq, for_res_fmap.
    rewrite (for_res_ext _ _ (contained_step (Box ss es) cs))
      by (intros; apply contained_step_S).
    rewrite IH. rewrite andb_true_iff, !bool_decide_eq_true. split.
    + intros [[Hlo Hhi] Hall]. split; [done|].
      intros [|i] x' Hx'.
      * injection Hx' as <-. by exists s, e.
      * apply (Hall i x' Hx').
    + intros [_ Hall]. split.
      * destruct (Hall 0%nat x eq_refl) as (lo & hi & [= <-] & [= <-] & Hx).
        lia.
      * intros i x' Hx'. apply (Hall (S i) x' Hx').
Qed.

End center_image_helpers.

(** [__contained_in_subregion] for boxes and coordinates of any rank: it
    answers [True] exactly when every component of the coordinate has a
    lower and an upper bound in the box and lies between them (in
    particular the coordinate is not longer than the box), and when it
    raises, it raises an [IndexError]. *)
Theorem contained_in_subregion_true_iff (r : box) (c : list Z) :
  (OpObjectCenterImage.contained_in_subregion r c = Ok true ↔
   ∀ (i : nat) x, c !! i = Some x →
     ∃ lo hi, start r !! i = Some lo ∧ stop r !! i = Some hi ∧ lo ≤ x < hi) ∧
  (∀ e, OpObjectCenterImage.contained_in_subregion r c = Raise e →
        e = IndexError).
Proof.
  destruct r as [ss es]. unfold OpObjectCenterImage.contained_in_subregion.
  split.
  - rewrite contained_steps_true. cbn [start stop]. tauto.
  - intros e. apply for_res_raises. intros b i e'.
    apply contained_step_raises.
Qed.

(** [__make_key] for boxes and coordinates of any rank: it returns a key
    exactly when the coordinate has at least the rank of the box, the key
    then being the offsets of the leading components from the box's start;
    further components are ignored. *)
Theorem make_key_iff (r : box) (c key : list Z) :
  OpObjectCenterImage.make_key r c = Ok key ↔
  (length (start r) ≤ length c)%nat ∧ key = zip_with Z.sub c (start r).
Proof.
  destruct r as [ss es]. unfold OpObjectCenterImage.make_key. cbn [start].
  revert c key. induction ss as [|s ss IH]; intros c key.
  - cbn [length seq OpObjectCenterImage.make_key_from].
    destruct c; cbn [zip_with length]; split.
    + intros [= <-]. split; [lia|done].
    + by intros [_ ->].
    + intros [= <-]. split; [lia|done].
    + by intros [_ ->].
  - cbn [length seq OpObjectCenterImage.make_key_from].
    destruct c as [|x cs].
    { split; [done|]. cbn [length]. intros [Hlen _]. lia. }
    rewrite list_getitem_cons_0. cbn [mbind res_bind start].
    rewrite list_getitem_cons_0. cbn [mbind res_bind].
    rewrite <-fmap_S_seq, make_key_from_S.
    cbn [length zip_with].
    destruct (OpObjectCenterImage.make_key_from (Box ss es) cs
                (seq 0 (length ss))) as [k|e] eqn:Hk; cbn [mbind res_bind].
    + apply IH in Hk as [Hlen ->]. split.
      * intros [= <-]. split; [lia|done].
      * by intros [_ ->].
    + split; [done|]. intros [Hlen ->].
      assert (OpObjectCenterImage.make_key_from (Box ss es) cs
                (seq 0 (length ss)) = Ok (zip_with Z.sub cs ss)) as Hok.
      { apply IH. split; [lia|done]. }
      congruence.
Qed.

(** ** [OpObjectCenterImage.execute]: what every returned image looks like *)

(** Whenever [execute] returns for a box over the five axes and a
    destination of the box's shape, the image has the destination's shape,
    every voxel of it is 0 or 255 whatever the destination held before, and
    exactly one request per time step of the box went to RegionCenters, in
    increasing order of time. *)
Theorem center_image_values {F : Type} (to_uint32 : F → Z)
    (self : OpObjectCenterImage.operator F) (subindex : list Z)
    (t0 x0 y0 z0 c0 t1 x1 y1 z1 c1 : Z) (dest : ndarray Z) (tr : trace)
    (res : ndarray Z) (tr' : trace) :
  let r := Box [t0; x0; y0; z0; c0] [t1; x1; y1; z1; c1] in
  nd_shape dest = zip_with Z.sub (stop r) (start r) →
  OpObjectCenterImage.execute to_uint32 self OpObjectCenterImage.Output
    subindex r dest tr = (Ok res, tr') →
  nd_shape res = nd_shape dest ∧
  tr' = tr ++ Marker.requests_for (range t0 t1) ∧
  ∀ idx, in_bounds (nd_shape res) idx →
         nd_item res idx = 0 ∨ nd_item res idx = 255.
Proof.
  intros r Hshape Hexec.
  destruct (execute_center_result to_uint32 self subindex
              t0 x0 y0 z0 c0 t1 x1 y1 z1 c1 dest tr res tr' Hshape Hexec)
    as (cs & _ & Htr & Hres & Hitems).
  split_and!; [done..|].
  intros idx Hidx. rewrite (Hitems idx Hidx).
  destruct (existsb _ cs); [by right|by left].
Qed.

Lemma center_image_values_witness :
  nd_shape Examples.marked_image
  = nd_shape (Examples.destination [1; 20; 20; 20; 1]) ∧
  Examples.whole_image_request.2 = [] ++ Marker.requests_for (range 0 1) ∧
  ∀ idx, in_bounds (nd_shape Examples.marked_image) idx →
         nd_item Examples.marked_image idx = 0 ∨
         nd_item Examples.marked_image idx = 255.
Proof.
  apply (center_image_values Examples.cast_uint32 (Examples.center_image 1)
           [] 0 0 0 0 0 1 20 20 20 1 (Examples.destination [1; 20; 20; 20; 1])
           [] Examples.marked_image Examples.whole_image_request.2).
  - reflexivity.
  - vm_compute. reflexivity.
Defined.

(** A box that spans no time step ([stop[0] <= start[0]]) is answered with
    the destination filled with zeros, and nothing is requested from
    RegionCenters; this holds for boxes of any rank. *)
Theorem center_image_empty_window {F : Type} (to_uint32 : F → Z)
    (self : OpObjectCenterImage.operator F) (subindex : list Z) (r : box)
    (t0 t1 : Z) (dest : ndarray Z) (tr : trace) :
  start r !! 0%nat = Some t0 → stop r !! 0%nat = Some t1 → t1 ≤ t0 →
  OpObjectCenterImage.execute to_uint32 self OpObjectCenterImage.Output
    subindex r dest tr = (Ok (fill dest 0), tr).
Proof.
  intros H0 H1 Hle. unfold OpObjectCenterImage.execute.
  pose proof (list_getitem_lookup _ _ _ H0) as G0.
  pose proof (list_getitem_lookup _ _ _ H1) as G1.
  change (Z.of_nat 0) with 0 in G0, G1.
  rewrite (M_bind_ok _ _ tr tr ()) by reflexivity.
  rewrite (M_bind_ok _ _ tr tr t0) by (unfold lift; by rewrite G0).
  rewrite (M_bind_ok _ _ tr tr t1) by (unfold lift; by rewrite G1).
  unfold range, seqZ. replace (Z.to_nat (t1 - t0)) with 0%nat by lia.
  reflexivity.
Qed.

Lemma center_image_empty_window_witness :
  OpObjectCenterImage.execute Examples.cast_uint32 (Examples.center_image 1)
    OpObjectCenterImage.Output [] (Box [3; 0; 0; 0; 0] [3; 20; 20; 20; 1])
    (Examples.destination [0; 20; 20; 20; 1]) []
  = (Ok (fill (Examples.destination [0; 20; 20; 20; 1]) 0), []).
Proof.
  apply (center_image_empty_window Examples.cast_uint32
           (Examples.center_image 1) []
           (Box [3; 0; 0; 0; 0] [3; 20; 20; 20; 1]) 3 3);
    [reflexivity|reflexivity|lia].
Defined.

Lemma center_image_single_channel_witness :
  ∃ res,
    OpObjectCenterImage.execute Examples.cast_uint32 (Examples.center_image 1)
      OpObjectCenterImage.Output []
      (Box [0; 0; 0; 0; 0] [1; 20; 20; 20; 0 + 1])
      (Examples.destination [1; 20; 20; 20; 1]) []
    = (Ok res, [] ++ Marker.requests_for (range 0 1)) ∧
    nd_shape res = nd_shape (Examples.destination [1; 20; 20; 20; 1]) ∧
    ∀ idx, in_bounds (nd_shape res) idx →
      let marked :=
        ∃ t row x y z c,
          0 ≤ t < 1 ∧
          row ∈ Marker.kept Examples.cast_uint32 [[0; 0; 0]; [5; 5; 5]] ∧
          Marker.row_center row = Some (x, y, z) ∧
          c ∈ Spec.cross t x y z 0 ∧
          idx = Marker.key_of (Box [0; 0; 0; 0; 0] [1; 20; 20; 20; 0 + 1]) c in
      (marked ∧ nd_item res idx = 255) ∨ (¬ marked ∧ nd_item res idx = 0).
Proof.
  apply (center_image_single_channel Examples.cast_uint32
           (Examples.center_image 1) [] 0 0 0 0 0 1 20 20 20
           (Examples.destination [1; 20; 20; 20; 1]) []
           (λ _, [[0; 0; 0]; [5; 5; 5]])).
  - reflexivity.
  - intros t Ht. assert (t = 0) as -> by lia. split_and!.
    + vm_compute. reflexivity.
    + exists 3%nat. repeat constructor.
    + vm_compute. repeat constructor.
Defined.

(** ** [OpObjectExtraction.__init__]: the feature names handed down *)

(** The feature names [__init__] passes to the cached feature operator hold
    no name twice and are exactly the configured names together with the
    three default features, so that the defaults are computed whatever the
    configuration says. *)
Theorem features_spec (vigra_features : list string) :
  NoDup (OpObjectExtraction.features vigra_features) ∧
  (∀ k, k ∈ OpObjectExtraction.features vigra_features ↔
        k ∈ vigra_features ∨ k ∈ OpObjectExtraction.default_features) ∧
  "RegionCenter" ∈ OpObjectExtraction.features vigra_features.
Proof.
  assert (∀ k, k ∈ OpObjectExtraction.features vigra_features ↔
               k ∈ vigra_features ∨ k ∈ OpObjectExtraction.default_features)
    as Hmem.
  { intros k. unfold OpObjectExtraction.features.
    rewrite elem_of_elements, elem_of_union, !elem_of_list_to_set.
    reflexivity. }
  split_and!; [unfold OpObjectExtraction.features; apply NoDup_elements
              |exact Hmem|].
  apply Hmem. right. left.
Qed.

(** ** [ChaingraphTrackingWorkflow]: which applets the shell enables *)

Section chaingraph_workflow.
Import ChaingraphTrackingWorkflow.

Lemma ready_flags_seq (sub : list bool) (k j : nat) :
  (j + k ≤ length sub)%nat →
  ready_flags sub ((λ i : nat, Z.of_nat i + 0) <$> seq j k)
  = Ok (take k (drop j sub)).
Proof.
  revert j. induction k as [|k IH]; intros j Hlen; [done|].
  cbn [seq fmap list_fmap ready_flags].
  destruct (lookup_lt_is_Some_2 sub j) as [x Hx]; [lia|].
  replace (Z.of_nat j + 0) with (Z.of_nat j) by lia.
  rewrite (list_getitem_lookup _ _ _ Hx). cbn [mbind res_bind].
  change (list_fmap nat Z (λ i : nat, Z.of_nat i + 0) (seq (S j) k))
    with ((λ i : nat, Z.of_nat i + 0) <$> seq (S j) k).
  rewrite IH by lia. cbn [mbind res_bind].
  by rewrite (drop_S _ _ _ Hx).
Qed.

Lemma ready_flags_range (sub : list bool) (nRoles : Z) :
  (Z.to_nat nRoles ≤ length sub)%nat →
  ready_flags sub (range 0 nRoles) = Ok (take (Z.to_nat nRoles) sub).
Proof.
  intros Hlen. unfold range, seqZ. rewrite Z.sub_0_r.
  by rewrite ready_flags_seq by lia.
Qed.

Lemma foldl_andb_forallb {X} (f : X → bool) (l : list X) (b : bool) :
  foldl (λ acc x, acc && f x) b l = b && forallb f l.
Proof.
  revert b. induction l as [|x l IH]; intros b; cbn [foldl forallb].
  - by rewrite andb_true_r.
  - by rewrite IH, andb_assoc.
Qed.

(** The value the shell was given for the applet at position [i] of the
    applet list. *)
Lemma enabled_lookup (p e0 e1 e2 e3 e4 : bool) (i : nat) (a : applet) :
  applets !! i = Some a →
  enabled [enableProjectChanges p;
           setAppletEnabled dataSelectionApplet e0;
           setAppletEnabled thresholdTwoLevelsApplet e1;
           setAppletEnabled objectExtractionApplet e2;
           setAppletEnabled trackingApplet e3;
           setAppletEnabled dataExportApplet e4] a
  = [e0; e1; e2; e3; e4] !! i.
Proof.
  destruct i as [|[|[|[|[|i]]]]]; intros [= <-]; reflexivity.
Qed.

End chaingraph_workflow.

(** [_inputReady] on lanes that all have at least [nRoles] sub-slots: the
    input is ready exactly when there is a lane and, in every lane, each of
    the first [nRoles] sub-slots is ready. *)
Theorem inputReady_spec (st : ChaingraphTrackingWorkflow.state) (nRoles : Z) :
  Forall (λ sub : list bool, (Z.to_nat nRoles ≤ length sub)%nat)
    (ChaingraphTrackingWorkflow.ImageGroup st) →
  ChaingraphTrackingWorkflow._inputReady st nRoles
  = Ok (bool_decide (ChaingraphTrackingWorkflow.ImageGroup st ≠ []) &&
        forallb (λ sub, forallb id (take (Z.to_nat nRoles) sub))
          (ChaingraphTrackingWorkflow.ImageGroup st)).
Proof.
  intros Hlanes. unfold ChaingraphTrackingWorkflow._inputReady.
  destruct (ChaingraphTrackingWorkflow.ImageGroup st) as [|sub0 lanes] eqn:Hg.
  { reflexivity. }
  rewrite (bool_decide_eq_true_2 (0 < length (sub0 :: lanes))%nat)
    by (cbn [length]; lia).
  rewrite (bool_decide_eq_true_2 (sub0 :: lanes ≠ [])) by done.
  cbn [andb].
  destruct (for_res_pure (sub0 :: lanes)
              (λ (input_ready : bool) sub,
                 if input_ready then
                   flags ← ChaingraphTrackingWorkflow.ready_flags sub
                              (range 0 nRoles);
                   Ok (forallb id flags)
                 else Ok false)
              (λ acc sub, acc && forallb id (take (Z.to_nat nRoles) sub))
              (λ _, True) true I) as [-> _].
  - intros acc sub _ Hsub. split; [|done].
    rewrite Forall_forall in Hlanes.
    rewrite (ready_flags_range _ _ (Hlanes _ Hsub)).
    by destruct acc.
  - by rewrite foldl_andb_forallb.
Qed.

Lemma inputReady_spec_witness :
  ChaingraphTrackingWorkflow._inputReady
    (ChaingraphTrackingWorkflow.State [[true; true]; [true; false; true]]
       false false false 1 1 1 true true) 2
  = Ok (bool_decide ([[true; true]; [true; false; true]] ≠ []) &&
        forallb (λ sub, forallb id (take (Z.to_nat 2) sub))
          [[true; true]; [true; false; true]]).
Proof.
  apply (inputReady_spec
           (ChaingraphTrackingWorkflow.State
              [[true; true]; [true; false; true]]
              false false false 1 1 1 true true) 2).
  cbn [ChaingraphTrackingWorkflow.ImageGroup].
  repeat constructor; cbn [length]; lia.
Defined.

(** The applets are enabled along the pipeline: whenever the shell is told
    to enable an applet, it is told to enable every applet before it in the
    workflow's applet list as well. *)
Theorem applet_enabling_chain (st : ChaingraphTrackingWorkflow.state)
    (calls : list ChaingraphTrackingWorkflow.shell_call) (i j : nat)
    (a b : ChaingraphTrackingWorkflow.applet) :
  ChaingraphTrackingWorkflow.handleAppletStateUpdateRequested st = Ok calls →
  ChaingraphTrackingWorkflow.applets !! i = Some a →
  ChaingraphTrackingWorkflow.applets !! j = Some b →
  (i ≤ j)%nat →
  ChaingraphTrackingWorkflow.enabled calls b = Some true →
  ChaingraphTrackingWorkflow.enabled calls a = Some true.
Proof.
  intros Hcalls Ha Hb Hij.
  unfold ChaingraphTrackingWorkflow.handleAppletStateUpdateRequested in Hcalls.
  apply bind_ok in Hcalls as (ready & _ & Hcalls).
  injection Hcalls as <-.
  rewrite (enabled_lookup _ _ _ _ _ _ _ _ Ha), (enabled_lookup _ _ _ _ _ _ _ _ Hb).
  clear Ha Hb.
  destruct i as [|[|[|[|[|i]]]]]; destruct j as [|[|[|[|[|j]]]]];
    try lia; clear Hij; cbn [lookup list_lookup]; try discriminate;
    intros [= H]; f_equal;
    repeat (apply andb_true_iff in H as [H ?]);
    repeat match goal with
           | Hx : _ = true |- _ => rewrite Hx; clear Hx
           end;
    reflexivity.
Qed.

Lemma applet_enabling_chain_witness :
  ChaingraphTrackingWorkflow.enabled
    [ChaingraphTrackingWorkflow.enableProjectChanges true;
     ChaingraphTrackingWorkflow.setAppletEnabled
       ChaingraphTrackingWorkflow.dataSelectionApplet true;
     ChaingraphTrackingWorkflow.setAppletEnabled
       ChaingraphTrackingWorkflow.thresholdTwoLevelsApplet true;
     ChaingraphTrackingWorkflow.setAppletEnabled
       ChaingraphTrackingWorkflow.objectExtractionApplet true;
     ChaingraphTrackingWorkflow.setAppletEnabled
       ChaingraphTrackingWorkflow.trackingApplet true;
     ChaingraphTrackingWorkflow.setAppletEnabled
       ChaingraphTrackingWorkflow.dataExportApplet false]
    ChaingraphTrackingWorkflow.thresholdTwoLevelsApplet = Some true.
Proof.
  apply (applet_enabling_chain
           (ChaingraphTrackingWorkflow.State [[true; true]]
              false false false 1 1 0 true true)
           _ 1 3 ChaingraphTrackingWorkflow.thresholdTwoLevelsApplet
           ChaingraphTrackingWorkflow.trackingApplet);
    [reflexivity|reflexivity|reflexivity|lia|reflexivity].
Defined.

(** While one of the data selection, data export and tracking applets is
    busy, project changes are disabled and so is every applet; project
    changes and the data selection applet are enabled exactly when none of
    the three is busy. *)
Theorem busy_disables_every_applet (st : ChaingraphTrackingWorkflow.state)
    (calls : list ChaingraphTrackingWorkflow.shell_call) :
  ChaingraphTrackingWorkflow.handleAppletStateUpdateRequested st = Ok calls →
  let busy :=
    ChaingraphTrackingWorkflow.dataSelection_busy st ||
    ChaingraphTrackingWorkflow.dataExport_busy st ||
    ChaingraphTrackingWorkflow.tracking_busy st in
  head calls = Some (ChaingraphTrackingWorkflow.enableProjectChanges (negb busy)) ∧
  ChaingraphTrackingWorkflow.enabled calls
    ChaingraphTrackingWorkflow.dataSelectionApplet = Some (negb busy) ∧
  (busy = true →
   ∀ a, ChaingraphTrackingWorkflow.enabled calls a = Some false).
Proof.
  intros Hcalls busy. subst busy.
  unfold ChaingraphTrackingWorkflow.handleAppletStateUpdateRequested in Hcalls.
  apply bind_ok in Hcalls as (ready & _ & Hcalls).
  injection Hcalls as <-.
  destruct (ChaingraphTrackingWorkflow.dataSelection_busy st),
    (ChaingraphTrackingWorkflow.dataExport_busy st),
    (ChaingraphTrackingWorkflow.tracking_busy st);
    (split_and!; [reflexivity|reflexivity|]);
    cbn [orb]; intros Hbusy; try discriminate Hbusy;
    intros a; rewrite ?andb_false_r; destruct a; reflexivity.
Qed.

Lemma busy_disables_every_applet_witness :
  ChaingraphTrackingWorkflow.enabled
    [ChaingraphTrackingWorkflow.enableProjectChanges false;
     ChaingraphTrackingWorkflow.setAppletEnabled
       ChaingraphTrackingWorkflow.dataSelectionApplet false;
     ChaingraphTrackingWorkflow.setAppletEnabled
       ChaingraphTrackingWorkflow.thresholdTwoLevelsApplet false;
     ChaingraphTrackingWorkflow.setAppletEnabled
       ChaingraphTrackingWorkflow.objectExtractionApplet false;
     ChaingraphTrackingWorkflow.setAppletEnabled
       ChaingraphTrackingWorkflow.trackingApplet false;
     ChaingraphTrackingWorkflow.setAppletEnabled
       ChaingraphTrackingWorkflow.dataExportApplet false]
    ChaingraphTrackingWorkflow.trackingApplet = Some false.
Proof.
  apply (busy_disables_every_applet
           (ChaingraphTrackingWorkflow.State [[true; true]]
              false false true 1 1 1 true true)
           _ eq_refl).
  reflexivity.
Defined.

(** If no data, nothing else is ready: without a lane the update succeeds
    and disables every applet but the data selection applet. *)
Theorem no_lane_nothing_else_enabled (st : ChaingraphTrackingWorkflow.state) :
  ChaingraphTrackingWorkflow.ImageGroup st = [] →
  ∃ calls,
    ChaingraphTrackingWorkflow.handleAppletStateUpdateRequested st = Ok calls ∧
    ∀ a, a ≠ ChaingraphTrackingWorkflow.dataSelectionApplet →
         ChaingraphTrackingWorkflow.enabled calls a = Some false.
Proof.
  intros Hlanes.
  unfold ChaingraphTrackingWorkflow.handleAppletStateUpdateRequested,
    ChaingraphTrackingWorkflow._inputReady.
  rewrite Hlanes. cbn [length]. 
  rewrite (bool_decide_eq_false_2 (0 < 0)%nat) by lia.
  cbn [mbind res_bind andb]. eexists. split; [reflexivity|].
  intros a Ha. destruct a; [done|reflexivity..].
Qed.

Lemma no_lane_nothing_else_enabled_witness :
  ∃ calls,
    ChaingraphTrackingWorkflow.handleAppletStateUpdateRequested
      (ChaingraphTrackingWorkflow.State [] false false false 1 1 1 true true)
    = Ok calls ∧
    ∀ a, a ≠ ChaingraphTrackingWorkflow.dataSelectionApplet →
         ChaingraphTrackingWorkflow.enabled calls a = Some false.
Proof.
  apply (no_lane_nothing_else_enabled
           (ChaingraphTrackingWorkflow.State [] false false false 1 1 1
              true true)).
  reflexivity.
Defined.

(** ** The gurobi wrapper package: which library the import keeps *)

Section gurobi_import.
Context {Lib : Type} (LoadLibrary : string → option Lib).
Import Gurobi.

Lemma try_all_tried (l : list string) (g : globals) :
  tried (foldl (try_load LoadLibrary) g l) = tried g ++ l.
Proof.
  revert g. induction l as [|f l IH]; intros g; cbn [foldl].
  - by rewrite app_nil_r.
  - rewrite IH. unfold try_load.
    destruct (LoadLibrary f); cbn [tried]; by rewrite <-app_assoc.
Qed.

Lemma try_all_none (l : list string) (g : globals) :
  Forall (λ f, LoadLibrary f = None) l →
  HAS_GUROBI (foldl (try_load LoadLibrary) g l) = HAS_GUROBI g ∧
  extlib (foldl (try_load LoadLibrary) g l) = extlib g.
Proof.
  intros Hnone. revert g.
  induction Hnone as [|f l Hf _ IH]; intros g; cbn [foldl]; [done|].
  destruct (IH (try_load LoadLibrary g f)) as [-> ->].
  unfold try_load. by rewrite Hf.
Qed.

Lemma try_all_last (before after : list string) (f : string) (lib : Lib)
    (g : globals) :
  LoadLibrary f = Some lib →
  Forall (λ f, LoadLibrary f = None) after →
  HAS_GUROBI (foldl (try_load LoadLibrary) g (before ++ f :: after)) = true ∧
  extlib (foldl (try_load LoadLibrary) g (before ++ f :: after)) = Some lib.
Proof.
  intros Hf Hafter. rewrite foldl_app. cbn [foldl].
  destruct (try_all_none after
              (try_load LoadLibrary (foldl (try_load LoadLibrary) g before) f)
              Hafter) as [-> ->].
  unfold try_load. by rewrite Hf.
Qed.

Lemma last_loadable (l : list string) :
  Forall (λ f, LoadLibrary f = None) l ∨
  ∃ before f after lib,
    l = before ++ f :: after ∧ LoadLibrary f = Some lib ∧
    Forall (λ f, LoadLibrary f = None) after.
Proof.
  induction l as [|x l [IH|(before & f & after & lib & -> & Hf & Hafter)]].
  - left. constructor.
  - destruct (LoadLibrary x) as [lib|] eqn:Hx.
    + right. by exists [], x, l, lib.
    + left. by constructor.
  - right. by exists (x :: before), f, after, lib.
Qed.

(** Importing the package tries all four candidate files in order, whether
    or not an earlier one loaded.  The import raises [RuntimeError] exactly
    when none of them loads; otherwise [HAS_GUROBI] is set and [extlib] is
    the library of the last candidate that loads. *)
Theorem import_keeps_last_library (here : string) :
  match import_module LoadLibrary here with
  | RuntimeError =>
      Forall (λ f, LoadLibrary f = None) (candidates here)
  | Imported g =>
      HAS_GUROBI g = true ∧ tried g = candidates here ∧
      ∃ before f after lib,
        candidates here = before ++ f :: after ∧
        LoadLibrary f = Some lib ∧
        Forall (λ f, LoadLibrary f = None) after ∧
        extlib g = Some lib
  end.
Proof.
  set (g0 := {| HAS_GUROBI := false; extlib := @None Lib; tried := [] |}).
  assert (import_module LoadLibrary here
          = if HAS_GUROBI (foldl (try_load LoadLibrary) g0 (candidates here))
            then Imported (foldl (try_load LoadLibrary) g0 (candidates here))
            else RuntimeError) as -> by reflexivity.
  pose proof (try_all_tried (candidates here) g0) as Htried.
  destruct (last_loadable (candidates here))
    as [Hnone|(before & f & after & lib & Heq & Hf & Hafter)].
  - destruct (try_all_none _ g0 Hnone) as [-> _]. exact Hnone.
  - pose proof (try_all_last before after f lib g0 Hf Hafter) as [Hhas Hlib].
    rewrite <-Heq in Hhas, Hlib. rewrite Hhas.
    split_and!; [exact Hhas|exact Htried|].
    by exists before, f, after, lib.
Qed.

End gurobi_import.

(** ** [OpRegionFeatures3d.execute]: the whole volume for one cell *)

Lemma setupOutputs3d_axes (raw label out : meta) :
  OpRegionFeatures3d.setupOutputs raw label = Ok out →
  ∀ k, k ∈ OrderedDict.keys (getTaggedShape label) →
       k ∈ ["t"; "c"; "x"; "y"; "z"].
Proof.
  unfold OpRegionFeatures3d.setupOutputs. intros H.
  apply bind_ok in H as ([] & _ & H). apply bind_ok in H as ([] & _ & H).
  apply bind_ok in H as ([] & _ & H). apply bind_ok in H as ([] & _ & H).
  apply bind_ok in H as ([] & Hset & _).
  apply assert_ok, bool_decide_eq_true in Hset.
  by apply spatial_axes_test in Hset as [_ Hall].
Qed.

(** On the axis keys t, c, x, y, z the test [k in 'xyz'] singles out the
    spatial axes. *)
Lemma str_in_xyz (k : string) :
  k ∈ ["t"; "c"; "x"; "y"; "z"] → str_in k "xyz" = Spec.is_spatial k.
Proof.
  rewrite !elem_of_cons, elem_of_nil.
  intros [->|[->|[->|[->|[->|[]]]]]]; reflexivity.
Qed.

Section whole_volume_for_one_cell.
Context `{Vigra}.
Import OpRegionFeatures3d.

(** C1: for a request on Output of a configured operator (the axis keys
    being pairwise distinct, one extent per axis) whose box lies in the
    output's extent and has extent product 1, with a destination of the
    box's shape: [execute] requests RawVolume over the box from 0 to its
    shape and LabelVolume over the box from 0 to its shape, and nothing
    else; it hands the two complete volumes, viewed along the spatial axes
    among the input's axes, to the extractor; when the extractor returns a
    record, [execute] returns the destination with that record stored at
    the box's start, which is the only cell of the result; when the
    extractor raises, so does [execute]. *)
Theorem execute_whole_volume (self : operator) (subindex : list Z) (r : box)
    (result : ndarray Features) (tr : trace) :
  let m := in_meta (raw self) in
  let l := in_meta (label self) in
  setupOutputs m l = Ok (output_meta self) →
  NoDup (axistags m) →
  length (shape m) = length (axistags m) →
  valid_box (shape (output_meta self)) (start r) (stop r) = true →
  foldr Z.mul 1 (zip_with Z.sub (stop r) (start r)) = 1 →
  nd_shape result = zip_with Z.sub (stop r) (start r) →
  let reads :=
    [Requested "RawVolume" (SubRegion (const 0 <$> shape m) (shape m));
     Requested "LabelVolume" (SubRegion (const 0 <$> shape l) (shape l))] in
  let spatial := List.filter Spec.is_spatial (axistags m) in
  let record :=
    extractRegionFeatures
      (asarray float32 (withAxes (axistags m) spatial (in_data (raw self))))
      (asarray uint32 (withAxes (axistags l) spatial (in_data (label self))))
      (featureNames self) 0 in
  match record with
  | Ok acc =>
      ∃ result',
        execute self Output subindex r result tr = (Ok result', tr ++ reads) ∧
        nd_shape result' = nd_shape result ∧
        in_bounds (nd_shape result') (start r) ∧
        nd_item result' (start r) = acc ∧
        ∀ idx, in_bounds (nd_shape result') idx → idx = start r
  | Raise e =>
      execute self Output subindex r result tr = (Raise e, tr ++ reads)
  end.
Proof.
  intros m l Hsetup Hnd Hlen Hbox Hprod Hshape reads spatial record.
  destruct (setupOutputs3d_ok _ _ _ Hsetup) as (Hs & Ha & _ & _ & _ & Hones).
  fold m in Hs, Ha. fold l in Hs, Ha.
  destruct (unit_box_exact _ _ _ Hones Hbox Hprod) as [Hstart Hstop].
  pose proof (valid_box_inv _ _ _ Hbox) as [Hls Hlt].
  set (n := length (shape (output_meta self))) in *.
  assert (Spec.whole_volume_features self = record) as Hrecord.
  { unfold Spec.whole_volume_features, record, spatial. fold m. fold l.
    destruct (tagged_shape_distinct m Hnd Hlen) as [_ ->].
    rewrite (List.filter_ext_in (λ k, str_in k "xyz") Spec.is_spatial);
      [done|].
    intros k Hk%list_elem_of_In. apply str_in_xyz.
    apply (setupOutputs3d_axes _ _ _ Hsetup).
    unfold getTaggedShape. rewrite Ha, Hs.
    by destruct (zip_keys_distinct (axistags m) (shape m) Hnd Hlen)
      as [-> ->]. }
  rewrite execute_unfold, Hrecord.
  change (Spec.whole_volume_requests self) with reads.
  clearbody record reads.
  rewrite (bool_decide_eq_true_2 (length (start r) = length (stop r)))
    by congruence.
  rewrite (bool_decide_eq_true_2 (length (stop r) = n)) by done.
  rewrite (bool_decide_eq_true_2 (Output = Output)) by done. cbn [andb].
  rewrite Hstart, Hstop, sub_ones_zeros, prod_ones.
  rewrite (bool_decide_eq_true_2 (1 = 1)) by done.
  destruct record as [acc|e]; [|done].
  unfold setitem. rewrite Hshape, Hstart, Hstop, sub_ones_zeros, norm_key_zeros.
  cbn [mbind res_bind]. eexists. split; [reflexivity|]. cbn [nd_shape nd_item].
  split_and!.
  - done.
  - apply in_bounds_zeros.
  - rewrite length_replicate, take_ge by by rewrite length_replicate.
    by rewrite bool_decide_eq_true_2.
  - apply in_bounds_ones.
Qed.

End whole_volume_for_one_cell.

Lemma execute_whole_volume_witness :
  ∃ result',
    @OpRegionFeatures3d.execute Examples.toy_vigra Examples.slab_features
      OpRegionFeatures3d.Output [] (Box [0; 0] [1; 1])
      (Examples.feature_cell (0, 0)) []
    = (Ok result',
       [] ++ [Requested "RawVolume"
                (SubRegion [0; 0; 0; 0; 0] [1; 4; 4; 4; 1]);
              Requested "LabelVolume"
                (SubRegion [0; 0; 0; 0; 0] [1; 4; 4; 4; 1])]) ∧
    nd_shape result' = nd_shape (Examples.feature_cell (0, 0)) ∧
    in_bounds (nd_shape result') [0; 0] ∧
    nd_item result' [0; 0] = (100, 0) ∧
    ∀ idx, in_bounds (nd_shape result') idx → idx = [0; 0].
Proof.
  apply (@execute_whole_volume Examples.toy_vigra Examples.slab_features []
           (Box [0; 0] [1; 1]) (Examples.feature_cell (0, 0)) []).
  - vm_compute. reflexivity.
  - refine (@bool_decide_unpack _ (NoDup_dec _) _). vm_compute. exact I.
  - reflexivity.
  - vm_compute. reflexivity.
  - reflexivity.
  - reflexivity.
Defined.

(** A feature name the extractor does not know: the request raises, after
    both volumes have been requested, and no record is stored. *)
Example unknown_feature_name_raises :
  @OpRegionFeatures3d.execute Examples.toy_vigra
    (@OpRegionFeatures3d.Operator Examples.toy_vigra
       ["RegionCenter"; "NoSuchFeature"]
       (@OpRegionFeatures3d.InputSlot Examples.toy_vigra
          (Examples.volume_meta float32) Examples.raw_volume)
       (@OpRegionFeatures3d.InputSlot Examples.toy_vigra
          (Examples.volume_meta uint32) Examples.label_volume)
       (Meta [1; 1] ["t"; "c"] object))
    OpRegionFeatures3d.Output [] (Box [0; 0] [1; 1])
    (Examples.feature_cell (0, 0)) []
  = (Raise ValueError,
     [Requested "RawVolume" (SubRegion [0; 0; 0; 0; 0] [1; 4; 4; 4; 1]);
      Requested "LabelVolume" (SubRegion [0; 0; 0; 0; 0] [1; 4; 4; 4; 1])]).
Proof. vm_compute. reflexivity. Qed.

(** A table whose rows differ in length cannot be made an array: the request
    raises and no image is returned. *)
Example ragged_table_raises :
  OpObjectCenterImage.execute Examples.cast_uint32
    (Examples.center_image_of [[0; 0]; [5; 5; 5]])
    OpObjectCenterImage.Output [] (Box [0; 0; 0; 0; 0] [1; 20; 20; 20; 1])
    (Examples.destination [1; 20; 20; 20; 1]) []
  = (Raise ValueError, [Requested "RegionCenters" (List [0])]).
Proof. vm_compute. reflexivity. Qed.
